(** * Fin-Collect: the data-integrity pipeline, embedded and verified

    A shallow embedding of the validation checks, the normalizers, the
    partition writer and the pairwise cross-source comparison of the
    [CXq_data] package, with the theorems that settle the claims made about
    them.

    Conventions of the embedding:
    - a [datetime.date] is its proleptic Gregorian ordinal
      ([date.toordinal()]), a [Z] between [MINORDINAL] and [MAXORDINAL];
      date arithmetic outside that range raises [OverflowError], as in
      Python;
    - a Float64 cell is a primitive binary64 float; Polars compares floats
      in its total order (a NaN equals a NaN and is above every other
      value);
    - code that can raise returns a [result]: [Ok v] or [Raise e];
    - [while] loops run on fuel; the functions that call them supply enough
      fuel, and [Timeout] marks exhausted fuel. *)

From Stdlib Require Import ZArith List Ascii Floats Uint63.
From stdpp Require Import base decidable option numbers list sorting sets
  gmap strings pretty.

Local Open Scope string_scope.
Local Open Scope list_scope.
Local Open Scope Z_scope.

(** ** Exceptions and results *)

Inductive exn : Type :=
  | OverflowError          (* date value out of range, int too large *)
  | TypeError              (* comparison with None *)
  | ValueError             (* raised by the normalizers, float(), int() *)
  | KeyError               (* dict[key] on a missing key *)
  | AttributeError         (* a method the value does not have *)
  | IndexError             (* series[0] on an empty series *)
  | ColumnNotFoundError    (* Polars: a named column is missing *)
  | DuplicateError         (* Polars: two columns of one name *)
  | InvalidOperationError  (* Polars: failed strict cast or parse *)
  | Timeout.               (* the model ran out of fuel *)

Inductive result (A : Type) : Type :=
  | Ok (a : A)
  | Raise (e : exn).
Arguments Ok {A} a.
Arguments Raise {A} e.

Global Instance result_ret : MRet result := λ A a, Ok a.
Global Instance result_bind : MBind result := λ A B k m,
  match m with
  | Ok a => k a
  | Raise e => Raise e
  end.

Global Instance result_fmap : FMap result := λ A B f m,
  match m with
  | Ok a => Ok (f a)
  | Raise e => Raise e
  end.

Definition of_option {A : Type} (e : exn) (o : option A) : result A :=
  match o with
  | Some a => Ok a
  | None => Raise e
  end.

Fixpoint mapM {A B : Type} (f : A → result B) (l : list A) : result (list B) :=
  match l with
  | [] => Ok []
  | x :: l' => y ← f x ; ys ← mapM f l' ; Ok (y :: ys)
  end.

Definition is_ok {A : Type} (m : result A) : Prop := ∃ a, m = Ok a.

Definition of_result {A : Type} (m : result A) : option A :=
  match m with
  | Ok a => Some a
  | Raise _ => None
  end.

(** ** [utils/dates.py] and the [datetime.date] it is written over *)

Module Dates.

(** [date.min.toordinal()] and [date.max.toordinal()]. *)
Definition MINORDINAL : Z := 1.
Definition MAXORDINAL : Z := 3652059.

Definition valid_date (d : Z) : Prop := MINORDINAL ≤ d ≤ MAXORDINAL.

(** [d + timedelta(days=n)]. *)
Definition date_add (d n : Z) : result Z :=
  if bool_decide (MINORDINAL ≤ d + n ≤ MAXORDINAL) then Ok (d + n)
  else Raise OverflowError.

(** [d.weekday()]: Monday is 0, Sunday is 6. *)
Definition weekday (d : Z) : Z := (d + 6) `mod` 7.

Definition is_leap (y : Z) : bool :=
  bool_decide (y `mod` 4 = 0) &&
  (negb (bool_decide (y `mod` 100 = 0)) || bool_decide (y `mod` 400 = 0)).

Definition days_before_year (y : Z) : Z :=
  let y' := y - 1 in y' * 365 + y' `div` 4 - y' `div` 100 + y' `div` 400.

Definition days_in_month (y m : Z) : Z :=
  if bool_decide (m = 2) then (if is_leap y then 29 else 28)
  else if bool_decide (m = 4 ∨ m = 6 ∨ m = 9 ∨ m = 11) then 30
  else 31.

Definition DAYS_BEFORE_MONTH : list Z :=
  [0; 0; 31; 59; 90; 120; 151; 181; 212; 243; 273; 304; 334].

Definition days_before_month (y m : Z) : Z :=
  default 0 (DAYS_BEFORE_MONTH !! Z.to_nat m) +
  (if bool_decide (2 < m) && is_leap y then 1 else 0).

(** [datetime.date(y, m, d)], as its ordinal. *)
Definition ymd2ord (y m d : Z) : Z :=
  days_before_year y + days_before_month y m + d.

(** [_ord2ymd] of CPython's [datetime]. *)
Definition ord2ymd (n0 : Z) : Z * Z * Z :=
  let n := n0 - 1 in
  let n400 := n `div` 146097 in
  let n := n `mod` 146097 in
  let n100 := n `div` 36524 in
  let n := n `mod` 36524 in
  let n4 := n `div` 1461 in
  let n := n `mod` 1461 in
  let n1 := n `div` 365 in
  let n := n `mod` 365 in
  let year := n400 * 400 + 1 + n100 * 100 + n4 * 4 + n1 in
  if bool_decide (n1 = 4 ∨ n100 = 4) then (year - 1, 12, 31)
  else
    let leapyear :=
      bool_decide (n1 = 3) &&
      (negb (bool_decide (n4 = 24)) || bool_decide (n100 = 3)) in
    let month := Z.shiftr (n + 50) 5 in
    let preceding :=
      default 0 (DAYS_BEFORE_MONTH !! Z.to_nat month) +
      (if bool_decide (2 < month) && leapyear then 1 else 0) in
    if bool_decide (preceding > n) then
      let month' := month - 1 in
      let dim :=
        if bool_decide (month' = 2) then (if leapyear then 29 else 28)
        else if bool_decide (month' = 4 ∨ month' = 6 ∨ month' = 9 ∨ month' = 11)
             then 30 else 31 in
      (year, month', n - (preceding - dim) + 1)
    else (year, month, n - preceding + 1).

(** [d.year], also what [pl.col("date").dt.year()] gives for the cell. *)
Definition year (d : Z) : Z := (ord2ymd d).1.1.

(** Zero-padded decimal, the [%02d] and [%04d] of [isoformat]. *)
Definition zero_pad (width : nat) (n : Z) : string :=
  let s := pretty n in
  String.concat "" (replicate (width - String.length s) "0") +:+ s.

(** [d.isoformat()], also [str(d)]. *)
Definition isoformat (d : Z) : string :=
  let '(y, m, dd) := ord2ymd d in
  zero_pad 4 y +:+ "-" +:+ zero_pad 2 m +:+ "-" +:+ zero_pad 2 dd.

(** The loop of [last_trading_day]:
    [while d.weekday() >= 5: d -= timedelta(days=1)]. *)
Fixpoint last_trading_day_loop (fuel : nat) (d : Z) : result Z :=
  if bool_decide (5 ≤ weekday d) then
    match fuel with
    | O => Raise Timeout
    | S fuel' => d' ← date_add d (-1) ; last_trading_day_loop fuel' d'
    end
  else Ok d.

(** [last_trading_day(ref_date=None)]; [today] is what
    [datetime.date.today()] returns. *)
Definition last_trading_day (today : Z) (ref_date : option Z) : result Z :=
  let ref_date := default today ref_date in
  last_trading_day_loop 7 ref_date.

(** The loop of [trading_days_between]. *)
Fixpoint trading_days_loop (fuel : nat) (current end_ : Z) (days : list Z)
  : result (list Z) :=
  if bool_decide (current ≤ end_) then
    match fuel with
    | O => Raise Timeout
    | S fuel' =>
        let days' :=
          if bool_decide (weekday current < 5) then days ++ [current]
          else days in
        current' ← date_add current 1 ;
        trading_days_loop fuel' current' end_ days'
    end
  else Ok days.

(** [trading_days_between(start, end)]: the loop runs once per day of
    [start..end], which is the fuel it gets. *)
Definition trading_days_between (start end_ : Z) : result (list Z) :=
  trading_days_loop (Z.to_nat (end_ - start + 1)) start end_ [].

End Dates.

Import Dates.

(** The weekdays of [start..end_] in ascending order: what the docstring
    of [trading_days_between] promises. *)
Definition weekdays_between (start end_ : Z) : list Z :=
  filter (λ d, weekday d < 5) (seqZ start (end_ - start + 1)).

(** [r] is the most recent weekday on or before [d]. *)
Definition most_recent_weekday (d r : Z) : Prop :=
  r ≤ d ∧ weekday r < 5 ∧ ∀ x, r < x ≤ d → 5 ≤ weekday x.

(** ** Float64 cells

    Polars follows IEEE 754 except in comparisons, where any NaN equals any
    other NaN and is greater than every non-NaN value. *)

Module Float64.

Definition lt (a b : float) : bool :=
  if PrimFloat.is_nan a then false
  else if PrimFloat.is_nan b then true
  else PrimFloat.ltb a b.

Definition gt (a b : float) : bool := lt b a.

Definition eq (a b : float) : bool :=
  if PrimFloat.is_nan a then PrimFloat.is_nan b
  else if PrimFloat.is_nan b then false
  else PrimFloat.eqb a b.

End Float64.

(** ** Canonical rows ([processing/schemas.py])

    A row of the canonical schema, with the [symbol] the normalizers attach
    for partitioning. [date] is an ordinal, [ingested_at] a count of
    microseconds since the epoch (UTC). The record has no nulls: a frame
    with a missing column or a null cell is outside this type. *)

Record Row : Type := mkRow {
  date : Z;
  open : float;
  high : float;
  low : float;
  close : float;
  adjusted_close : float;
  volume : Z;
  source : string;
  ingested_at : Z;
  symbol : string
}.

Abbreviation DataFrame := (list Row).

Definition DAILY_OHLCV_COLUMNS : list string :=
  ["date"; "open"; "high"; "low"; "close"; "adjusted_close"; "volume";
   "source"; "ingested_at"].

(** ** [validation/models.py] *)

Inductive CheckStatus : Type := PASS | WARN | FAIL.

Global Instance CheckStatus_eq_dec : EqDecision CheckStatus.
Proof. solve_decision. Defined.

(** The values the checks put in [details]. *)
Inductive detail : Type :=
  | DStrings (l : list string)
  | DString (s : string)
  | DInt (n : Z).

Record CheckResult : Type := mkCheckResult {
  check_name : string;
  status : CheckStatus;
  message : string;
  details : option (list (string * detail))
}.

Record CheckReport : Type := mkCheckReport {
  report_symbol : string;
  timestamp : Z;
  results : list CheckResult
}.

(** [CheckReport.overall_status]; of the set [statuses] only membership is
    asked, so it is kept as the list it is built from. *)
Definition overall_status (report : CheckReport) : CheckStatus :=
  let statuses := status <$> results report in
  if bool_decide (FAIL ∈ statuses) then FAIL
  else if bool_decide (WARN ∈ statuses) then WARN
  else PASS.

(** ** [validation/checks.py] *)

(** [series.min()] and [series.max()]: [None] on an empty series. *)
Definition series_min (l : list Z) : option Z :=
  match l with
  | [] => None
  | x :: l' => Some (foldr Z.min x l')
  end.

Definition series_max (l : list Z) : option Z :=
  match l with
  | [] => None
  | x :: l' => Some (foldr Z.max x l')
  end.

(** [sorted(s)] of a set of dates. *)
Definition sorted (s : gset Z) : list Z := merge_sort Z.le (elements s).

(** The loop over [missing] that finds the longest gap run; [prev] is
    [missing[i - 1]] and [rest] is [missing[i:]]. *)
Fixpoint gap_loop (prev : Z) (rest : list Z) (max_gap current_gap : nat)
  : nat :=
  match rest with
  | [] => max_gap
  | d :: rest' =>
      let delta := d - prev in
      if bool_decide (delta ≤ 3) then
        let current_gap := S current_gap in
        gap_loop d rest' (Nat.max max_gap current_gap) current_gap
      else gap_loop d rest' max_gap 1%nat
  end.

Definition longest_gap (missing : list Z) : nat :=
  match missing with
  | [] => 1%nat
  | d :: rest => gap_loop d rest 1%nat 1%nat
  end.

Definition check_trading_day_gaps (df : DataFrame) (symbol : string)
  : result CheckResult :=
  if bool_decide (df = []) then
    Ok (mkCheckResult "trading_day_gaps" FAIL ("No data for " +:+ symbol) None)
  else
    let dates := merge_sort Z.le (date <$> df) in
    (* [None <= None] in [trading_days_between] is a TypeError *)
    start ← of_option TypeError (series_min dates);
    end_ ← of_option TypeError (series_max dates);
    days ← trading_days_between start end_;
    let expected : gset Z := list_to_set days in
    let actual : gset Z := list_to_set dates in
    let missing := sorted (expected ∖ actual) in
    if bool_decide (missing = []) then
      Ok (mkCheckResult "trading_day_gaps" PASS
            ("No gaps found (" +:+ pretty (size actual) +:+ " trading days)")
            None)
    else
      let max_gap := longest_gap missing in
      let status := if bool_decide (3 < max_gap)%nat then FAIL else WARN in
      Ok (mkCheckResult "trading_day_gaps" status
            (pretty (length missing) +:+ " missing trading day(s), longest gap: "
               +:+ pretty max_gap)
            (Some [("missing_dates", DStrings (isoformat <$> take 20 missing))])).

Definition negative_prices (r : Row) : bool :=
  Float64.lt (open r) 0 || Float64.lt (high r) 0 ||
  Float64.lt (low r) 0 || Float64.lt (close r) 0.

(** [issues.append(text)] when [len(rows) > 0]. *)
Definition report_issue (issues : list string) (rows : DataFrame)
    (text : string) : list string :=
  if bool_decide (0 < length rows)%nat
  then issues ++ [pretty (length rows) +:+ text]
  else issues.

Definition check_price_sanity (df : DataFrame) (symbol : string)
  : result CheckResult :=
  let issues : list string := [] in
  let negative := List.filter negative_prices df in
  let issues := report_issue issues negative " rows with negative prices" in
  let high_low := List.filter (λ r, Float64.lt (high r) (low r)) df in
  let issues := report_issue issues high_low " rows where high < low" in
  let zero_close := List.filter (λ r, Float64.eq (close r) 0) df in
  let issues := report_issue issues zero_close " rows with zero close" in
  let neg_volume := List.filter (λ r, bool_decide (volume r < 0)) df in
  let issues := report_issue issues neg_volume " rows with negative volume" in
  if bool_decide (issues = []) then
    Ok (mkCheckResult "price_sanity" PASS "All price sanity checks passed" None)
  else
    Ok (mkCheckResult "price_sanity" FAIL (String.concat "; " issues)
          (Some [("issue_count", DInt (Z.of_nat (length issues)))])).

(** [today] is what [datetime.date.today()] returns inside
    [last_trading_day()]. *)
Definition check_stale_data (today : Z) (df : DataFrame) (symbol : string)
  : result CheckResult :=
  if bool_decide (df = []) then
    Ok (mkCheckResult "stale_data" FAIL ("No data for " +:+ symbol) None)
  else
    max_date ← of_option TypeError (series_max (date <$> df));
    last_td ← last_trading_day today None;
    days ← trading_days_between max_date last_td;
    let days_behind := Z.of_nat (length days) - 1 in
    let '(status, msg) :=
      if bool_decide (days_behind ≤ 1) then
        (PASS, "Data is current (latest: " +:+ isoformat max_date +:+ ")")
      else if bool_decide (days_behind ≤ 5) then
        (WARN, "Data is " +:+ pretty days_behind +:+
               " trading day(s) behind (latest: " +:+ isoformat max_date +:+ ")")
      else
        (FAIL, "Data is " +:+ pretty days_behind +:+
               " trading day(s) behind (latest: " +:+ isoformat max_date +:+ ")")
    in
    Ok (mkCheckResult "stale_data" status msg
          (Some [("latest_date", DString (isoformat max_date));
                 ("days_behind", DInt days_behind)])).

(** The threshold [0.01] is the binary64 value nearest to it,
    [0x1.47ae147ae147bp-7]. *)
Definition check_ohlc_consistency (df : DataFrame) (symbol : string)
  : result CheckResult :=
  let issues : list string := [] in
  let flat :=
    List.filter (λ r, Float64.eq (open r) (high r) &&
                      Float64.eq (high r) (low r) &&
                      Float64.eq (low r) (close r)) df in
  let issues :=
    report_issue issues flat " rows with identical OHLC (possible placeholder)" in
  let zero_vol_movement :=
    List.filter (λ r, bool_decide (volume r = 0) &&
                      Float64.gt (PrimFloat.abs (close r - open r) / open r)%float
                                 0x1.47ae147ae147bp-7%float) df in
  let issues :=
    report_issue issues zero_vol_movement
      " rows with zero volume but >1% price movement" in
  if bool_decide (issues = []) then
    Ok (mkCheckResult "ohlc_consistency" PASS "OHLC consistency checks passed"
          None)
  else
    Ok (mkCheckResult "ohlc_consistency" WARN (String.concat "; " issues) None).

(** ** [validation/runner.py] *)

Definition ALL_CHECKS (today : Z)
  : list (DataFrame → string → result CheckResult) :=
  [check_trading_day_gaps; check_price_sanity; check_stale_data today;
   check_ohlc_consistency].

(** [now_utc] is [datetime.datetime.now(datetime.timezone.utc)]. *)
Definition run_all_checks (now_utc today : Z) (df : DataFrame)
    (symbol : string) : result CheckReport :=
  results ← mapM (λ check, check df symbol) (ALL_CHECKS today);
  Ok (mkCheckReport symbol now_utc results).

(** ** The fixtures of [tests/conftest.py] and [tests/test_validation] *)

Module Fixtures.

Definition bar (d : Z) (o h l c : float) (v : Z) : Row :=
  mkRow d o h l c c v "test" 0 "AAPL".

Definition sample_ohlcv_df : DataFrame :=
  [ bar (ymd2ord 2024 1 2) 150 152 149 151 1000000;
    bar (ymd2ord 2024 1 3) 151 153 150 149.5 1100000;
    bar (ymd2ord 2024 1 4) 149.5 151 148.5 150.5 950000;
    bar (ymd2ord 2024 1 5) 152 154 151 153.5 1200000;
    bar (ymd2ord 2024 1 8) 153 155 152 154 1050000 ].

Definition negative_df : DataFrame :=
  [ bar (ymd2ord 2024 1 2) (-10) 5 (-15) 3 100 ].

Definition inverted_df : DataFrame :=
  [ bar (ymd2ord 2024 1 2) 10 5 8 9 100 ].

Definition flat_df : DataFrame :=
  [ bar (ymd2ord 2024 1 2) 100 100 100 100 0 ].

Definition gap_df : DataFrame :=
  [ bar (ymd2ord 2024 1 2) 150 152 149 151 1000000;
    bar (ymd2ord 2024 1 8) 153 155 152 154 1050000 ].

(** [sample_ohlcv_df] without 2024-01-03 and 2024-01-04. *)
Definition two_missing_df : DataFrame :=
  [ bar (ymd2ord 2024 1 2) 150 152 149 151 1000000;
    bar (ymd2ord 2024 1 5) 152 154 151 153.5 1200000;
    bar (ymd2ord 2024 1 8) 153 155 152 154 1050000 ].

(** A series with a gap of six weekdays. *)
Definition long_gap_df : DataFrame :=
  [ bar (ymd2ord 2024 1 2) 150 152 149 151 1000000;
    bar (ymd2ord 2024 1 11) 153 155 152 154 1050000 ].

(** One bar dated 9999-12-31, [date.max]. *)
Definition date_max_df : DataFrame :=
  [ bar MAXORDINAL 150 152 149 151 1000000 ].

(** [sample_ohlcv_df] followed by a bar that carries 9999-12-31 as its
    date. *)
Definition sentinel_df : DataFrame :=
  sample_ohlcv_df ++ [ bar (ymd2ord 9999 12 31) 153 155 152 154 1050000 ].

End Fixtures.

(** ** [cli/crossvalidate.py]: the pairwise comparison

    The two frames come from the query
    [SELECT date, open, high, low, close, adjusted_close, volume], so their
    rows are read through the fields of [Row]; what the function prints is
    returned as a record. The rendering of the summary table (maximum and
    mean per column) is left to the console layer. *)

Module CrossValidate.

(** Sources that don't provide real adjusted close. *)
Definition _NO_ADJ_CLOSE_SOURCES : gset string := {[ "stooq" ]}.

Definition QUERY_COLUMNS : list string :=
  ["date"; "open"; "high"; "low"; "close"; "adjusted_close"; "volume"].

(** The price column of a name. *)
Definition price_column (col : string) : option (Row → float) :=
  if bool_decide (col = "open") then Some open
  else if bool_decide (col = "high") then Some high
  else if bool_decide (col = "low") then Some low
  else if bool_decide (col = "close") then Some close
  else if bool_decide (col = "adjusted_close") then Some adjusted_close
  else None.

(** The columns of [left.join(right, on=on, suffix=suffix)]: those of
    [left], then those of [right] but the key, a name that [left] has
    already taking the suffix. *)
Definition join_columns (left right : list string) (on suffix : string)
  : list string :=
  left ++
  ((λ c, if bool_decide (c ∈ left) then c +:+ suffix else c) <$>
     filter (λ c, c ≠ on) right).

(** The rows of the inner join on [date]: for each left row, its matches
    on the right. *)
Definition join_on_date (df_a df_b : DataFrame) : list (Row * Row) :=
  ra ← df_a; rb ← filter (λ rb, date rb = date ra) df_b; [(ra, rb)].

(** [(a - b).abs() / a * 100]. *)
Definition pct_diff (a b : float) : float :=
  (PrimFloat.abs (a - b) / a * 100)%float.

Record Comparison : Type := mkComparison {
  skip_note : option string;          (* the notice printed when skip_adj *)
  common : nat;
  only_a : nat;
  only_b : nat;
  diff_cols : list (string * list float);
  exceed_count : option nat           (* dates above the tolerance *)
}.

Definition _print_pairwise_comparison (src_a : string) (df_a : DataFrame)
    (src_b : string) (df_b : DataFrame) (tolerance : float) : Comparison :=
  let dates_a : gset Z := list_to_set (date <$> df_a) in
  let dates_b : gset Z := list_to_set (date <$> df_b) in
  let common := dates_a ∩ dates_b in
  let only_a := dates_a ∖ dates_b in
  let only_b := dates_b ∖ dates_a in
  let joined := join_on_date df_a df_b in
  let joined_columns :=
    join_columns QUERY_COLUMNS QUERY_COLUMNS "date" ("_" +:+ src_b) in
  let compare_cols := ["open"; "high"; "low"; "close"] in
  let skip_adj :=
    bool_decide (src_a ∈ _NO_ADJ_CLOSE_SOURCES) ||
    bool_decide (src_b ∈ _NO_ADJ_CLOSE_SOURCES) in
  let note :=
    if skip_adj then
      Some ("Note: adjusted_close comparison skipped (" +:+
            (if bool_decide ("stooq" = src_a ∨ "stooq" = src_b)
             then "Stooq" else "source") +:+
            " does not provide adjusted close)")
    else None in
  let diff_cols :=
    omap (λ col,
            let col_b := col +:+ "_" +:+ src_b in
            if bool_decide (col ∈ joined_columns ∧ col_b ∈ joined_columns)
            then
              get ← price_column col;
              Some (col, (λ p, pct_diff (get p.1) (get p.2)) <$> joined)
            else None)
         compare_cols in
  let exceed_count :=
    if bool_decide (diff_cols = @nil (string * list float)) then None
    else
      let masks :=
        (λ d : string * list float, (λ x, Float64.gt x tolerance) <$> d.2)
          <$> diff_cols in
      let any_exceeds :=
        foldl (λ (acc : option (list bool)) (mask : list bool),
                 match acc with
                 | None => Some mask
                 | Some acc => Some (zip_with orb acc mask)
                 end) (@None (list bool)) masks in
      (λ m, length (List.filter id m)) <$> any_exceeds in
  mkComparison note (size common) (size only_a) (size only_b) diff_cols
    exceed_count.

(** The columns the comparison covers. *)
Definition compared_columns (c : Comparison) : list string := (diff_cols c).*1.

(** The pair was flagged as lacking a genuine adjusted close. *)
Definition adjusted_close_skipped (c : Comparison) : Prop :=
  is_Some (skip_note c).

End CrossValidate.

(** ** [processing/partitioner.py]

    The storage is a finite map from file paths to file contents; a write
    puts the content at its path and replaces what was there. A path is
    the string that joining its parts with "/" gives. Directories are not
    kept: a directory exists when a file lies under it. Writes do not
    fail. *)

Module Partitioner.

(** Columns that are extracted from the Hive directory path, not stored in
    Parquet. *)
Definition PARTITION_COLUMNS : list string := ["symbol"; "source"; "year"].

(** Columns stored inside each Parquet file. *)
Definition _PARQUET_COLUMNS : list string :=
  filter (λ c, c ∉ PARTITION_COLUMNS) DAILY_OHLCV_COLUMNS.

(** A row of a Parquet file: one cell for each of [_PARQUET_COLUMNS]. *)
Record ParquetRow : Type := mkParquetRow {
  p_date : Z;
  p_open : float;
  p_high : float;
  p_low : float;
  p_close : float;
  p_adjusted_close : float;
  p_volume : Z;
  p_ingested_at : Z
}.

Record ParquetFile : Type := mkParquetFile {
  file_columns : list string;
  file_rows : list ParquetRow
}.

(** [group_df.select(_PARQUET_COLUMNS)], row by row. *)
Definition select_parquet (r : Row) : ParquetRow :=
  mkParquetRow (date r) (open r) (high r) (low r) (close r)
    (adjusted_close r) (volume r) (ingested_at r).

(** The key of a row after [with_columns(year)]. *)
Definition partition_key (r : Row) : string * string * Z :=
  (symbol r, source r, year (date r)).

(** [df.group_by(["symbol", "source", "year"])]: each key with its rows,
    in the order they have in [df]. Polars leaves the order of the groups
    open; the model takes the keys in the order [remove_dups] leaves
    them. *)
Definition group_by (df : DataFrame)
  : list ((string * string * Z) * DataFrame) :=
  (λ key, (key, filter (λ r, partition_key r = key) df)) <$>
    remove_dups (partition_key <$> df).

(** [processed_dir / dataset / f"symbol={symbol}" / f"source={source}" /
    f"year={year}" / "data.parquet"]. *)
Definition out_path (processed_dir dataset : string)
    (key : string * string * Z) : string :=
  let '(symbol, source, year) := key in
  let partition_dir :=
    processed_dir +:+ "/" +:+ dataset +:+ "/" +:+ ("symbol=" +:+ symbol)
      +:+ "/" +:+ ("source=" +:+ source) +:+ "/" +:+ ("year=" +:+ pretty year)
  in
  partition_dir +:+ "/" +:+ "data.parquet".

Definition write_partitioned (df : DataFrame) (processed_dir : string)
    (dataset : string) (fs : gmap string ParquetFile)
  : gmap string ParquetFile * list string :=
  foldl (λ '(fs, written) '(key, group_df),
           let path := out_path processed_dir dataset key in
           let write_df :=
             mkParquetFile _PARQUET_COLUMNS (select_parquet <$> group_df) in
           (<[path := write_df]> fs, written ++ [path]))
        (fs, []) (group_by df).

(** The default [dataset] argument. *)
Definition default_dataset : string := "daily_ohlcv".

(** A name that is one path part: it holds no "/". *)
Fixpoint one_part (s : string) : bool :=
  match s with
  | EmptyString => true
  | String c s' => negb (bool_decide (c = "/"%char)) && one_part s'
  end.

End Partitioner.

(** ** Polars frames, as far as [processing/normalizer.py] uses them

    A frame is the list of its columns in order, each a name and its
    cells. What Polars and Python do to a single cell (parsing a date,
    casting a number, [float()], [int()]) is the interface [Library]:
    the normalizers are verified for every implementation of it. *)

Inductive value : Type :=
  | VNull
  | VStr (s : string)
  | VInt (n : Z)
  | VFloat (f : float)
  | VDate (d : Z)               (* a date, as its ordinal *)
  | VDatetime (t : Z).          (* microseconds since the epoch, UTC *)

Abbreviation Frame := (list (string * list value)).

Inductive dtype : Type := Float64 | Int64.

Inductive Expr : Type :=
  | Col (name : string)                 (* pl.col(name) *)
  | Lit (v : value)                     (* pl.lit(v) *)
  | Alias (e : Expr) (name : string)    (* e.alias(name) *)
  | Cast (e : Expr) (dt : dtype)        (* e.cast(dt) *)
  | StrToDate (e : Expr)                (* e.str.to_date("%Y-%m-%d") *)
  | StrToDatetime (e : Expr)  (* e.str.to_datetime("%Y-%m-%d %H:%M:%S%z") *)
  | DtDate (e : Expr).                  (* e.dt.date() *)

Class Library : Type := {
  (** [strptime] of one string with the format [%Y-%m-%d]. *)
  strptime_date : string → option Z;
  (** [strptime] of one string with [%Y-%m-%d %H:%M:%S%z], in UTC. *)
  strptime_datetime : string → option Z;
  (** The strict cast of one cell to Float64; [Some None] is null. *)
  cast_float64 : value → option (option float);
  (** The strict cast of one cell to Int64. *)
  cast_int64 : value → option (option Z);
  (** Python's [float(s)] and [int(s)] of a string. *)
  py_float : string → option float;
  py_int : string → option Z
}.

Definition columns (df : Frame) : list string := df.*1.

Definition height (df : Frame) : nat :=
  match df with
  | [] => O
  | (_, cells) :: _ => length cells
  end.

(** [df[name]]. *)
Fixpoint get_column (name : string) (df : Frame) : result (list value) :=
  match df with
  | [] => Raise ColumnNotFoundError
  | (n, cells) :: df' =>
      if bool_decide (n = name) then Ok cells else get_column name df'
  end.

(** [df.rename(mapping)]: every key names a column, and the new names do
    not clash. *)
Definition rename (mapping : gmap string string) (df : Frame)
  : result Frame :=
  if bool_decide (dom mapping ⊆ list_to_set (columns df)) then
    let df' := (λ col, (default col.1 (mapping !! col.1), col.2)) <$> df in
    if bool_decide (NoDup (columns df')) then Ok df'
    else Raise DuplicateError
  else Raise ColumnNotFoundError.

(** The day of a timestamp: 1970-01-01 has ordinal 719163. *)
Definition date_of_datetime (t : Z) : Z := t `div` 86400000000 + 719163.

Section Frames.

Context `{Library}.

Definition eval_cell (op : Expr) (v : value) : result value :=
  match op, v with
  | Cast _ Float64, _ =>
      c ← of_option InvalidOperationError (cast_float64 v);
      Ok (from_option VFloat VNull c)
  | Cast _ Int64, _ =>
      c ← of_option InvalidOperationError (cast_int64 v);
      Ok (from_option VInt VNull c)
  | StrToDate _, VStr s =>
      VDate <$> of_option InvalidOperationError (strptime_date s)
  | StrToDatetime _, VStr s =>
      VDatetime <$> of_option InvalidOperationError (strptime_datetime s)
  | DtDate _, VDatetime t => Ok (VDate (date_of_datetime t))
  | (StrToDate _ | StrToDatetime _ | DtDate _), VNull => Ok VNull
  | _, _ => Raise InvalidOperationError
  end.

(** The column an expression evaluates to on a frame, with its output
    name. A literal is broadcast to the height of the frame. *)
Fixpoint eval (df : Frame) (e : Expr) : result (string * list value) :=
  match e with
  | Col name => cells ← get_column name df; Ok (name, cells)
  | Lit v => Ok ("literal", replicate (height df) v)
  | Alias e name => col ← eval df e; Ok (name, col.2)
  | Cast e' _ | StrToDate e' | StrToDatetime e' | DtDate e' =>
      col ← eval df e';
      cells ← mapM (eval_cell e) col.2;
      Ok (col.1, cells)
  end.

(** A computed column takes the place of the column of its name, or is
    appended. *)
Definition upsert (df : Frame) (col : string * list value) : Frame :=
  if bool_decide (col.1 ∈ columns df)
  then (λ old, if bool_decide (old.1 = col.1) then col else old) <$> df
  else df ++ [col].

(** [df.with_columns(exprs...)]. *)
Definition with_columns (exprs : list Expr) (df : Frame) : result Frame :=
  cols ← mapM (eval df) exprs;
  if bool_decide (NoDup cols.*1) then Ok (foldl upsert df cols)
  else Raise DuplicateError.

(** [df.select(names)]. *)
Definition select (names : list string) (df : Frame) : result Frame :=
  cols ← mapM (λ name, cells ← get_column name df; Ok (name, cells)) names;
  if bool_decide (NoDup names) then Ok cols else Raise DuplicateError.

(** The sort key of a Date cell; nulls sort first. *)
Definition date_key (v : value) : result (option Z) :=
  match v with
  | VNull => Ok None
  | VDate d => Ok (Some d)
  | _ => Raise InvalidOperationError
  end.

Definition key_le (a b : option Z) : Prop :=
  match a, b with
  | None, _ => True
  | Some _, None => False
  | Some x, Some y => x ≤ y
  end.

Global Instance key_le_dec : RelDecision key_le.
Proof. intros [a|] [b|]; simpl; apply _. Defined.

(** Rows are sorted as pairs of a key and a row index. *)
Definition row_le (a b : option Z * nat) : Prop := key_le a.1 b.1.

Global Instance row_le_dec : RelDecision row_le.
Proof. intros a b. unfold row_le. apply _. Defined.

(** [df.sort(by)] for a Date column [by], the one case the normalizers
    have: the rows are put in ascending order of the key. Polars leaves
    the order of rows with equal keys open; the merge sort of the model
    keeps it. *)
Definition sort (by_ : string) (df : Frame) : result Frame :=
  cells ← get_column by_ df;
  keys ← mapM date_key cells;
  let order :=
    (merge_sort row_le (zip keys (seq 0 (length keys)))).*2 in
  Ok ((λ col, (col.1, (λ i, default VNull (col.2 !! i)) <$> order)) <$> df).

End Frames.

(** ** Raw payloads

    A CSV file is the frame [pl.read_csv] reads from it. A JSON file is
    the object [json.load] reads: its members in order, each a text, an
    object of texts, or an object of objects of texts (the shape of
    "Time Series (Daily)"); member names are taken to be distinct. *)

Inductive member : Type :=
  | Text (s : string)
  | Fields (fields : list (string * string))
  | Series (entries : list (string * list (string * string))).

Inductive Payload : Type :=
  | Csv (df : Frame)
  | Json (data : list (string * member)).

Definition read_csv (raw : Payload) : result Frame :=
  match raw with
  | Csv df => Ok df
  | Json _ => Raise InvalidOperationError
  end.

(** [json.load]; a [JSONDecodeError] is a [ValueError]. *)
Definition json_load (raw : Payload) : result (list (string * member)) :=
  match raw with
  | Json data => Ok data
  | Csv _ => Raise ValueError
  end.

(** [d.get(key)] of a dict kept as its items. *)
Fixpoint dict_get {A : Type} (key : string) (d : list (string * A))
  : option A :=
  match d with
  | [] => None
  | (k, v) :: d' => if bool_decide (k = key) then Some v else dict_get key d'
  end.

(** [d[key]]. *)
Definition dict_item {A : Type} (key : string) (d : list (string * A))
  : result A :=
  of_option KeyError (dict_get key d).

(** [not m]: empty texts and empty objects are false. *)
Definition falsy (m : member) : bool :=
  match m with
  | Text "" | Fields [] | Series [] => true
  | _ => false
  end.

(** [":" in s]. *)
Fixpoint has_colon (s : string) : bool :=
  match s with
  | EmptyString => false
  | String c s' => bool_decide (c = ":"%char) || has_colon s'
  end.

(** [":" in str(v)] for a cell [v]: a string as it is, a timestamp
    prints its time of day, the other cells print without a colon. *)
Definition str_has_colon (v : value) : bool :=
  match v with
  | VStr s => has_colon s
  | VDatetime _ => true
  | _ => false
  end.

(** ** [processing/normalizer.py] *)

Definition OUTPUT_COLUMNS : list string := DAILY_OHLCV_COLUMNS ++ ["symbol"].

Section Normalizers.

Context `{Library}.

(** [now_utc] is [datetime.datetime.now(datetime.timezone.utc)]. *)
Variable now_utc : Z.

Definition normalize_yfinance_daily (raw_path : Payload) (symbol : string)
  : result Frame :=
  df ← read_csv raw_path;
  let date_col :=
    if bool_decide ("Date" ∈ columns df) then "Date" else "Datetime" in
  df ← rename (<[date_col := "date"]> (<["Open" := "open"]>
                (<["High" := "high"]> (<["Low" := "low"]>
                (<["Close" := "close"]> {["Volume" := "volume"]}))))) df;
  let adj_close_col :=
    list_find (λ candidate, candidate ∈ columns df)
      ["Adj Close"; "Adj. Close"; "Adjusted Close"] in
  df ← match adj_close_col with
       | Some (_, adj_close_col) =>
           rename {[adj_close_col := "adjusted_close"]} df
       | None => with_columns [Alias (Col "close") "adjusted_close"] df
       end;
  dates ← get_column "date" df;
  date_sample ← of_option IndexError (head dates);
  let date_expr :=
    if str_has_colon date_sample
    then DtDate (StrToDatetime (Col "date"))
    else StrToDate (Col "date") in
  df ← with_columns
         [ Alias date_expr "date";
           Cast (Col "open") Float64;
           Cast (Col "high") Float64;
           Cast (Col "low") Float64;
           Cast (Col "close") Float64;
           Cast (Col "adjusted_close") Float64;
           Cast (Col "volume") Int64;
           Alias (Lit (VStr "yfinance")) "source";
           Alias (Lit (VDatetime now_utc)) "ingested_at" ] df;
  df ← with_columns [Alias (Lit (VStr symbol)) "symbol"] df;
  select OUTPUT_COLUMNS df.

(** One iteration of the loop over [time_series.items()]: the dict that
    is appended to [rows], as the cells of its keys in order. *)
Definition alpha_vantage_row (date_str : string)
    (values : list (string * string)) : result (list value) :=
  open_ ← dict_item "1. open" values;
  open_ ← of_option ValueError (py_float open_);
  high_ ← dict_item "2. high" values;
  high_ ← of_option ValueError (py_float high_);
  low_ ← dict_item "3. low" values;
  low_ ← of_option ValueError (py_float low_);
  close_ ← dict_item "4. close" values;
  close_ ← of_option ValueError (py_float close_);
  volume_ ← dict_item "6. volume" values;
  volume_ ← of_option ValueError (py_int volume_);
  fallback ← dict_item "4. close" values;
  adjusted ←
    of_option ValueError
      (py_float (default fallback (dict_get "5. adjusted close" values)));
  Ok [VStr date_str; VFloat open_; VFloat high_; VFloat low_; VFloat close_;
      VInt volume_; VFloat adjusted].

(** [pl.DataFrame(rows)] for the rows of [alpha_vantage_row]: the keys of
    the dicts become the columns. *)
Definition alpha_vantage_frame (rows : list (list value)) : Frame :=
  imap (λ i name, (name, (λ row, default VNull (row !! i)) <$> rows))
    ["date"; "open"; "high"; "low"; "close"; "volume"; "adjusted_close"].

Definition normalize_alpha_vantage_daily (raw_path : Payload)
    (symbol : string) : result Frame :=
  data ← json_load raw_path;
  let time_series := default (Series []) (dict_get "Time Series (Daily)" data) in
  if falsy time_series then Raise ValueError
  else
    entries ← match time_series with
              | Series entries => Ok entries
              | Fields _ => Raise TypeError       (* values is a str *)
              | Text _ => Raise AttributeError    (* str has no items() *)
              end;
    rows ← mapM (λ entry, alpha_vantage_row entry.1 entry.2) entries;
    let df := alpha_vantage_frame rows in
    df ← with_columns
           [ StrToDate (Col "date");
             Alias (Lit (VStr "alpha_vantage")) "source";
             Alias (Lit (VDatetime now_utc)) "ingested_at";
             Alias (Lit (VStr symbol)) "symbol" ] df;
    df ← sort "date" df;
    select OUTPUT_COLUMNS df.

Definition normalize_stooq_daily (raw_path : Payload) (symbol : string)
  : result Frame :=
  df ← read_csv raw_path;
  df ← rename (<["Date" := "date"]> (<["Open" := "open"]>
                (<["High" := "high"]> (<["Low" := "low"]>
                (<["Close" := "close"]> {["Volume" := "volume"]}))))) df;
  df ← with_columns
         [ StrToDate (Col "date");
           Cast (Col "open") Float64;
           Cast (Col "high") Float64;
           Cast (Col "low") Float64;
           Cast (Col "close") Float64;
           Alias (Cast (Col "close") Float64) "adjusted_close";
           Cast (Col "volume") Int64;
           Alias (Lit (VStr "stooq")) "source";
           Alias (Lit (VDatetime now_utc)) "ingested_at";
           Alias (Lit (VStr symbol)) "symbol" ] df;
  df ← sort "date" df;
  select OUTPUT_COLUMNS df.

(** Map source names to their normalizer functions. *)
Definition NORMALIZERS : gmap string (Payload → string → result Frame) :=
  <["yfinance" := normalize_yfinance_daily]>
    (<["alpha_vantage" := normalize_alpha_vantage_daily]>
       {["stooq" := normalize_stooq_daily]}).

Definition normalize (source : string) (raw_path : Payload)
    (symbol : string) : result Frame :=
  match NORMALIZERS !! source with
  | None => Raise ValueError
  | Some normalizer => normalizer raw_path symbol
  end.

End Normalizers.

(** ** A small implementation of [Library] and the payloads of the tests

    Enough of Polars and Python to run the normalizers on the fixtures:
    dates of the form YYYY-MM-DD, timestamps of the form
    YYYY-MM-DD HH:MM:SS+HH:MM, decimal numbers with a short mantissa. *)

Module Samples.

Definition digit (c : ascii) : option Z := Z.of_nat <$> Ascii.is_nat c.

Fixpoint digits_from (acc : Z) (s : string) : option Z :=
  match s with
  | EmptyString => Some acc
  | String c s' => d ← digit c; digits_from (acc * 10 + d) s'
  end.

Definition parse_digits (s : string) : option Z :=
  if bool_decide (s = "") then None else digits_from 0 s.

Definition strptime_date (s : string) : option Z :=
  if bool_decide (String.length s = 10%nat ∧
                  String.substring 4 1 s = "-" ∧
                  String.substring 7 1 s = "-")
  then
    y ← parse_digits (String.substring 0 4 s);
    m ← parse_digits (String.substring 5 2 s);
    d ← parse_digits (String.substring 8 2 s);
    if bool_decide (1 ≤ y ∧ 1 ≤ m ≤ 12 ∧ 1 ≤ d ≤ days_in_month y m)
    then Some (ymd2ord y m d) else None
  else None.

Definition strptime_datetime (s : string) : option Z :=
  if bool_decide (String.length s = 25%nat ∧
                  String.substring 10 1 s = " " ∧
                  String.substring 13 1 s = ":" ∧
                  String.substring 16 1 s = ":" ∧
                  String.substring 22 1 s = ":")
  then
    day ← strptime_date (String.substring 0 10 s);
    hh ← parse_digits (String.substring 11 2 s);
    mm ← parse_digits (String.substring 14 2 s);
    ss ← parse_digits (String.substring 17 2 s);
    sign ← (if bool_decide (String.substring 19 1 s = "+") then Some 1
            else if bool_decide (String.substring 19 1 s = "-") then Some (-1)
            else None);
    oh ← parse_digits (String.substring 20 2 s);
    om ← parse_digits (String.substring 23 2 s);
    Some (((day - 719163) * 86400 + hh * 3600 + mm * 60 + ss
           - sign * (oh * 3600 + om * 60)) * 1000000)
  else None.

(** An integer below 2^53 in size, as the float that is equal to it. *)
Definition float_of_Z (n : Z) : option float :=
  if bool_decide (Z.abs n < 2 ^ 53) then
    let m := PrimFloat.of_uint63 (Uint63.of_Z (Z.abs n)) in
    Some (if bool_decide (n < 0) then (- m)%float else m)
  else None.

(** The text before and after the first "." of a string. *)
Fixpoint split_point (s : string) : string * option string :=
  match s with
  | EmptyString => (EmptyString, None)
  | String c s' =>
      if bool_decide (c = "."%char) then (EmptyString, Some s')
      else let '(a, b) := split_point s' in (String c a, b)
  end.

(** [float(s)] for an unsigned decimal such as "150.00". *)
Definition py_float (s : string) : option float :=
  let '(whole, frac) := split_point s in
  let frac := default "" frac in
  n ← parse_digits (whole +:+ frac);
  num ← float_of_Z n;
  den ← float_of_Z (10 ^ Z.of_nat (String.length frac));
  Some (num / den)%float.

Definition py_int (s : string) : option Z := parse_digits s.

Definition cast_float64 (v : value) : option (option float) :=
  match v with
  | VNull => Some None
  | VFloat f => Some (Some f)
  | VInt n => Some <$> float_of_Z n
  | VStr s => Some <$> py_float s
  | _ => None
  end.

Definition cast_int64 (v : value) : option (option Z) :=
  match v with
  | VNull => Some None
  | VInt n => Some (Some n)
  | VStr s => Some <$> py_int s
  | _ => None
  end.

Definition library : Library :=
  Build_Library strptime_date strptime_datetime cast_float64 cast_int64
    py_float py_int.

End Samples.

Module PayloadFixtures.

Definition dates : list value :=
  VStr <$> ["2024-01-02"; "2024-01-03"; "2024-01-04"; "2024-01-05";
            "2024-01-08"].
Definition opens : list value := VFloat <$> [150; 151; 149.5; 152; 153]%float.
Definition highs : list value := VFloat <$> [152; 153; 151; 154; 155]%float.
Definition lows : list value := VFloat <$> [149; 150; 148.5; 151; 152]%float.
Definition closes : list value :=
  VFloat <$> [151; 149.5; 150.5; 153.5; 154]%float.
Definition volumes : list value :=
  VInt <$> [1000000; 1100000; 950000; 1200000; 1050000].

Definition sample_yfinance_csv : Payload :=
  Csv [ ("Date", dates); ("Open", opens); ("High", highs); ("Low", lows);
        ("Close", closes); ("Adj Close", closes); ("Volume", volumes) ].

Definition sample_stooq_csv : Payload :=
  Csv [ ("Date", dates); ("Open", opens); ("High", highs); ("Low", lows);
        ("Close", closes); ("Volume", volumes) ].

(** The yfinance sample with its rows in descending order of date and
    without an adjusted close. *)
Definition descending_yfinance_csv : Payload :=
  Csv [ ("Date", reverse dates); ("Open", reverse opens);
        ("High", reverse highs); ("Low", reverse lows);
        ("Close", reverse closes); ("Volume", reverse volumes) ].

(** A history as yfinance writes it: timestamps with an offset. *)
Definition zoned_yfinance_csv : Payload :=
  Csv [ ("Date", VStr <$> ["2024-12-02 00:00:00-05:00";
                           "2024-12-03 00:00:00-05:00"]);
        ("Open", VFloat <$> [150; 151]%float);
        ("High", VFloat <$> [152; 153]%float);
        ("Low", VFloat <$> [149; 150]%float);
        ("Close", VFloat <$> [151; 149.5]%float);
        ("Adj Close", VFloat <$> [150.5; 149]%float);
        ("Volume", VInt <$> [1000000; 1100000]) ].

(** The Alpha Vantage sample, newest day first as the API sends it, the
    older day without an adjusted close. *)
Definition sample_alpha_vantage_json : Payload :=
  Json [ ("Meta Data", Fields [("1. Information", "Daily Prices")]);
         ("Time Series (Daily)",
          Series [ ("2024-01-03",
                    [ ("1. open", "151.00"); ("2. high", "153.00");
                      ("3. low", "150.00"); ("4. close", "149.50");
                      ("5. adjusted close", "149.50");
                      ("6. volume", "1100000") ]);
                   ("2024-01-02",
                    [ ("1. open", "150.00"); ("2. high", "152.00");
                      ("3. low", "149.00"); ("4. close", "151.00");
                      ("6. volume", "1000000") ]) ]) ].

(** A rate-limit answer: no "Time Series (Daily)". *)
Definition note_json : Payload :=
  Json [ ("Note", Text "Thank you for using Alpha Vantage!") ].

End PayloadFixtures.

(** ** What the checks are specified to decide *)

(** [needle in hay] of Python strings. *)
Definition mentions (needle hay : string) : Prop :=
  ∃ pre post, hay = pre +:+ needle +:+ post.

(** A row with a negative open, high, low or close. *)
Definition has_negative_price (r : Row) : Prop :=
  Float64.lt (open r) 0 ∨ Float64.lt (high r) 0 ∨
  Float64.lt (low r) 0 ∨ Float64.lt (close r) 0.

Definition has_inverted_bar (r : Row) : Prop := Float64.lt (high r) (low r).
Definition has_zero_close (r : Row) : Prop := Float64.eq (close r) 0.
Definition has_negative_volume (r : Row) : Prop := volume r < 0.

(** Some row triggers one of the four issue kinds of [price_sanity]. *)
Definition price_issue (df : DataFrame) : Prop :=
  (∃ r, r ∈ df ∧ has_negative_price r) ∨
  (∃ r, r ∈ df ∧ has_inverted_bar r) ∨
  (∃ r, r ∈ df ∧ has_zero_close r) ∨
  (∃ r, r ∈ df ∧ has_negative_volume r).

(** The issue kinds of [price_sanity] in the order they are looked for:
    the rows of a kind and the text of its description. *)
Definition issue_kinds : list ((Row → bool) * string) :=
  [ (negative_prices, " rows with negative prices");
    ((λ r, Float64.lt (high r) (low r)), " rows where high < low");
    ((λ r, Float64.eq (close r) 0), " rows with zero close");
    ((λ r, bool_decide (volume r < 0)), " rows with negative volume") ].

(** The description of every issue kind that some row triggers. *)
Definition triggered_descriptions (df : DataFrame) : list string :=
  omap (λ '(kind, text),
          let n := length (List.filter kind df) in
          if bool_decide (0 < n)%nat then Some (pretty n +:+ text) else None)
       issue_kinds.

(** [m] is the least, respectively greatest, element of [l]. *)
Definition is_minimum (m : Z) (l : list Z) : Prop := m ∈ l ∧ ∀ x, x ∈ l → m ≤ x.
Definition is_maximum (m : Z) (l : list Z) : Prop := m ∈ l ∧ ∀ x, x ∈ l → x ≤ m.

(** The weekdays of [start..end_] that are no date of the row set, in
    ascending order: [expected − actual]. *)
Definition missing_days (df : DataFrame) (start end_ : Z) : list Z :=
  filter (λ d, d ∉ date <$> df) (weekdays_between start end_).

(** The runs of an ascending list of missing dates: a date joins the run of
    its successor when the two are at most 3 calendar days apart. *)
Fixpoint gap_runs (missing : list Z) : list (list Z) :=
  match missing with
  | [] => []
  | d :: rest =>
      match gap_runs rest with
      | (d' :: run) :: runs =>
          if bool_decide (d' - d ≤ 3) then (d :: d' :: run) :: runs
          else [d] :: (d' :: run) :: runs
      | _ => [[d]]
      end
  end.

(** The length of the longest run. *)
Definition longest_run (missing : list Z) : nat :=
  max_list (length <$> gap_runs missing).

(** Neighbours of a run are at most 3 days apart. *)
Definition close_knit (run : list Z) : Prop :=
  ∀ i a b, run !! i = Some a → run !! S i = Some b → b - a ≤ 3.

(** A run ends where the next date is more than 3 days away. *)
Fixpoint separated (runs : list (list Z)) : Prop :=
  match runs with
  | run :: ((d :: _) :: _) as runs' =>
      (∀ a, last run = Some a → 3 < d - a) ∧ separated runs'
  | _ => True
  end.

(** A date with a next day: every date but [date.max]. *)
Definition has_next_day (d : Z) : Prop := MINORDINAL ≤ d < MAXORDINAL.

(** ** What a call of the partition writer leaves behind *)

(** The files one call writes, in writing order: a path and a content for
    each partition group. *)
Definition group_writes (df : DataFrame) (processed_dir dataset : string)
  : list (string * Partitioner.ParquetFile) :=
  (λ g, (Partitioner.out_path processed_dir dataset g.1,
         Partitioner.mkParquetFile Partitioner._PARQUET_COLUMNS
           (Partitioner.select_parquet <$> g.2))) <$>
    Partitioner.group_by df.

(** Putting files at their paths one after the other. *)
Definition put_files (fs : gmap string Partitioner.ParquetFile)
    (writes : list (string * Partitioner.ParquetFile))
  : gmap string Partitioner.ParquetFile :=
  foldl (λ fs w, <[w.1 := w.2]> fs) fs writes.

(** The partition keys of a row set, each once. *)
Definition partition_keys (df : DataFrame) : list (string * string * Z) :=
  (Partitioner.group_by df).*1.

(** The rows of one partition group, in the order of the row set. *)
Definition group_rows (df : DataFrame) (key : string * string * Z)
  : DataFrame :=
  filter (λ r, Partitioner.partition_key r = key) df.

(** ** What the normalizers are specified to return *)

Definition SUPPORTED_SOURCES : list string :=
  ["yfinance"; "alpha_vantage"; "stooq"].

(** The dates of a frame ascend. *)
Definition ascending_by_date (df : Frame) : Prop :=
  ∃ cells keys,
    get_column "date" df = Ok cells ∧
    mapM date_key cells = Ok keys ∧
    Sorted key_le keys.

(** Row by row, the adjusted close is the close. *)
Definition adjusted_close_is_close (df : Frame) : Prop :=
  ∃ cells,
    get_column "close" df = Ok cells ∧
    get_column "adjusted_close" df = Ok cells.

(** The payload carries no adjusted close of its own: a stooq payload
    never does, a yfinance payload when it has none of the three adjusted
    columns, an alpha_vantage payload when no day has the member
    "5. adjusted close". *)
Definition no_adjusted_close (source : string) (raw : Payload) : Prop :=
  source = "stooq" ∨
  (source = "yfinance" ∧
   ∃ df, raw = Csv df ∧
     ∀ c, c ∈ ["Adj Close"; "Adj. Close"; "Adjusted Close"] → c ∉ columns df) ∨
  (source = "alpha_vantage" ∧
   ∃ data entries,
     raw = Json data ∧
     dict_get "Time Series (Daily)" data = Some (Series entries) ∧
     Forall (λ entry, dict_get "5. adjusted close" entry.2 = None) entries).

Section SpecNormalizer.

Context `{Library}.

(** The date a yfinance cell is parsed to: through a timestamp when the
    sample cell shows a time of day, directly otherwise. *)
Definition yfinance_date (zoned : bool) (v : value) : result value :=
  if zoned then
    t ← eval_cell (StrToDatetime (Col "date")) v;
    eval_cell (DtDate (StrToDatetime (Col "date"))) t
  else eval_cell (StrToDate (Col "date")) v.

(** The rows come back in the order of the payload: the i-th date
    returned is the i-th date of the payload, parsed. *)
Definition in_payload_order (raw : Payload) (df : Frame) : Prop :=
  ∃ payload date_col cells dates,
    raw = Csv payload ∧
    date_col = (if bool_decide ("Date" ∈ columns payload)
                then "Date" else "Datetime") ∧
    get_column date_col payload = Ok cells ∧
    get_column "date" df = Ok dates ∧
    Forall2 (λ cell d,
               yfinance_date (from_option str_has_colon false (head cells))
                 cell = Ok d)
            cells dates.

End SpecNormalizer.

(** ** What the other checks decide *)

(** A bar whose open, high, low and close are one value. *)
Definition is_flat_bar (r : Row) : Prop :=
  Float64.eq (open r) (high r) ∧ Float64.eq (high r) (low r) ∧
  Float64.eq (low r) (close r).

(** A bar without volume whose close is more than [0.01] of the open away
    from the open. *)
Definition moves_without_volume (r : Row) : Prop :=
  volume r = 0 ∧
  Float64.gt (PrimFloat.abs (close r - open r) / open r)%float
             0x1.47ae147ae147bp-7%float.

(** The number of issue kinds of [price_sanity] that some row triggers. *)
Definition kinds_triggered (df : DataFrame) : nat :=
  length (List.filter (λ k : (Row → bool) * string, existsb k.1 df)
                      issue_kinds).

(** The worse of two statuses, FAIL before WARN before PASS. *)
Definition worse (a b : CheckStatus) : CheckStatus :=
  match a, b with
  | FAIL, _ | _, FAIL => FAIL
  | WARN, _ | _, WARN => WARN
  | PASS, PASS => PASS
  end.

(** The names of the checks in the order [ALL_CHECKS] lists them. *)
Definition CHECK_NAMES : list string :=
  ["trading_day_gaps"; "price_sanity"; "stale_data"; "ohlc_consistency"].

(** ** What the pairwise comparison counts *)

(** The dates of a frame as the set [set(df["date"].to_list())]. *)
Definition date_set (df : DataFrame) : gset Z := list_to_set (date <$> df).

(** A joined row in which the open, the high, the low or the close of
    the two sources are further apart than the tolerance, in percent of
    the first source's value. *)
Definition row_exceeds (tolerance : float) (p : Row * Row) : bool :=
  Float64.gt (CrossValidate.pct_diff (open p.1) (open p.2)) tolerance ||
  Float64.gt (CrossValidate.pct_diff (high p.1) (high p.2)) tolerance ||
  Float64.gt (CrossValidate.pct_diff (low p.1) (low p.2)) tolerance ||
  Float64.gt (CrossValidate.pct_diff (close p.1) (close p.2)) tolerance.

(** ** The canonical schema ([processing/schemas.py]) *)

Inductive PolarsType : Type :=
  | PlDate | PlFloat64 | PlInt64 | PlUtf8 | PlDatetime.

(** Canonical column names and types for daily OHLCV data. *)
Definition DAILY_OHLCV_SCHEMA : list (string * PolarsType) :=
  [ ("date", PlDate);
    ("open", PlFloat64);
    ("high", PlFloat64);
    ("low", PlFloat64);
    ("close", PlFloat64);
    ("adjusted_close", PlFloat64);
    ("volume", PlInt64);
    ("source", PlUtf8);
    ("ingested_at", PlDatetime) ].

Global Instance PolarsType_eq_dec : EqDecision PolarsType.
Proof. solve_decision. Defined.

(** A cell fits a type when it is null or a value of the type. *)
Definition has_type (ty : PolarsType) (v : value) : Prop :=
  match v, ty with
  | VNull, _ => True
  | VDate _, PlDate => True
  | VFloat _, PlFloat64 => True
  | VInt _, PlInt64 => True
  | VStr _, PlUtf8 => True
  | VDatetime _, PlDatetime => True
  | _, _ => False
  end.

(** The type of a literal. *)
Definition value_type (v : value) : option PolarsType :=
  match v with
  | VNull => None
  | VStr _ => Some PlUtf8
  | VInt _ => Some PlInt64
  | VFloat _ => Some PlFloat64
  | VDate _ => Some PlDate
  | VDatetime _ => Some PlDatetime
  end.

(** The type an expression gives its column, where the expression alone
    decides it. *)
Fixpoint expr_type (e : Expr) : option PolarsType :=
  match e with
  | Col _ => None
  | Lit v => value_type v
  | Alias e' _ => expr_type e'
  | Cast _ Float64 => Some PlFloat64
  | Cast _ Int64 => Some PlInt64
  | StrToDate _ | DtDate _ => Some PlDate
  | StrToDatetime _ => Some PlDatetime
  end.

(** The output name of an expression. *)
Fixpoint expr_name (e : Expr) : string :=
  match e with
  | Col name => name
  | Lit _ => "literal"
  | Alias _ name => name
  | Cast e' _ | StrToDate e' | StrToDatetime e' | DtDate e' => expr_name e'
  end.

(** All columns of a frame have its height. *)
Definition rectangular (df : Frame) : Prop :=
  Forall (λ col : string * list value, length col.2 = height df) df.

(** The cells of a column read in the order of row indices [order]. *)
Definition reordered (order : list nat) (cells : list value) : list value :=
  (λ i, default VNull (cells !! i)) <$> order.

(** The expressions of the [with_columns] calls of the normalizers. *)
Definition stooq_exprs (now_utc : Z) (symbol : string) : list Expr :=
  [ StrToDate (Col "date");
    Cast (Col "open") Float64;
    Cast (Col "high") Float64;
    Cast (Col "low") Float64;
    Cast (Col "close") Float64;
    Alias (Cast (Col "close") Float64) "adjusted_close";
    Cast (Col "volume") Int64;
    Alias (Lit (VStr "stooq")) "source";
    Alias (Lit (VDatetime now_utc)) "ingested_at";
    Alias (Lit (VStr symbol)) "symbol" ].

Definition alpha_vantage_exprs (now_utc : Z) (symbol : string) : list Expr :=
  [ StrToDate (Col "date");
    Alias (Lit (VStr "alpha_vantage")) "source";
    Alias (Lit (VDatetime now_utc)) "ingested_at";
    Alias (Lit (VStr symbol)) "symbol" ].

Definition yfinance_exprs (now_utc : Z) (zoned : bool) : list Expr :=
  [ Alias (if zoned then DtDate (StrToDatetime (Col "date"))
           else StrToDate (Col "date")) "date";
    Cast (Col "open") Float64;
    Cast (Col "high") Float64;
    Cast (Col "low") Float64;
    Cast (Col "close") Float64;
    Cast (Col "adjusted_close") Float64;
    Cast (Col "volume") Int64;
    Alias (Lit (VStr "yfinance")) "source";
    Alias (Lit (VDatetime now_utc)) "ingested_at" ].

(** Some expression of [exprs] gives a column of the name [name] the
    type [ty]. *)
Definition gives_type (exprs : list Expr) (name : string) (ty : PolarsType)
  : Prop :=
  Exists (λ e, expr_name e = name ∧ expr_type e = Some ty) exprs.

(** The columns the normalizers return, with their types. *)
Definition OUTPUT_SCHEMA : list (string * PolarsType) :=
  DAILY_OHLCV_SCHEMA ++ [("symbol", PlUtf8)].

(** ** [cli/validate.py]: the summary row of [validate_report] *)

Module Validate.

(** [STATUS_STYLES]. *)
Definition STATUS_STYLES (s : CheckStatus) : string :=
  match s with
  | PASS => "green"
  | WARN => "yellow"
  | FAIL => "red"
  end.

(** [status.value.upper()]. *)
Definition status_label (s : CheckStatus) : string :=
  match s with
  | PASS => "PASS"
  | WARN => "WARN"
  | FAIL => "FAIL"
  end.

(** [sum(1 for r in report.results if r.status == CheckStatus.PASS)]. *)
Definition passed (report : CheckReport) : nat :=
  length (filter (λ r, status r = PASS) (results report)).

(** [len(report.results)]. *)
Definition total (report : CheckReport) : nat := length (results report).

(** [[r.check_name for r in report.results if r.status != CheckStatus.PASS]]. *)
Definition issues (report : CheckReport) : list string :=
  check_name <$> filter (λ r, status r ≠ PASS) (results report).

(** The cells [summary_table.add_row] gets for a report. *)
Definition summary_row (symbol : string) (report : CheckReport)
  : list string :=
  let style := STATUS_STYLES (overall_status report) in
  [ symbol;
    "[" +:+ style +:+ "]" +:+ status_label (overall_status report) +:+
      "[/" +:+ style +:+ "]";
    pretty (passed report) +:+ "/" +:+ pretty (total report);
    if bool_decide (issues report = []) then "-"
    else String.concat ", " (issues report) ].

End Validate.

(** ** [cli/crossvalidate.py]: the pairs [crossvalidate_compare] compares

    The query of a source is a function of its name: the symbol and the
    date filter are the same for all sources of one call. What the command
    prints for a pair is returned. *)

Module Compare.

(** [itertools.combinations(l, 2)]. *)
Fixpoint combinations2 {A : Type} (l : list A) : list (A * A) :=
  match l with
  | [] => []
  | x :: l' => ((λ y, (x, y)) <$> l') ++ combinations2 l'
  end.

Inductive Output : Type :=
  | Skipped (src_a src_b : string)
  | Compared (src_a src_b : string) (c : CrossValidate.Comparison).

(** The loop that fills [dfs]. *)
Definition fetch_all (query : string → DataFrame) (source_list : list string)
  : gmap string DataFrame :=
  foldl (λ dfs source, <[source := query source]> dfs) ∅ source_list.

(** [crossvalidate_compare] from [source_list] on; [None] is
    [typer.Exit(1)]. *)
Definition crossvalidate_compare (query : string → DataFrame)
    (source_list : list string) (tolerance : float) : option (list Output) :=
  if bool_decide (length source_list < 2)%nat then None
  else
    let dfs := fetch_all query source_list in
    Some ((λ '(src_a, src_b),
             let df_a := default [] (dfs !! src_a) in
             let df_b := default [] (dfs !! src_b) in
             if bool_decide (df_a = []) || bool_decide (df_b = [])
             then Skipped src_a src_b
             else Compared src_a src_b
                    (CrossValidate._print_pairwise_comparison
                       src_a df_a src_b df_b tolerance))
            <$> combinations2 source_list).

End Compare.

(** ** [ingestors/registry.py]

    The registry is the module's dict [_REGISTRY], passed along. A class
    is known by what it is: one of the three built-in ingestors, or any
    other class under its name. [get_ingestor] ends in a call
    [cls(argument)]; the model returns the class and the argument of that
    call, what the constructor does with it is the class's own. Whether the
    lazy imports of [_load_builtins] succeed is an input. *)

Module Registry.

Inductive IngestorClass : Type :=
  | YFinanceIngestor
  | AlphaVantageIngestor
  | StooqIngestor
  | OtherClass (name : string).

(** The argument of the constructor call: a section of the settings, or
    the settings as a whole. *)
Inductive Argument : Type :=
  | settings_alpha_vantage
  | settings_yfinance
  | settings_stooq
  | settings.

Inductive error : Type :=
  | IngestorError (msg : string)
  | ImportError (module : string).

Inductive outcome (A : Type) : Type :=
  | Returned (a : A)
  | Raised (e : error).

Arguments Returned {A} a.
Arguments Raised {A} e.

(** Which of the ingestor modules can be imported. *)
Record Imports : Type := mkImports {
  imports_yfinance : bool;
  imports_alpha_vantage : bool;
  imports_stooq : bool
}.

Abbreviation registry := (gmap string IngestorClass).

(** The order of Python strings, by code point. *)
Definition string_le (a b : string) : Prop := String.leb a b.

Global Instance string_le_dec : RelDecision string_le.
Proof. intros a b. unfold string_le. apply _. Defined.

(** [sorted(_REGISTRY.keys())]. *)
Definition sorted_keys (reg : registry) : list string :=
  merge_sort string_le (map_to_list reg).*1.

Definition register (key : string) (cls : IngestorClass) (reg : registry)
  : registry :=
  <[key := cls]> reg.

(** [_load_builtins()]: the registry it leaves, and the ImportError that
    ended it, if one did; the ImportError of the Alpha Vantage module is
    caught. *)
Definition _load_builtins (imports : Imports) (reg : registry)
  : registry * option error :=
  if imports_yfinance imports then
    let reg := register "yf" YFinanceIngestor reg in
    let reg :=
      if imports_alpha_vantage imports
      then register "av" AlphaVantageIngestor reg else reg in
    if imports_stooq imports then
      (register "stooq" StooqIngestor reg, None)
    else (reg, Some (ImportError "CXq_data.ingestors.stooq"))
  else (reg, Some (ImportError "CXq_data.ingestors.yfinance")).

(** The lazy registration on first call: [if not _REGISTRY]. *)
Definition ensure_loaded (imports : Imports) (reg : registry)
  : registry * option error :=
  if bool_decide (reg = ∅) then _load_builtins imports reg else (reg, None).

Definition get_ingestor (imports : Imports) (key : string) (reg : registry)
  : registry * outcome (IngestorClass * Argument) :=
  let '(reg, failed) := ensure_loaded imports reg in
  match failed with
  | Some e => (reg, Raised e)
  | None =>
      match reg !! key with
      | None =>
          let available := String.concat ", " (sorted_keys reg) in
          (reg, Raised (IngestorError
                          ("Unknown source '" +:+ key +:+
                           "'. Available sources: " +:+ available)))
      | Some cls =>
          let argument :=
            if bool_decide (key = "av") then settings_alpha_vantage
            else if bool_decide (key = "yf") then settings_yfinance
            else if bool_decide (key = "stooq") then settings_stooq
            else settings in
          (reg, Returned (cls, argument))
      end
  end.

Definition available_sources (imports : Imports) (reg : registry)
  : registry * outcome (list string) :=
  let '(reg, failed) := ensure_loaded imports reg in
  match failed with
  | Some e => (reg, Raised e)
  | None => (reg, Returned (sorted_keys reg))
  end.

(** All modules can be imported. *)
Definition all_imports : Imports := mkImports true true true.

(** The registry after [_load_builtins] with all modules at hand. *)
Definition builtins : registry :=
  register "stooq" StooqIngestor
    (register "av" AlphaVantageIngestor (register "yf" YFinanceIngestor ∅)).

End Registry.

(** ** [utils/rate_limiter.py]

    The clock is an input: [monotonic k] is what the call number [k] of
    [time.monotonic()] returns, and [sleep d] tells whether
    [time.sleep(d)] returns or raises. A limiter is passed along with the
    number of clock readings made so far. *)

Module RateLimiter.

(** [RateLimit] of [ingestors/base.py]. *)
Record RateLimit : Type := mkRateLimit {
  calls_per_minute : Z;
  calls_per_day : option Z          (* None means unlimited *)
}.

Inductive error : Type :=
  | ZeroDivisionError
  | OverflowError
  | RuntimeError (msg : string)
  | Failure (what : string).        (* any other exception *)

Inductive outcome (A : Type) : Type :=
  | Returned (a : A)
  | Raised (e : error).

Arguments Returned {A} a.
Arguments Raised {A} e.

Record Clock : Type := mkClock {
  monotonic : nat → float;
  sleep : float → option error
}.

Record t : Type := mkRateLimiter {
  _interval : float;
  _daily_limit : option Z;
  _daily_count : Z;
  _last_call : float
}.

(** The float nearest to an int, ties to even; [None] when the int is
    too large to convert to float (OverflowError). *)
Definition float_of_int (n : Z) : option float :=
  match binary_normalize prec emax n 0 false with
  | S754_infinity _ => None
  | sf => Some (SF2Prim sf)
  end.

(** [RateLimiter(limit)]. *)
Definition init (limit : RateLimit) : outcome t :=
  match float_of_int (calls_per_minute limit) with
  | None => Raised OverflowError
  | Some per_minute =>
      if PrimFloat.eqb per_minute 0 then Raised ZeroDivisionError
      else Returned (mkRateLimiter (60 / per_minute) (calls_per_day limit) 0 0)
  end.

Definition limit_message (limit : Z) : string :=
  "Daily rate limit reached (" +:+ pretty limit +:+ " calls/day)".

(** The daily limit is set and reached. *)
Definition exhausted (rl : t) : option Z :=
  match _daily_limit rl with
  | Some limit =>
      if bool_decide (limit ≤ _daily_count rl) then Some limit else None
  | None => None
  end.

(** [wait()]. *)
Definition wait (clock : Clock) (rl : t) (ticks : nat)
  : t * nat * outcome unit :=
  match exhausted rl with
  | Some limit => (rl, ticks, Raised (RuntimeError (limit_message limit)))
  | None =>
      let now := monotonic clock ticks in
      let elapsed := (now - _last_call rl)%float in
      let slept :=
        if PrimFloat.ltb elapsed (_interval rl)
        then sleep clock (_interval rl - elapsed)%float
        else None in
      match slept with
      | Some e => (rl, S ticks, Raised e)
      | None =>
          (mkRateLimiter (_interval rl) (_daily_limit rl)
             (_daily_count rl + 1) (monotonic clock (S ticks)),
           S (S ticks), Returned tt)
      end
  end.

(** [reset_daily()]. *)
Definition reset_daily (rl : t) : t :=
  mkRateLimiter (_interval rl) (_daily_limit rl) 0 (_last_call rl).

End RateLimiter.

(** ** [cli/ingest.py]: the loop of [ingest_daily]

    What a fetch does is an input: its outcome for a symbol, given the
    symbols fetched before. The state keeps the symbols [fetch_daily] was
    called with and the lines printed. *)

Module Ingest.

Import RateLimiter.

(** What the loop prints of a [FetchResult]. *)
Record FetchResult : Type := mkFetchResult {
  raw_path : string;
  rows_received : Z;
  fetch_source : string
}.

Inductive Line : Type :=
  | Fetched (sym : string) (result : FetchResult)
  | Failed (sym : string) (e : error).

Record State : Type := mkState {
  limiter : RateLimiter.t;
  ticks : nat;
  calls : list string;
  lines : list Line
}.

(** One round of [for sym in symbol_list]. *)
Definition ingest_step (clock : Clock)
    (fetch_daily : list string → string → outcome FetchResult)
    (st : State) (sym : string) : State :=
  match wait clock (limiter st) (ticks st) with
  | (rl, ticks', Raised e) =>
      mkState rl ticks' (calls st) (lines st ++ [Failed sym e])
  | (rl, ticks', Returned _) =>
      match fetch_daily (calls st) sym with
      | Returned result =>
          mkState rl ticks' (calls st ++ [sym])
            (lines st ++ [Fetched sym result])
      | Raised e =>
          mkState rl ticks' (calls st ++ [sym]) (lines st ++ [Failed sym e])
      end
  end.

(** [ingest_daily] from [limiter = RateLimiter(ingestor.rate_limit)] on. *)
Definition ingest_daily (clock : Clock)
    (fetch_daily : list string → string → outcome FetchResult)
    (rate_limit : RateLimit) (symbol_list : list string) : outcome State :=
  match init rate_limit with
  | Raised e => Raised e
  | Returned rl =>
      Returned (foldl (ingest_step clock fetch_daily) (mkState rl 0 [] [])
                  symbol_list)
  end.

End Ingest.

(** ** Payload cells the normalizers can take *)

Section Cells.

Context `{Library}.

(** A cell that parses as a date: null, or a text in [%Y-%m-%d]. *)
Definition date_text (v : value) : Prop :=
  v = VNull ∨ ∃ s, v = VStr s ∧ is_Some (strptime_date s).

(** A cell the strict cast to Float64, to Int64, accepts. *)
Definition float_cell (v : value) : Prop := is_Some (cast_float64 v).
Definition int_cell (v : value) : Prop := is_Some (cast_int64 v).

End Cells.

(** A CSV with the header of Stooq: Date,Open,High,Low,Close,Volume. *)
Definition stooq_payload (dates opens highs lows closes volumes : list value)
  : Payload :=
  Csv [ ("Date", dates); ("Open", opens); ("High", highs); ("Low", lows);
        ("Close", closes); ("Volume", volumes) ].

(** The frame the first renaming of the Stooq normalizer makes of it. *)
Definition stooq_renamed (dates opens highs lows closes volumes : list value)
  : Frame :=
  [ ("date", dates); ("open", opens); ("high", highs); ("low", lows);
    ("close", closes); ("volume", volumes) ].

Section Days.

Context `{Library}.

(** A field of a day of "Time Series (Daily)" that is there and that
    [float()], respectively [int()], accepts. *)
Definition float_field (key : string) (values : list (string * string))
  : Prop :=
  ∃ s, dict_get key values = Some s ∧ is_Some (py_float s).



End Days.
(** * Theorems *)

(** ** The trading calendar *)

Section DatesFacts.

Lemma weekday_range d : 0 ≤ weekday d < 7.
Proof. unfold weekday. apply Z.mod_pos_bound. lia. Qed.

Lemma weekday_pred d : weekday (d - 1) = (weekday d + 6) `mod` 7.
Proof.
  unfold weekday. rewrite Zplus_mod_idemp_l.
  replace (d + 6 + 6) with (d - 1 + 6 + 1 * 7) by lia.
  by rewrite Z_mod_plus_full.
Qed.

Lemma date_add_ok d n :
  MINORDINAL ≤ d + n ≤ MAXORDINAL → date_add d n = Ok (d + n).
Proof. intros H. unfold date_add. by rewrite bool_decide_eq_true_2. Qed.

Lemma date_add_overflow d n :
  ¬ (MINORDINAL ≤ d + n ≤ MAXORDINAL) → date_add d n = Raise OverflowError.
Proof. intros H. unfold date_add. by rewrite bool_decide_eq_false_2. Qed.

Lemma seqZ_head m n : 0 < n → seqZ m n = m :: seqZ (m + 1) (n - 1).
Proof.
  intros Hn. replace n with (Z.succ (n - 1)) at 1 by lia.
  rewrite seqZ_cons by lia. f_equal. f_equal; lia.
Qed.

Lemma weekdays_between_step s e :
  s ≤ e →
  weekdays_between s e =
    (if bool_decide (weekday s < 5) then [s] else []) ++
    weekdays_between (s + 1) e.
Proof.
  intros Hse. unfold weekdays_between.
  rewrite (seqZ_head s) by lia.
  replace (e - (s + 1) + 1) with (e - s + 1 - 1) by lia.
  rewrite filter_cons. case_bool_decide; case_decide; done.
Qed.

Lemma weekdays_between_empty s e : e < s → weekdays_between s e = [].
Proof. intros H. unfold weekdays_between. by rewrite seqZ_nil by lia. Qed.

Lemma trading_days_loop_ok fuel : ∀ current end_ days,
  (Z.to_nat (end_ - current + 1) ≤ fuel)%nat →
  MINORDINAL ≤ current + 1 →
  end_ < MAXORDINAL →
  trading_days_loop fuel current end_ days =
    Ok (days ++ weekdays_between current end_).
Proof.
  induction fuel as [|fuel IH]; intros current end_ days Hfuel Hmin Hmax;
    simpl; case_bool_decide as Hle.
  - lia.
  - by rewrite weekdays_between_empty, app_nil_r by lia.
  - rewrite date_add_ok by (unfold MINORDINAL in *; lia). simpl.
    rewrite IH by (unfold MINORDINAL in *; lia).
    rewrite (weekdays_between_step current end_) by done.
    case_bool_decide; simpl; by rewrite <- ?app_assoc.
  - by rewrite weekdays_between_empty, app_nil_r by lia.
Qed.

(** Below [date.max] the calendar walk returns the weekdays of the
    range. *)
Lemma trading_days_between_ok start end_ :
  MINORDINAL ≤ start → end_ < MAXORDINAL →
  trading_days_between start end_ = Ok (weekdays_between start end_).
Proof.
  intros Hs He. unfold trading_days_between.
  rewrite trading_days_loop_ok; [done | lia | lia | done].
Qed.

(** From a later start the loop body never runs. *)
Lemma trading_days_between_after start end_ :
  end_ < start → trading_days_between start end_ = Ok [].
Proof.
  intros H. unfold trading_days_between.
  replace (Z.to_nat (end_ - start + 1)) with O by lia. simpl.
  by rewrite bool_decide_eq_false_2 by lia.
Qed.

Lemma trading_days_loop_overflow fuel : ∀ current end_ days,
  (Z.to_nat (MAXORDINAL - current + 1) ≤ fuel)%nat →
  MINORDINAL ≤ current + 1 → current ≤ MAXORDINAL → MAXORDINAL ≤ end_ →
  trading_days_loop fuel current end_ days = Raise OverflowError.
Proof.
  induction fuel as [|fuel IH]; intros current end_ days Hfuel Hmin Hcur Hend;
    simpl; rewrite bool_decide_eq_true_2 by lia.
  - lia.
  - destruct (decide (current = MAXORDINAL)) as [->|Hne].
    + by rewrite date_add_overflow by (unfold MAXORDINAL; lia).
    + rewrite date_add_ok by (unfold MINORDINAL in *; lia). simpl.
      apply IH; unfold MINORDINAL in *; lia.
Qed.

(** At or beyond [date.max] the walk steps past the last date and
    [timedelta] addition raises. *)
Lemma trading_days_between_overflow start end_ :
  MINORDINAL ≤ start → start ≤ end_ → MAXORDINAL ≤ end_ →
  trading_days_between start end_ = Raise OverflowError.
Proof.
  intros Hs Hse He. unfold trading_days_between.
  destruct (decide (start ≤ MAXORDINAL)).
  - apply trading_days_loop_overflow; unfold MINORDINAL in *; lia.
  - destruct (Z.to_nat (end_ - start + 1)) eqn:E; [lia|]. simpl.
    rewrite bool_decide_eq_true_2 by lia.
    by rewrite date_add_overflow by lia.
Qed.

Lemma elem_of_weekdays_between d s e :
  d ∈ weekdays_between s e ↔ s ≤ d ≤ e ∧ weekday d < 5.
Proof.
  unfold weekdays_between. rewrite list_elem_of_filter, elem_of_seqZ.
  intuition lia.
Qed.

Lemma last_trading_day_loop_spec fuel : ∀ d,
  MINORDINAL ≤ d ≤ MAXORDINAL → (2 ≤ fuel)%nat ∨ (Z.to_nat (weekday d - 4) ≤ fuel)%nat →
  ∃ r, last_trading_day_loop fuel d = Ok r ∧ most_recent_weekday d r ∧
       MINORDINAL ≤ r.
Proof.
  induction fuel as [|fuel IH]; intros d Hd Hfuel;
    pose proof (weekday_range d) as Hw; simpl; case_bool_decide as H5.
  - lia.
  - exists d. unfold most_recent_weekday. repeat split; try lia.
  - assert (d ≠ 1) as Hd1.
    { intros ->. vm_compute in H5. by apply H5. }
    rewrite date_add_ok by (unfold MINORDINAL, MAXORDINAL in *; lia). simpl.
    replace (d + -1) with (d - 1) by lia.
    destruct (IH (d - 1)) as (r & -> & (Hr1 & Hr2 & Hr3) & Hr4).
    + unfold MINORDINAL, MAXORDINAL in *; lia.
    + right. rewrite weekday_pred.
      assert (weekday d = 5 ∨ weekday d = 6) as [Hwd|Hwd] by lia;
        rewrite Hwd in *.
      * replace ((5 + 6) `mod` 7) with 4 by done. lia.
      * replace ((6 + 6) `mod` 7) with 5 by done. lia.
    + exists r. repeat split; try lia.
      intros x Hx. destruct (decide (x = d)) as [->|]; [lia|].
      apply Hr3. lia.
  - exists d. unfold most_recent_weekday. repeat split; try lia.
Qed.

(** [last_trading_day] returns the most recent weekday on or before the
    reference date; it never steps below [date.min], a Monday. *)
Lemma last_trading_day_spec today ref_date :
  valid_date (default today ref_date) →
  ∃ r, last_trading_day today ref_date = Ok r ∧
       most_recent_weekday (default today ref_date) r ∧ MINORDINAL ≤ r.
Proof.
  intros Hv. unfold last_trading_day.
  apply last_trading_day_loop_spec; [done | left; lia].
Qed.

Lemma most_recent_weekday_unique d r1 r2 :
  most_recent_weekday d r1 → most_recent_weekday d r2 → r1 = r2.
Proof.
  intros (H1 & H2 & H3) (H1' & H2' & H3').
  destruct (Z.lt_trichotomy r1 r2) as [Hlt|[->|Hgt]]; [|done|].
  - specialize (H3 r2). lia.
  - specialize (H3' r1). lia.
Qed.

End DatesFacts.

Example ymd_2024_01_02 :
  ymd2ord 2024 1 2 = 738887 ∧ weekday (ymd2ord 2024 1 2) = 1.
Proof. vm_compute. done. Qed.

Example isoformat_examples :
  isoformat 738887 = "2024-01-02" ∧ isoformat MAXORDINAL = "9999-12-31" ∧
  isoformat (ymd2ord 2024 2 29) = "2024-02-29" ∧
  isoformat (ymd2ord 2023 12 31) = "2023-12-31" ∧
  isoformat MINORDINAL = "0001-01-01".
Proof. vm_compute. done. Qed.

Example trading_days_between_example :
  trading_days_between (ymd2ord 2024 1 2) (ymd2ord 2024 1 8) =
    Ok [738887; 738888; 738889; 738890; 738893].
Proof. vm_compute. done. Qed.


(** ** The report and the price check *)

Section ValidationFacts.

Lemma string_app_assoc (s1 s2 s3 : string) :
  (s1 +:+ s2) +:+ s3 = s1 +:+ (s2 +:+ s3).
Proof.
  induction s1 as [|c s1 IH]; [done|].
  change (String c ((s1 +:+ s2) +:+ s3) = String c (s1 +:+ (s2 +:+ s3))).
  by rewrite IH.
Qed.

Lemma mentions_app_l needle s t : mentions needle s → mentions needle (s +:+ t).
Proof.
  intros (pre & post & ->). exists pre, (post +:+ t).
  by rewrite !string_app_assoc.
Qed.

Lemma mentions_app_r needle s t : mentions needle t → mentions needle (s +:+ t).
Proof.
  intros (pre & post & ->). exists (s +:+ pre), post.
  by rewrite !string_app_assoc.
Qed.

Lemma mentions_concat needle sep (l : list string) x :
  x ∈ l → mentions needle x → mentions needle (String.concat sep l).
Proof.
  intros Hin Hx. induction l as [|y l IH]; [by apply elem_of_nil in Hin|].
  apply elem_of_cons in Hin as [<-|Hin].
  - destruct l as [|z l]; [done|]. by apply mentions_app_l.
  - destruct l as [|z l]; [by apply elem_of_nil in Hin|].
    change (mentions needle (y +:+ sep +:+ String.concat sep (z :: l))).
    by apply mentions_app_r, mentions_app_r, IH.
Qed.

Lemma filter_nonempty (P : Row → bool) (df : DataFrame) :
  (0 < length (List.filter P df))%nat ↔ ∃ r, r ∈ df ∧ P r.
Proof.
  split.
  - destruct (List.filter P df) as [|r l] eqn:E; simpl; [lia|]. intros _.
    assert (In r (List.filter P df)) as Hin by (rewrite E; by left).
    apply filter_In in Hin as [Hin HP]. exists r.
    rewrite list_elem_of_In. by rewrite HP.
  - intros (r & Hin & HP). apply list_elem_of_In in Hin.
    assert (In r (List.filter P df)) as Hin'.
    { apply filter_In. split; [done|]. by apply Is_true_eq_true. }
    destruct (List.filter P df); [done | simpl; lia].
Qed.

Lemma negative_prices_spec r : negative_prices r ↔ has_negative_price r.
Proof.
  unfold negative_prices, has_negative_price.
  rewrite !orb_True. tauto.
Qed.

Lemma report_issue_spec issues rows text :
  report_issue issues rows text =
    issues ++ (if bool_decide (0 < length rows)%nat
               then [pretty (length rows) +:+ text] else []).
Proof.
  unfold report_issue. case_bool_decide; [done|]. by rewrite app_nil_r.
Qed.

(** The issue list that [check_price_sanity] accumulates. *)
Lemma price_issues_accumulated df :
  report_issue
    (report_issue
       (report_issue
          (report_issue [] (List.filter negative_prices df)
             " rows with negative prices")
          (List.filter (λ r, Float64.lt (high r) (low r)) df)
          " rows where high < low")
       (List.filter (λ r, Float64.eq (close r) 0) df)
       " rows with zero close")
    (List.filter (λ r, bool_decide (volume r < 0)) df)
    " rows with negative volume" =
  triggered_descriptions df.
Proof.
  unfold triggered_descriptions, issue_kinds.
  rewrite !report_issue_spec. simpl.
  repeat case_bool_decide; reflexivity.
Qed.

Lemma check_price_sanity_issues df symbol :
  check_price_sanity df symbol =
    let issues := triggered_descriptions df in
    if bool_decide (issues = []) then
      Ok (mkCheckResult "price_sanity" PASS "All price sanity checks passed"
            None)
    else
      Ok (mkCheckResult "price_sanity" FAIL (String.concat "; " issues)
            (Some [("issue_count", DInt (Z.of_nat (length issues)))])).
Proof.
  unfold check_price_sanity. cbv zeta.
  by rewrite price_issues_accumulated.
Qed.

Lemma price_issue_counts df :
  price_issue df ↔
    (0 < length (List.filter negative_prices df))%nat ∨
    (0 < length (List.filter (λ r, Float64.lt (high r) (low r)) df))%nat ∨
    (0 < length (List.filter (λ r, Float64.eq (close r) 0) df))%nat ∨
    (0 < length (List.filter (λ r, bool_decide (volume r < 0)%Z) df))%nat.
Proof.
  unfold price_issue, has_inverted_bar, has_zero_close, has_negative_volume.
  setoid_rewrite <- negative_prices_spec.
  rewrite !filter_nonempty. by setoid_rewrite bool_decide_spec.
Qed.

Lemma triggered_descriptions_nil df :
  (triggered_descriptions df = [] → ¬ price_issue df) ∧
  (triggered_descriptions df ≠ [] → price_issue df).
Proof.
  rewrite price_issue_counts.
  unfold triggered_descriptions, issue_kinds. simpl.
  repeat case_bool_decide; simpl; split; intros Hx; try done; try lia;
    tauto.
Qed.

Lemma triggered_description_elem df (kind : Row → bool) text :
  (kind, text) ∈ issue_kinds →
  (∃ r, r ∈ df ∧ kind r) →
  ∃ n : nat, pretty n +:+ text ∈ triggered_descriptions df.
Proof.
  intros Hk Hr. apply filter_nonempty in Hr.
  exists (length (List.filter kind df)).
  unfold triggered_descriptions. apply list_elem_of_omap.
  exists (kind, text). split; [done|]. simpl.
  by rewrite bool_decide_eq_true_2.
Qed.

End ValidationFacts.

(** C3. [overall_status] is FAIL exactly when some result is FAIL, WARN
    exactly when none is FAIL and some is WARN, and PASS exactly when none
    is FAIL or WARN; so a report holding a FAIL and a WARN is FAIL, and a
    report of PASS results only is PASS. *)
Theorem overall_status_precedence (report : CheckReport) :
  let has s := ∃ r, r ∈ results report ∧ status r = s in
  (overall_status report = FAIL ↔ has FAIL) ∧
  (overall_status report = WARN ↔ ¬ has FAIL ∧ has WARN) ∧
  (overall_status report = PASS ↔ ¬ has FAIL ∧ ¬ has WARN) ∧
  (has FAIL ∧ has WARN → overall_status report = FAIL) ∧
  (Forall (λ r, status r = PASS) (results report) →
   overall_status report = PASS).
Proof.
  intros has.
  assert (∀ s, s ∈ status <$> results report ↔ has s) as Hmem.
  { intros s. unfold has. rewrite list_elem_of_fmap.
    split; [intros (r & -> & Hr) | intros (r & Hr & <-)]; eauto. }
  unfold overall_status.
  assert (Forall (λ r, status r = PASS) (results report) →
          ¬ has FAIL ∧ ¬ has WARN) as Hall.
  { rewrite Forall_forall. intros Hp. unfold has.
    split; intros (r & Hr & Hs); apply Hp in Hr; congruence. }
  repeat case_bool_decide; rewrite ?Hmem in *;
    intuition (eauto; congruence).
Qed.

(** C10. On the empty row set the gap check returns FAIL with the message
    "No data for <symbol>", the convention [stale_data] follows too. *)
Theorem check_trading_day_gaps_empty (today : Z) (symbol : string) :
  check_trading_day_gaps [] symbol =
    Ok (mkCheckResult "trading_day_gaps" FAIL ("No data for " +:+ symbol) None) ∧
  (∃ r, check_stale_data today [] symbol = Ok r ∧ status r = FAIL ∧
        message r = "No data for " +:+ symbol).
Proof. split; [reflexivity|]. eexists. by split. Qed.

(** C1. [price_sanity] returns FAIL exactly when some row has a negative
    open, high, low or close, or high < low, or a zero close, or a negative
    volume, and PASS otherwise; a FAIL message joins the descriptions of
    all triggered issue kinds, so it mentions "negative" when a price is
    negative and "high < low" when a bar is inverted. *)
Theorem check_price_sanity_spec (df : DataFrame) (symbol : string) :
  ∃ r, check_price_sanity df symbol = Ok r ∧
    (status r = FAIL ↔ price_issue df) ∧
    (status r = PASS ↔ ¬ price_issue df) ∧
    (price_issue df →
       message r = String.concat "; " (triggered_descriptions df)) ∧
    ((∃ x, x ∈ df ∧ has_negative_price x) → mentions "negative" (message r)) ∧
    ((∃ x, x ∈ df ∧ has_inverted_bar x) → mentions "high < low" (message r)).
Proof.
  rewrite check_price_sanity_issues. simpl.
  destruct (triggered_descriptions_nil df) as [Hnil Hcons].
  case_bool_decide as Hiss; eexists; (split; [reflexivity|]); simpl.
  - apply Hnil in Hiss as Hno. repeat split; try done; try tauto.
    + intros [x Hx]. exfalso. apply Hno. left. by exists x.
    + intros [x Hx]. exfalso. apply Hno. right. left. by exists x.
  - apply Hcons in Hiss as Hyes.
    repeat split; try done; try tauto.
    + intros Hx. setoid_rewrite <- negative_prices_spec in Hx.
      eapply triggered_description_elem in Hx as [n Hn];
        [|apply list_elem_of_here].
      eapply mentions_concat; [exact Hn|].
      exists (pretty n +:+ " rows with "), " prices".
      by rewrite !string_app_assoc.
    + intros Hx.
      eapply (triggered_description_elem df (λ r, Float64.lt (high r) (low r)))
        in Hx as [n Hn]; [|apply list_elem_of_further, list_elem_of_here].
      eapply mentions_concat; [exact Hn|].
      exists (pretty n +:+ " rows where "), "".
      by rewrite !string_app_assoc.
Qed.

(** ** The gap check *)

Section GapFacts.

Lemma gap_runs_cons d rest :
  ∃ run runs, gap_runs (d :: rest) = (d :: run) :: runs.
Proof.
  simpl. destruct (gap_runs rest) as [|[|d' run] runs]; [by eexists _, _..|].
  case_bool_decide; by eexists _, _.
Qed.

Lemma gap_runs_concat missing : concat (gap_runs missing) = missing.
Proof.
  induction missing as [|d rest IH]; [done|]. simpl.
  destruct (gap_runs_cons d rest) as (run & runs & E).
  destruct rest as [|d' rest]; [done|].
  destruct (gap_runs_cons d' rest) as (run' & runs' & E').
  rewrite E' in *. case_bool_decide; simpl in *; by rewrite IH.
Qed.

Lemma gap_runs_nonempty missing : Forall (λ run, run ≠ []) (gap_runs missing).
Proof.
  induction missing as [|d rest IH]; [constructor|]. simpl.
  destruct (gap_runs rest) as [|[|d' run] runs]; [by repeat constructor..|].
  case_bool_decide; [|by constructor].
  inversion IH; subst. by constructor.
Qed.

Lemma close_knit_cons d d' run :
  d' - d ≤ 3 → close_knit (d' :: run) → close_knit (d :: d' :: run).
Proof.
  intros Hd Hk [|i] a b Ha Hb; simpl in *.
  - by simplify_eq.
  - by eapply Hk.
Qed.

Lemma gap_runs_close_knit missing : Forall close_knit (gap_runs missing).
Proof.
  induction missing as [|d rest IH]; [constructor|]. simpl.
  assert (close_knit [d]) as Hone by (by intros [|i] a b Ha Hb).
  destruct (gap_runs rest) as [|[|d' run] runs]; [by repeat constructor..|].
  inversion IH; subst.
  case_bool_decide; constructor; auto using close_knit_cons.
Qed.

Lemma gap_runs_separated missing : separated (gap_runs missing).
Proof.
  induction missing as [|d rest IH]; [done|]. simpl.
  destruct (gap_runs rest) as [|[|d' run] runs] eqn:E; [done..|].
  case_bool_decide as Hd.
  - destruct runs as [|[|d'' run'] runs]; [done..|].
    simpl in *. destruct IH as [IH1 IH2]. split; [|done].
    intros a Ha. apply IH1. exact Ha.
  - split; [|done]. intros a Ha. simpl in Ha. simplify_eq. lia.
Qed.

(** The loop keeps in [current_gap] the length of the run that [prev]
    ends and in [max_gap] the longest run seen. *)
Lemma gap_loop_runs rest : ∀ prev max_gap current_gap run runs,
  (1 ≤ current_gap ≤ max_gap)%nat →
  gap_runs (prev :: rest) = run :: runs →
  gap_loop prev rest max_gap current_gap =
    (max_gap `max` ((current_gap - 1 + length run) `max`
                    max_list (length <$> runs)))%nat.
Proof.
  induction rest as [|d rest IH]; intros prev mg cg run runs Hcg Hruns.
  - simpl in *. simplify_eq. simpl. lia.
  - destruct (gap_runs_cons d rest) as (run' & runs' & E).
    change (gap_runs (prev :: d :: rest)) with
      (match gap_runs (d :: rest) with
       | (d' :: run) :: runs =>
           if bool_decide (d' - prev ≤ 3) then (prev :: d' :: run) :: runs
           else [prev] :: (d' :: run) :: runs
       | _ => [[prev]]
       end) in Hruns.
    rewrite E in Hruns. simpl gap_loop.
    case_bool_decide; simplify_eq.
    + rewrite (IH d (mg `max` S cg)%nat (S cg) _ _ ltac:(lia) E).
      rewrite !length_cons. lia.
    + rewrite (IH d mg 1%nat _ _ ltac:(lia) E).
      rewrite !fmap_cons. cbn [max_list length]. unfold id. lia.
Qed.

(** The loop of the check finds the longest run. *)
Lemma longest_gap_longest_run missing :
  missing ≠ [] → longest_gap missing = longest_run missing.
Proof.
  destruct missing as [|d rest]; [done|]. intros _.
  destruct (gap_runs_cons d rest) as (run & runs & E).
  unfold longest_gap, longest_run.
  rewrite (gap_loop_runs rest d 1 1 _ _ ltac:(lia) E), E.
  rewrite fmap_cons. cbn [max_list length]. unfold id. lia.
Qed.

End GapFacts.

Section MissingDays.

Lemma series_min_spec l :
  l ≠ [] → ∃ m, series_min l = Some m ∧ is_minimum m l.
Proof.
  destruct l as [|x l]; [done|]. intros _. eexists. split; [done|].
  induction l as [|y l [IH1 IH2]]; simpl.
  - split; [apply list_elem_of_here|]. intros z ->%list_elem_of_singleton. lia.
  - split.
    + destruct (Z.min_spec y (foldr Z.min x l)) as [[_ ->]|[_ ->]].
      * apply list_elem_of_further, list_elem_of_here.
      * apply elem_of_cons in IH1 as [->|?]; [apply list_elem_of_here|].
        by do 2 apply list_elem_of_further.
    + intros z Hz. rewrite !elem_of_cons in Hz.
      destruct Hz as [Hz|[Hz|Hz]].
      * specialize (IH2 x (list_elem_of_here _ _)). lia.
      * lia.
      * specialize (IH2 z (list_elem_of_further _ _ _ Hz)). lia.
Qed.

Lemma series_max_spec l :
  l ≠ [] → ∃ m, series_max l = Some m ∧ is_maximum m l.
Proof.
  destruct l as [|x l]; [done|]. intros _. eexists. split; [done|].
  induction l as [|y l [IH1 IH2]]; simpl.
  - split; [apply list_elem_of_here|]. intros z ->%list_elem_of_singleton. lia.
  - split.
    + destruct (Z.max_spec y (foldr Z.max x l)) as [[_ ->]|[_ ->]].
      * apply elem_of_cons in IH1 as [->|?]; [apply list_elem_of_here|].
        by do 2 apply list_elem_of_further.
      * apply list_elem_of_further, list_elem_of_here.
    + intros z Hz. rewrite !elem_of_cons in Hz.
      destruct Hz as [Hz|[Hz|Hz]].
      * specialize (IH2 x (list_elem_of_here _ _)). lia.
      * lia.
      * specialize (IH2 z (list_elem_of_further _ _ _ Hz)). lia.
Qed.

Lemma is_minimum_unique m1 m2 l1 l2 :
  (∀ x, x ∈ l1 ↔ x ∈ l2) → is_minimum m1 l1 → is_minimum m2 l2 → m1 = m2.
Proof.
  intros Heq [Hin1 Hle1] [Hin2 Hle2].
  apply Heq in Hin1 as Hin1'. apply Heq in Hin2 as Hin2'.
  specialize (Hle1 _ Hin2'). specialize (Hle2 _ Hin1'). lia.
Qed.

Lemma is_maximum_unique m1 m2 l1 l2 :
  (∀ x, x ∈ l1 ↔ x ∈ l2) → is_maximum m1 l1 → is_maximum m2 l2 → m1 = m2.
Proof.
  intros Heq [Hin1 Hle1] [Hin2 Hle2].
  apply Heq in Hin1 as Hin1'. apply Heq in Hin2 as Hin2'.
  specialize (Hle1 _ Hin2'). specialize (Hle2 _ Hin1'). lia.
Qed.

Lemma elem_of_merge_sort (l : list Z) x : x ∈ merge_sort Z.le l ↔ x ∈ l.
Proof. by rewrite merge_sort_Permutation. Qed.

Lemma seqZ_strictly_sorted m n : StronglySorted Z.lt (seqZ m n).
Proof.
  remember (Z.to_nat n) as k eqn:Hk. revert m n Hk.
  induction k as [|k IH]; intros m n Hk.
  - rewrite seqZ_nil by lia. constructor.
  - rewrite seqZ_head by lia. constructor; [apply IH; lia|].
    apply Forall_seqZ. lia.
Qed.

Lemma strictly_sorted_filter (P : Z → Prop) `{∀ x, Decision (P x)} l :
  StronglySorted Z.lt l → StronglySorted Z.lt (filter P l).
Proof.
  induction 1 as [|x l Hl IH Hx]; [constructor|].
  rewrite filter_cons. case_decide; [|done].
  constructor; [done|]. rewrite Forall_forall in Hx |- *.
  intros y [_ Hy]%list_elem_of_filter. by apply Hx.
Qed.

Lemma strictly_sorted_le l : StronglySorted Z.lt l → Sorted Z.le l.
Proof.
  intros Hl. apply StronglySorted_Sorted.
  induction Hl as [|x l Hl IH Hx]; constructor; [done|].
  eapply Forall_impl; [exact Hx|]. simpl. lia.
Qed.

Lemma strictly_sorted_NoDup l : StronglySorted Z.lt l → NoDup l.
Proof.
  induction 1 as [|x l Hl IH Hx]; constructor; [|done].
  intros Hin. rewrite Forall_forall in Hx. specialize (Hx _ Hin). lia.
Qed.

Lemma weekdays_between_sorted s e : StronglySorted Z.lt (weekdays_between s e).
Proof. apply strictly_sorted_filter, seqZ_strictly_sorted. Qed.

(** [sorted(expected - actual)] lists the expected days that are not
    actual ones, in the order of an ascending [expected]. *)
Lemma sorted_difference (days dates dates' : list Z) :
  StronglySorted Z.lt days →
  (∀ x, x ∈ dates ↔ x ∈ dates') →
  sorted (list_to_set days ∖ list_to_set dates) =
    filter (λ d, d ∉ dates') days.
Proof.
  intros Hs Heq. unfold sorted. apply (Sorted_unique Z.le).
  - apply Sorted_merge_sort. intros x y. lia.
  - by apply strictly_sorted_le, strictly_sorted_filter.
  - rewrite merge_sort_Permutation. apply NoDup_Permutation.
    + apply NoDup_elements.
    + by apply NoDup_filter, strictly_sorted_NoDup.
    + intros x. rewrite elem_of_elements, elem_of_difference,
        !elem_of_list_to_set, list_elem_of_filter, Heq. tauto.
Qed.

End MissingDays.

Section GapCheck.

(** The result of the gap check on a non-empty row set. *)
Lemma check_trading_day_gaps_eq df symbol start end_ :
  df ≠ [] →
  Forall (λ r, has_next_day (date r)) df →
  is_minimum start (date <$> df) →
  is_maximum end_ (date <$> df) →
  check_trading_day_gaps df symbol =
    let missing := missing_days df start end_ in
    let actual : gset Z := list_to_set (merge_sort Z.le (date <$> df)) in
    if bool_decide (missing = []) then
      Ok (mkCheckResult "trading_day_gaps" PASS
            ("No gaps found (" +:+ pretty (size actual) +:+ " trading days)")
            None)
    else
      Ok (mkCheckResult "trading_day_gaps"
            (if bool_decide (3 < longest_run missing)%nat then FAIL else WARN)
            (pretty (length missing) +:+
             " missing trading day(s), longest gap: " +:+
             pretty (longest_run missing))
            (Some [("missing_dates",
                    DStrings (isoformat <$> take 20 missing))])).
Proof.
  intros Hne Hrange Hmin Hmax.
  unfold check_trading_day_gaps.
  rewrite bool_decide_eq_false_2 by done.
  assert (merge_sort Z.le (date <$> df) ≠ []) as Hne'.
  { intros E. pose proof (merge_sort_Permutation Z.le (date <$> df)) as HP.
    rewrite E in HP. apply Permutation_nil_l in HP.
    by destruct df. }
  destruct (series_min_spec _ Hne') as (start' & -> & Hmin').
  destruct (series_max_spec _ Hne') as (end' & -> & Hmax').
  assert (start' = start) as ->
    by (eapply is_minimum_unique; [apply elem_of_merge_sort|done..]).
  assert (end' = end_) as ->
    by (eapply is_maximum_unique; [apply elem_of_merge_sort|done..]).
  assert (∀ d, d ∈ date <$> df → has_next_day d) as Hdates.
  { intros d (r & -> & Hr)%list_elem_of_fmap.
    rewrite Forall_forall in Hrange. by apply Hrange. }
  destruct (Hdates start (proj1 Hmin)) as [Hstart _].
  destruct (Hdates end_ (proj1 Hmax)) as [_ Hend].
  simpl. rewrite trading_days_between_ok by done. simpl.
  rewrite (sorted_difference _ _ (date <$> df))
    by (apply weekdays_between_sorted || apply elem_of_merge_sort).
  fold (missing_days df start end_).
  case_bool_decide as Hmiss; [done|].
  by rewrite longest_gap_longest_run.
Qed.

End GapCheck.

(** The gap check where the calendar walk stays inside the range of
    [datetime.date]. For a non-empty row set whose dates all have a next
    day, the gap check takes the weekdays between the least and the
    greatest date present, keeps those that are no date of the row set,
    and returns PASS when none is left; otherwise the missing dates fall
    into runs of neighbours at most 3 calendar days apart, the status is
    FAIL when the longest run has more than 3 dates and WARN otherwise,
    and the details carry the first 20 missing dates at most. *)
Theorem check_trading_day_gaps_spec (df : DataFrame) (symbol : string)
    (start end_ : Z) :
  df ≠ [] →
  Forall (λ r, has_next_day (date r)) df →
  is_minimum start (date <$> df) →
  is_maximum end_ (date <$> df) →
  let missing := missing_days df start end_ in
  ∃ r, check_trading_day_gaps df symbol = Ok r ∧
       check_name r = "trading_day_gaps" ∧
       (missing = [] → status r = PASS) ∧
       (missing ≠ [] →
          concat (gap_runs missing) = missing ∧
          Forall close_knit (gap_runs missing) ∧
          separated (gap_runs missing) ∧
          status r =
            (if bool_decide (3 < longest_run missing)%nat then FAIL else WARN) ∧
          message r =
            pretty (length missing) +:+
            " missing trading day(s), longest gap: " +:+
            pretty (longest_run missing) ∧
          ∃ shown, details r = Some [("missing_dates", DStrings shown)] ∧
                   shown = isoformat <$> take 20 missing ∧
                   (length shown ≤ 20)%nat).
Proof.
  intros Hne Hrange Hmin Hmax missing.
  rewrite (check_trading_day_gaps_eq df symbol start end_) by done.
  cbv zeta. fold missing.
  case_bool_decide as Hmiss; eexists; (split; [reflexivity|]); simpl.
  - split; [done|]. split; [done|]. by intros ?.
  - split; [done|]. split; [by intros ?|]. intros _.
    split; [apply gap_runs_concat|].
    split; [apply gap_runs_close_knit|].
    split; [apply gap_runs_separated|].
    repeat split. eexists. repeat split.
    rewrite length_fmap, length_take. lia.
Qed.

Lemma check_trading_day_gaps_spec_witness :
  let df := Fixtures.gap_df in
  let start := ymd2ord 2024 1 2 in
  let end_ := ymd2ord 2024 1 8 in
  df ≠ [] ∧ Forall (λ r, has_next_day (date r)) df ∧
  is_minimum start (date <$> df) ∧ is_maximum end_ (date <$> df) ∧
  missing_days df start end_ = [738888; 738889; 738890] ∧
  ∃ r, check_trading_day_gaps df "AAPL" = Ok r ∧ status r = WARN ∧
       details r =
         Some [("missing_dates",
                DStrings ["2024-01-03"; "2024-01-04"; "2024-01-05"])].
Proof.
  intros df start end_.
  assert (df ≠ []) as H1 by done.
  assert (Forall (λ r, has_next_day (date r)) df) as H2
    by (repeat constructor; vm_compute; congruence).
  assert (is_minimum start (date <$> df)) as H3.
  { split; [by left|]. intros x Hx.
    repeat (apply elem_of_cons in Hx as [->|Hx]); [vm_compute; congruence..|].
    by apply elem_of_nil in Hx. }
  assert (is_maximum end_ (date <$> df)) as H4.
  { split; [right; by left|]. intros x Hx.
    repeat (apply elem_of_cons in Hx as [->|Hx]); [vm_compute; congruence..|].
    by apply elem_of_nil in Hx. }
  assert (missing_days df start end_ = [738888; 738889; 738890]) as H5
    by (by vm_compute).
  repeat (split; [assumption|]).
  destruct (check_trading_day_gaps_spec df "AAPL" start end_ H1 H2 H3 H4)
    as (r & Hr & _ & _ & Hmissing).
  exists r. split; [exact Hr|].
  destruct Hmissing as (_ & _ & _ & Hs & _ & shown & Hd & -> & _).
  { by rewrite H5. }
  rewrite Hs, Hd, H5. vm_compute. split; reflexivity.
Defined.

(** C2, at [date.max]. [trading_days_between] is documented to return the
    weekdays between start and end, both included, but its loop adds one
    day to the current date before it tests the end of the range. For the
    row set whose only date is 9999-12-31, a Friday, the least and the
    greatest date are that day, the one weekday between them is present
    and nothing is missing, so the gap check ought to return PASS; the
    walk raises OverflowError instead and no result is returned. *)
Lemma check_trading_day_gaps_date_max :
  let df := Fixtures.date_max_df in
  df ≠ [] ∧
  is_minimum MAXORDINAL (date <$> df) ∧ is_maximum MAXORDINAL (date <$> df) ∧
  missing_days df MAXORDINAL MAXORDINAL = [] ∧
  check_trading_day_gaps df "AAPL" = Raise OverflowError ∧
  ¬ ∃ r, check_trading_day_gaps df "AAPL" = Ok r ∧ status r = PASS.
Proof.
  assert (check_trading_day_gaps Fixtures.date_max_df "AAPL" =
          Raise OverflowError) as E by (by vm_compute).
  repeat split; try done.
  - by left.
  - by intros x ->%list_elem_of_singleton.
  - by left.
  - by intros x ->%list_elem_of_singleton.
  - intros (r & Hr & _). congruence.
Qed.

(** The gap examples: a continuous weekday series passes; with two days
    removed it warns; a gap of six weekdays fails. Removing 2024-01-03
    through 2024-01-08 from the sample leaves the single date 2024-01-02,
    between whose least and greatest date no weekday is missing. *)
Example check_trading_day_gaps_examples :
  status <$> of_result (check_trading_day_gaps Fixtures.sample_ohlcv_df "AAPL")
    = Some PASS ∧
  status <$> of_result (check_trading_day_gaps Fixtures.two_missing_df "AAPL")
    = Some WARN ∧
  status <$> of_result (check_trading_day_gaps Fixtures.long_gap_df "AAPL")
    = Some FAIL ∧
  status <$> of_result
    (check_trading_day_gaps (take 1 Fixtures.sample_ohlcv_df) "AAPL")
    = Some PASS.
Proof. by vm_compute. Qed.

(** ** The staleness check and the runner *)

Section StaleFacts.

(** The result of the staleness check on a non-empty row set. *)
Lemma check_stale_data_eq today df symbol reference max_date :
  has_next_day today →
  Forall (λ r, valid_date (date r)) df →
  last_trading_day today None = Ok reference →
  is_maximum max_date (date <$> df) →
  check_stale_data today df symbol =
    let days_behind :=
      Z.of_nat (length (weekdays_between max_date reference)) - 1 in
    let latest := isoformat max_date in
    let behind :=
      "Data is " +:+ pretty days_behind +:+
      " trading day(s) behind (latest: " +:+ latest +:+ ")" in
    let '(status, msg) :=
      if bool_decide (days_behind ≤ 1)
      then (PASS, "Data is current (latest: " +:+ latest +:+ ")")
      else if bool_decide (days_behind ≤ 5) then (WARN, behind)
      else (FAIL, behind) in
    Ok (mkCheckResult "stale_data" status msg
          (Some [("latest_date", DString latest);
                 ("days_behind", DInt days_behind)])).
Proof.
  intros [Ht1 Ht2] Hvalid Href Hmax.
  destruct (last_trading_day_spec today None) as (ref & Href' & Hmr & Hlo).
  { unfold valid_date. simpl. lia. }
  assert (ref = reference) as -> by congruence. clear Href'. simpl in Hmr.
  assert (df ≠ []) as Hne.
  { intros ->. destruct Hmax as [Hin _]. by apply elem_of_nil in Hin. }
  unfold check_stale_data. rewrite bool_decide_eq_false_2 by done.
  assert (date <$> df ≠ []) as Hne' by (by destruct df).
  destruct (series_max_spec _ Hne') as (m & -> & Hm).
  assert (m = max_date) as -> by (by eapply is_maximum_unique).
  simpl. rewrite Href. simpl.
  assert (valid_date max_date) as [Hlow _].
  { destruct Hmax as [(r & -> & Hr)%list_elem_of_fmap _].
    rewrite Forall_forall in Hvalid. by apply Hvalid. }
  destruct Hmr as [Hle _].
  rewrite trading_days_between_ok by (done || lia).
  reflexivity.
Qed.

End StaleFacts.

(** C4. With a clock that shows a date before [date.max], the staleness
    check takes as reference the most recent weekday on or before today,
    counts the weekdays from the greatest date present to the reference
    (both included), subtracts 1, and returns PASS when the difference is
    at most 1, WARN when it is at most 5 and FAIL otherwise; on the empty
    row set it returns FAIL with the message "No data for <symbol>". *)
Theorem check_stale_data_spec (today : Z) (df : DataFrame) (symbol : string) :
  has_next_day today →
  Forall (λ r, valid_date (date r)) df →
  ∃ reference, most_recent_weekday today reference ∧
    (df = [] →
       check_stale_data today df symbol =
         Ok (mkCheckResult "stale_data" FAIL ("No data for " +:+ symbol) None)) ∧
    (∀ max_date, is_maximum max_date (date <$> df) →
       let days_behind :=
         Z.of_nat (length (weekdays_between max_date reference)) - 1 in
       ∃ r, check_stale_data today df symbol = Ok r ∧
            check_name r = "stale_data" ∧
            status r =
              (if bool_decide (days_behind ≤ 1) then PASS
               else if bool_decide (days_behind ≤ 5) then WARN
               else FAIL) ∧
            details r =
              Some [("latest_date", DString (isoformat max_date));
                    ("days_behind", DInt days_behind)]).
Proof.
  intros Htoday Hvalid.
  destruct (last_trading_day_spec today None) as (ref & Href & Hmr & Hlo).
  { destruct Htoday. unfold valid_date. simpl. lia. }
  simpl in Hmr. exists ref. split; [done|]. split.
  - by intros ->.
  - intros max_date Hmax days_behind.
    rewrite (check_stale_data_eq today df symbol ref max_date) by done.
    cbv zeta. fold days_behind.
    destruct (bool_decide (days_behind ≤ 1));
      [|destruct (bool_decide (days_behind ≤ 5))];
      (eexists; split; [reflexivity|done]).
Qed.

Lemma check_stale_data_spec_witness :
  let today := ymd2ord 2024 1 20 in
  let df := Fixtures.sample_ohlcv_df in
  has_next_day today ∧ Forall (λ r, valid_date (date r)) df ∧
  most_recent_weekday today (ymd2ord 2024 1 19) ∧
  is_maximum (ymd2ord 2024 1 8) (date <$> df) ∧
  ∃ r, check_stale_data today df "AAPL" = Ok r ∧ status r = FAIL ∧
       details r = Some [("latest_date", DString "2024-01-08");
                         ("days_behind", DInt 9)].
Proof.
  intros today df.
  assert (has_next_day today) as H1 by (vm_compute; split; congruence).
  assert (Forall (λ r, valid_date (date r)) df) as H2
    by (repeat constructor; vm_compute; congruence).
  assert (most_recent_weekday today (ymd2ord 2024 1 19)) as H3.
  { split; [vm_compute; congruence|]. split; [by vm_compute|].
    intros x Hx. unfold today in Hx.
    change (ymd2ord 2024 1 19) with 738904 in Hx.
    change (ymd2ord 2024 1 20) with 738905 in Hx.
    assert (x = 738905) as -> by lia. vm_compute. congruence. }
  assert (is_maximum (ymd2ord 2024 1 8) (date <$> df)) as H4.
  { split; [do 4 right; by left|]. intros x Hx.
    repeat (apply elem_of_cons in Hx as [->|Hx]); [vm_compute; congruence..|].
    by apply elem_of_nil in Hx. }
  repeat (split; [assumption|]).
  destruct (check_stale_data_spec today df "AAPL" H1 H2)
    as (ref & Href & _ & Hr).
  assert (ref = ymd2ord 2024 1 19) as ->
    by (eapply most_recent_weekday_unique; eassumption).
  destruct (Hr _ H4) as (r & Er & _ & Hs & Hd).
  exists r. split; [exact Er|]. rewrite Hs, Hd. vm_compute. split; reflexivity.
Defined.

Section Totality.

Lemma check_price_sanity_total df symbol :
  is_ok (check_price_sanity df symbol).
Proof.
  unfold check_price_sanity. cbv zeta. case_bool_decide; by eexists.
Qed.

Lemma check_ohlc_consistency_total df symbol :
  is_ok (check_ohlc_consistency df symbol).
Proof.
  unfold check_ohlc_consistency. cbv zeta. case_bool_decide; by eexists.
Qed.

Lemma check_trading_day_gaps_total df symbol :
  Forall (λ r, has_next_day (date r)) df →
  is_ok (check_trading_day_gaps df symbol).
Proof.
  intros Hrange. destruct (decide (df = [])) as [->|Hne]; [by eexists|].
  assert (date <$> df ≠ []) as Hne' by (by destruct df).
  destruct (series_min_spec _ Hne') as (start & _ & Hmin).
  destruct (series_max_spec _ Hne') as (end_ & _ & Hmax).
  rewrite (check_trading_day_gaps_eq df symbol start end_) by done.
  cbv zeta. case_bool_decide; by eexists.
Qed.

Lemma check_stale_data_total today df symbol :
  has_next_day today →
  Forall (λ r, valid_date (date r)) df →
  is_ok (check_stale_data today df symbol).
Proof.
  intros Htoday Hvalid.
  destruct (decide (df = [])) as [->|Hne]; [by eexists|].
  assert (date <$> df ≠ []) as Hne' by (by destruct df).
  destruct (series_max_spec _ Hne') as (max_date & _ & Hmax).
  destruct (last_trading_day_spec today None) as (ref & Href & _).
  { destruct Htoday. unfold valid_date. simpl. lia. }
  rewrite (check_stale_data_eq today df symbol ref max_date) by done.
  cbv zeta. repeat case_bool_decide; by eexists.
Qed.

(** A greatest date of [date.max] makes the gap check raise. *)
Lemma check_trading_day_gaps_overflow df symbol :
  Forall (λ r, valid_date (date r)) df →
  is_maximum MAXORDINAL (date <$> df) →
  check_trading_day_gaps df symbol = Raise OverflowError.
Proof.
  intros Hvalid Hmax.
  assert (df ≠ []) as Hne.
  { intros ->. destruct Hmax as [Hin _]. by apply elem_of_nil in Hin. }
  unfold check_trading_day_gaps.
  rewrite bool_decide_eq_false_2 by done.
  assert (merge_sort Z.le (date <$> df) ≠ []) as Hne'.
  { intros E. pose proof (merge_sort_Permutation Z.le (date <$> df)) as HP.
    rewrite E in HP. apply Permutation_nil_l in HP.
    by destruct df. }
  destruct (series_min_spec _ Hne') as (start & -> & Hmin).
  destruct (series_max_spec _ Hne') as (end_ & -> & Hmax').
  assert (end_ = MAXORDINAL) as ->
    by (eapply is_maximum_unique; [apply elem_of_merge_sort|done..]).
  assert (valid_date start) as [Hs1 Hs2].
  { destruct Hmin as [Hin _]. rewrite elem_of_merge_sort in Hin.
    apply list_elem_of_fmap in Hin as (r & -> & Hr).
    rewrite Forall_forall in Hvalid. by apply Hvalid. }
  simpl. by rewrite trading_days_between_overflow.
Qed.

(** The runner has no handler: what the first check raises, it raises. *)
Lemma run_all_checks_raises now_utc today df symbol e :
  check_trading_day_gaps df symbol = Raise e →
  run_all_checks now_utc today df symbol = Raise e.
Proof.
  intros E. unfold run_all_checks, ALL_CHECKS. simpl. by rewrite E.
Qed.

End Totality.

(** C9, on rows of the canonical schema. When today and every date of
    the row set lie before [date.max], each of the four checks returns a
    [CheckResult] and the runner returns a report of four results;
    [price_sanity] and [ohlc_consistency] return on every row set. *)
Theorem checks_return (now_utc today : Z) (df : DataFrame) (symbol : string) :
  has_next_day today →
  Forall (λ r, has_next_day (date r)) df →
  is_ok (check_trading_day_gaps df symbol) ∧
  is_ok (check_price_sanity df symbol) ∧
  is_ok (check_stale_data today df symbol) ∧
  is_ok (check_ohlc_consistency df symbol) ∧
  (∀ df', is_ok (check_price_sanity df' symbol) ∧
          is_ok (check_ohlc_consistency df' symbol)) ∧
  ∃ report, run_all_checks now_utc today df symbol = Ok report ∧
            length (results report) = 4%nat.
Proof.
  intros Htoday Hrange.
  assert (Forall (λ r, valid_date (date r)) df) as Hvalid.
  { eapply Forall_impl; [exact Hrange|]. intros r [? ?].
    unfold valid_date. lia. }
  pose proof (check_trading_day_gaps_total df symbol Hrange) as H1.
  pose proof (check_price_sanity_total df symbol) as H2.
  pose proof (check_stale_data_total today df symbol Htoday Hvalid) as H3.
  pose proof (check_ohlc_consistency_total df symbol) as H4.
  repeat (split; [assumption|]).
  split.
  { intros df'. split;
      [apply check_price_sanity_total | apply check_ohlc_consistency_total]. }
  destruct H1 as [r1 E1], H2 as [r2 E2], H3 as [r3 E3], H4 as [r4 E4].
  unfold run_all_checks, ALL_CHECKS. simpl. rewrite E1, E2, E3, E4. simpl.
  by eexists.
Qed.

Lemma checks_return_witness :
  let today := ymd2ord 2024 1 9 in
  let df := Fixtures.sample_ohlcv_df in
  has_next_day today ∧ Forall (λ r, has_next_day (date r)) df ∧
  ∃ report, run_all_checks 0 today df "AAPL" = Ok report ∧
            status <$> results report = [PASS; PASS; PASS; PASS].
Proof.
  intros today df.
  assert (has_next_day today) as H1 by (vm_compute; split; congruence).
  assert (Forall (λ r, has_next_day (date r)) df) as H2
    by (repeat constructor; vm_compute; congruence).
  repeat (split; [assumption|]).
  destruct (checks_return 0 today df "AAPL" H1 H2)
    as (_ & _ & _ & _ & _ & report & Hr & _).
  exists report. split; [exact Hr|].
  assert (run_all_checks 0 today df "AAPL" = Ok report) as E by exact Hr.
  vm_compute in E. injection E as <-. reflexivity.
Defined.

(** A row set need only carry one bar dated 9999-12-31 for the gap check,
    and the whole run with it, to raise instead of returning. *)
Lemma run_all_checks_sentinel_date :
  let df := Fixtures.sentinel_df in
  Forall (λ r, valid_date (date r)) df ∧
  check_trading_day_gaps df "AAPL" = Raise OverflowError ∧
  run_all_checks 0 (ymd2ord 2024 1 9) df "AAPL" = Raise OverflowError ∧
  ¬ is_ok (check_trading_day_gaps df "AAPL").
Proof.
  intros df.
  assert (Forall (λ r, valid_date (date r)) df) as Hvalid
    by (repeat constructor; vm_compute; congruence).
  assert (check_trading_day_gaps df "AAPL" = Raise OverflowError) as E.
  { apply check_trading_day_gaps_overflow; [done|].
    split; [do 5 right; by left|]. intros x Hx.
    repeat (apply elem_of_cons in Hx as [->|Hx]); [vm_compute; congruence..|].
    by apply elem_of_nil in Hx. }
  split; [exact Hvalid|]. split; [exact E|]. split.
  - by apply run_all_checks_raises.
  - intros [r Hr]. congruence.
Qed.

(** ** The pairwise comparison *)

Section CrossValidateFacts.

Import CrossValidate.

Lemma join_columns_query suffix :
  join_columns QUERY_COLUMNS QUERY_COLUMNS "date" suffix =
    QUERY_COLUMNS ++
    ["open" +:+ suffix; "high" +:+ suffix; "low" +:+ suffix;
     "close" +:+ suffix; "adjusted_close" +:+ suffix; "volume" +:+ suffix].
Proof. reflexivity. Qed.

(** Whatever the two sources, the comparison covers the four columns of
    [compare_cols] and no other. *)
Lemma compared_columns_eq src_a df_a src_b df_b tolerance :
  compared_columns
    (_print_pairwise_comparison src_a df_a src_b df_b tolerance) =
  ["open"; "high"; "low"; "close"].
Proof.
  unfold compared_columns, _print_pairwise_comparison. cbv zeta.
  cbn [diff_cols]. rewrite join_columns_query.
  assert (∀ col, col ∈ ["open"; "high"; "low"; "close"] →
    bool_decide
      (col ∈ QUERY_COLUMNS ++
         ["open" +:+ "_" +:+ src_b; "high" +:+ "_" +:+ src_b;
          "low" +:+ "_" +:+ src_b; "close" +:+ "_" +:+ src_b;
          "adjusted_close" +:+ "_" +:+ src_b; "volume" +:+ "_" +:+ src_b] ∧
       col +:+ "_" +:+ src_b ∈ QUERY_COLUMNS ++
         ["open" +:+ "_" +:+ src_b; "high" +:+ "_" +:+ src_b;
          "low" +:+ "_" +:+ src_b; "close" +:+ "_" +:+ src_b;
          "adjusted_close" +:+ "_" +:+ src_b; "volume" +:+ "_" +:+ src_b])
    = true) as Hin.
  { intros col Hcol. apply bool_decide_eq_true_2.
    rewrite !elem_of_app.
    repeat (apply elem_of_cons in Hcol as [->|Hcol]);
      [| | | |by apply elem_of_nil in Hcol];
      (split; [left | right]; apply list_elem_of_In; simpl; tauto). }
  cbn [omap list_omap].
  rewrite !Hin by (apply list_elem_of_In; simpl; tauto). reflexivity.
Qed.

Lemma skip_note_flag src_a df_a src_b df_b tolerance :
  adjusted_close_skipped
    (_print_pairwise_comparison src_a df_a src_b df_b tolerance) ↔
  src_a ∈ _NO_ADJ_CLOSE_SOURCES ∨ src_b ∈ _NO_ADJ_CLOSE_SOURCES.
Proof.
  unfold adjusted_close_skipped, _print_pairwise_comparison. cbv zeta.
  cbn [skip_note].
  do 2 case_bool_decide; simpl; split;
    try (intros _; by eexists); try (intros [? ?]; done); tauto.
Qed.

End CrossValidateFacts.

(** C5, as the code decides it. A pair of sources is flagged as lacking
    a genuine adjusted close exactly when one of the two source names is
    "stooq", the one member of a fixed set of names; for a flagged pair
    the adjusted close is not compared; the open, high, low and close
    columns are compared for every pair. *)
Theorem pairwise_comparison_columns (src_a src_b : string)
    (df_a df_b : DataFrame) (tolerance : float) :
  let c :=
    CrossValidate._print_pairwise_comparison src_a df_a src_b df_b tolerance in
  (CrossValidate.adjusted_close_skipped c ↔ src_a = "stooq" ∨ src_b = "stooq") ∧
  (CrossValidate.adjusted_close_skipped c →
     "adjusted_close" ∉ CrossValidate.compared_columns c) ∧
  (∀ col, col ∈ ["open"; "high"; "low"; "close"] →
          col ∈ CrossValidate.compared_columns c).
Proof.
  intros c. unfold c. rewrite compared_columns_eq, skip_note_flag.
  unfold CrossValidate._NO_ADJ_CLOSE_SOURCES. rewrite !elem_of_singleton.
  split; [done|]. split; [|done].
  intros _. apply (bool_decide_unpack _). reflexivity.
Qed.

(** Neither yfinance nor alpha_vantage is flagged, both deliver an
    adjusted close, and still the comparison leaves that column out. *)
Lemma pairwise_comparison_unflagged :
  let c :=
    CrossValidate._print_pairwise_comparison
      "yfinance" Fixtures.sample_ohlcv_df
      "alpha_vantage" Fixtures.sample_ohlcv_df 1 in
  ¬ CrossValidate.adjusted_close_skipped c ∧
  ("adjusted_close" ∉ CrossValidate.compared_columns c) ∧
  CrossValidate.compared_columns c = ["open"; "high"; "low"; "close"].
Proof.
  intros c. unfold c.
  rewrite compared_columns_eq, skip_note_flag.
  unfold CrossValidate._NO_ADJ_CLOSE_SOURCES. rewrite !elem_of_singleton.
  split; [intros [?|?]; discriminate|].
  split; [apply (bool_decide_unpack _)|]; reflexivity.
Qed.

(** ** The partition writer *)

Section PartitionerFacts.

Import Partitioner.

Lemma write_partitioned_unfold df processed_dir dataset fs :
  write_partitioned df processed_dir dataset fs =
    (put_files fs (group_writes df processed_dir dataset),
     (group_writes df processed_dir dataset).*1).
Proof.
  unfold write_partitioned, group_writes.
  generalize (group_by df). intros groups.
  assert (∀ fs written,
    foldl (λ '(fs, written) '(key, group_df),
             let path := out_path processed_dir dataset key in
             let write_df :=
               mkParquetFile _PARQUET_COLUMNS (select_parquet <$> group_df) in
             (<[path := write_df]> fs, written ++ [path]))
          (fs, written) groups =
    (put_files fs
       ((λ g, (out_path processed_dir dataset g.1,
               mkParquetFile _PARQUET_COLUMNS (select_parquet <$> g.2)))
          <$> groups),
     written ++
       ((λ g, (out_path processed_dir dataset g.1,
               mkParquetFile _PARQUET_COLUMNS (select_parquet <$> g.2)))
          <$> groups).*1)) as H.
  { induction groups as [|[key g] groups IH]; intros fs' written; simpl.
    - by rewrite app_nil_r.
    - rewrite IH. by rewrite <- app_assoc. }
  apply H.
Qed.

(** Sequential puts amount to one left-biased union: the last write to a
    path wins. *)
Lemma put_files_union (writes : list (string * ParquetFile)) : ∀ fs,
  put_files fs writes = list_to_map (reverse writes) ∪ fs.
Proof.
  induction writes as [|[p f] writes IH]; intros fs; simpl.
  - by rewrite (left_id_L ∅ (∪)).
  - unfold put_files in *. simpl. rewrite IH, reverse_cons, list_to_map_app.
    simpl. rewrite insert_empty, (insert_union_singleton_l fs).
    by rewrite (assoc_L (∪)).
Qed.

(** Writing the same files again changes nothing. *)
Lemma put_files_idemp (writes : list (string * ParquetFile)) fs :
  put_files (put_files fs writes) writes = put_files fs writes.
Proof.
  rewrite !put_files_union. rewrite (assoc_L (∪)).
  by rewrite (idemp_L (∪)).
Qed.

(** Every written path holds a file afterwards. *)
Lemma put_files_written (writes : list (string * ParquetFile)) fs p :
  p ∈ writes.*1 → is_Some (put_files fs writes !! p).
Proof.
  intros Hp. rewrite put_files_union, lookup_union.
  assert (is_Some ((list_to_map (reverse writes) : gmap _ _) !! p)) as [f ->].
  { apply elem_of_dom. rewrite dom_list_to_map_L, fmap_reverse.
    apply elem_of_list_to_set. by rewrite reverse_Permutation. }
  destruct (fs !! p); by eexists.
Qed.

(** When no two writes share a path, each path holds its own content. *)
Lemma put_files_lookup (writes : list (string * ParquetFile)) fs p f :
  NoDup writes.*1 → (p, f) ∈ writes → put_files fs writes !! p = Some f.
Proof.
  intros Hnd Hin. rewrite put_files_union, lookup_union.
  assert ((list_to_map (reverse writes) : gmap _ _) !! p = Some f) as ->.
  { apply elem_of_list_to_map.
    - by rewrite fmap_reverse, reverse_Permutation.
    - by rewrite elem_of_reverse. }
  by destruct (fs !! p).
Qed.

Lemma group_by_keys df : (group_by df).*1 = remove_dups (partition_key <$> df).
Proof.
  unfold group_by. rewrite <- list_fmap_compose.
  apply list_fmap_id.
Qed.

Lemma partition_keys_NoDup df : NoDup (partition_keys df).
Proof. unfold partition_keys. rewrite group_by_keys. apply NoDup_remove_dups. Qed.

Lemma elem_of_partition_keys df key :
  key ∈ partition_keys df ↔ ∃ r, r ∈ df ∧ partition_key r = key.
Proof.
  unfold partition_keys. rewrite group_by_keys, elem_of_remove_dups.
  rewrite list_elem_of_fmap.
  split; [intros (r & -> & Hr) | intros (r & Hr & <-)]; eauto.
Qed.

Lemma group_writes_paths df processed_dir dataset :
  (group_writes df processed_dir dataset).*1 =
    out_path processed_dir dataset <$> partition_keys df.
Proof.
  unfold group_writes, partition_keys.
  by rewrite <- !list_fmap_compose.
Qed.

Lemma elem_of_group_writes df processed_dir dataset key :
  key ∈ partition_keys df →
  (out_path processed_dir dataset key,
   mkParquetFile _PARQUET_COLUMNS (select_parquet <$> group_rows df key))
    ∈ group_writes df processed_dir dataset.
Proof.
  intros Hkey. unfold group_writes. apply list_elem_of_fmap.
  exists (key, group_rows df key). split; [done|].
  unfold group_by. apply list_elem_of_fmap. exists key. split; [done|].
  unfold partition_keys in Hkey. by rewrite group_by_keys in Hkey.
Qed.

Lemma one_part_split s1 : ∀ s2 t1 t2,
  one_part s1 → one_part s2 →
  s1 +:+ String "/" t1 = s2 +:+ String "/" t2 → s1 = s2 ∧ t1 = t2.
Proof.
  induction s1 as [|c s1 IH]; intros [|c' s2] t1 t2 H1 H2 E; simpl in *.
  - by injection E as ->.
  - injection E as <- _. by rewrite bool_decide_eq_true_2 in H2.
  - injection E as -> _. by rewrite bool_decide_eq_true_2 in H1.
  - injection E as -> E.
    apply andb_True in H1 as [_ H1]. apply andb_True in H2 as [_ H2].
    destruct (IH _ _ _ H1 H2 E) as [-> ->]. done.
Qed.

Lemma string_app_length (s t : string) :
  String.length (s +:+ t) = (String.length s + String.length t)%nat.
Proof.
  induction s as [|c s IH]; [done|].
  change (S (String.length (s +:+ t)) =
          S (String.length s + String.length t)). by rewrite IH.
Qed.

Lemma string_app_inj_r s1 : ∀ s2 t, s1 +:+ t = s2 +:+ t → s1 = s2.
Proof.
  induction s1 as [|c s1 IH]; intros [|c' s2] t E.
  - done.
  - apply (f_equal String.length) in E.
    rewrite !string_app_length in E. cbn [String.length] in E. lia.
  - apply (f_equal String.length) in E.
    rewrite !string_app_length in E. cbn [String.length] in E. lia.
  - change (String c (s1 +:+ t) = String c' (s2 +:+ t)) in E.
    injection E as -> E. by rewrite (IH _ _ E).
Qed.

(** Keys whose symbol and source are single path parts have paths of
    their own. *)
Lemma out_path_inj processed_dir dataset sym1 src1 y1 sym2 src2 y2 :
  one_part sym1 → one_part src1 → one_part sym2 → one_part src2 →
  out_path processed_dir dataset (sym1, src1, y1) =
    out_path processed_dir dataset (sym2, src2, y2) →
  (sym1, src1, y1) = (sym2, src2, y2).
Proof.
  intros Hs1 Hr1 Hs2 Hr2 E. unfold out_path in E.
  rewrite !string_app_assoc in E.
  do 5 apply String.app_inj in E.
  destruct (one_part_split sym1 sym2 _ _ Hs1 Hs2 E) as [-> E'].
  apply (String.app_inj "source=") in E'.
  destruct (one_part_split src1 src2 _ _ Hr1 Hr2 E') as [-> E''].
  apply (String.app_inj "year=") in E''.
  apply string_app_inj_r in E''. apply (inj pretty) in E''. by subst.
Qed.

Lemma out_path_NoDup df processed_dir dataset :
  Forall (λ r, one_part (symbol r) ∧ one_part (source r)) df →
  NoDup (out_path processed_dir dataset <$> partition_keys df).
Proof.
  intros Hparts. apply NoDup_fmap_2_strong; [|apply partition_keys_NoDup].
  intros [[sym1 src1] y1] [[sym2 src2] y2] H1 H2 E.
  apply elem_of_partition_keys in H1 as (r1 & Hr1 & E1).
  apply elem_of_partition_keys in H2 as (r2 & Hr2 & E2).
  rewrite Forall_forall in Hparts.
  destruct (Hparts _ Hr1) as [? ?], (Hparts _ Hr2) as [? ?].
  unfold partition_key in E1, E2. simplify_eq.
  by eapply out_path_inj.
Qed.

End PartitionerFacts.

(** C8. Calling [write_partitioned] a second time with the same rows and
    the same storage root leaves the storage as the first call left it:
    every partition group (symbol, source, year of date) has its file,
    with the same content after both calls, and each call returns one path
    per group. When symbols and sources are single path parts the paths of
    the groups differ, and the file of a group holds the rows of that
    group over the non-partition columns, each once. *)
Theorem write_partitioned_idempotent (df : DataFrame)
    (processed_dir dataset : string)
    (fs : gmap string Partitioner.ParquetFile) :
  let first := Partitioner.write_partitioned df processed_dir dataset fs in
  let second :=
    Partitioner.write_partitioned df processed_dir dataset first.1 in
  let path := Partitioner.out_path processed_dir dataset in
  second.1 = first.1 ∧ second.2 = first.2 ∧
  first.2 = path <$> partition_keys df ∧
  NoDup (partition_keys df) ∧
  (∀ key, key ∈ partition_keys df →
     ∃ file, first.1 !! path key = Some file ∧
             second.1 !! path key = Some file) ∧
  (Forall (λ r, Partitioner.one_part (symbol r) ∧
                Partitioner.one_part (source r)) df →
   NoDup first.2 ∧
   ∀ key, key ∈ partition_keys df →
     second.1 !! path key =
       Some (Partitioner.mkParquetFile Partitioner._PARQUET_COLUMNS
               (Partitioner.select_parquet <$> group_rows df key))).
Proof.
  intros first second path. unfold second, first.
  rewrite !write_partitioned_unfold. cbn [fst snd].
  rewrite put_files_idemp, group_writes_paths.
  split; [done|]. split; [done|]. split; [done|].
  split; [apply partition_keys_NoDup|]. split.
  - intros key Hkey.
    destruct (put_files_written (group_writes df processed_dir dataset) fs
                (path key)) as [file Hfile].
    { rewrite group_writes_paths. by apply list_elem_of_fmap_2. }
    by exists file.
  - intros Hparts.
    pose proof (out_path_NoDup df processed_dir dataset Hparts) as Hnd.
    split; [done|]. intros key Hkey.
    apply put_files_lookup.
    + by rewrite group_writes_paths.
    + by apply elem_of_group_writes.
Qed.

(** The sample frame with a bar of 2023 added, written twice. *)
Lemma write_partitioned_idempotent_witness :
  let df :=
    Fixtures.bar (ymd2ord 2023 12 29) 148 149 147 148.5 900000
      :: Fixtures.sample_ohlcv_df in
  let first :=
    Partitioner.write_partitioned df "processed" Partitioner.default_dataset ∅ in
  let second :=
    Partitioner.write_partitioned df "processed" Partitioner.default_dataset
      first.1 in
  Forall (λ r, Partitioner.one_part (symbol r) ∧
               Partitioner.one_part (source r)) df ∧
  second.1 = first.1 ∧
  first.2 =
    ["processed/daily_ohlcv/symbol=AAPL/source=test/year=2023/data.parquet";
     "processed/daily_ohlcv/symbol=AAPL/source=test/year=2024/data.parquet"] ∧
  (λ f, length (Partitioner.file_rows f)) <$>
    second.1 !!
      "processed/daily_ohlcv/symbol=AAPL/source=test/year=2024/data.parquet"
    = Some 5%nat.
Proof.
  intros df first second.
  assert (Forall (λ r, Partitioner.one_part (symbol r) ∧
                       Partitioner.one_part (source r)) df) as Hparts
    by (repeat constructor).
  destruct (write_partitioned_idempotent df "processed"
              Partitioner.default_dataset ∅)
    as (Hfs & _ & Hpaths & _ & _ & Hfiles).
  destruct (Hfiles Hparts) as [_ Hfile].
  split; [exact Hparts|]. split; [exact Hfs|]. split.
  - fold first in Hpaths. rewrite Hpaths. vm_compute. reflexivity.
  - specialize (Hfile ("AAPL", "test", 2024)).
    fold first second in Hfile.
    change (Partitioner.out_path "processed" Partitioner.default_dataset
              ("AAPL", "test", 2024))
      with "processed/daily_ohlcv/symbol=AAPL/source=test/year=2024/data.parquet"
      in Hfile.
    rewrite Hfile; [vm_compute; reflexivity|].
    apply (bool_decide_unpack _). vm_compute. reflexivity.
Defined.

(** ** Frames *)

Lemma bind_Ok {A B : Type} (m : result A) (k : A → result B) b :
  m ≫= k = Ok b ↔ ∃ a, m = Ok a ∧ k a = Ok b.
Proof.
  destruct m as [a|e]; simpl.
  - split; [by exists a | by intros (? & [= <-] & ?)].
  - split; [done | by intros (? & ? & ?)].
Qed.

Lemma fmap_Ok {A B : Type} (f : A → B) (m : result A) b :
  f <$> m = Ok b ↔ ∃ a, m = Ok a ∧ b = f a.
Proof.
  destruct m as [a|e]; simpl.
  - split; [intros [= <-]; by exists a | by intros (? & [= <-] & ->)].
  - split; [done | by intros (? & ? & ?)].
Qed.

Lemma of_option_Ok {A : Type} e (o : option A) a :
  of_option e o = Ok a ↔ o = Some a.
Proof. destruct o; simpl; split; congruence. Qed.

Section ResultFacts.

Context {A B : Type}.

Lemma mapM_cons (f : A → result B) x l :
  mapM f (x :: l) = f x ≫= λ y, mapM f l ≫= λ ys, Ok (y :: ys).
Proof. reflexivity. Qed.

Lemma mapM_Ok (f : A → result B) (l : list A) (k : list B) :
  mapM f l = Ok k ↔ Forall2 (λ x y, f x = Ok y) l k.
Proof.
  revert k. induction l as [|x l IH]; intros k.
  - simpl. split; [intros [= <-]; constructor | by inversion 1].
  - rewrite mapM_cons, bind_Ok. split.
    + intros (y & Hy & Hrest). apply bind_Ok in Hrest as (ys & Hys & [= <-]).
      constructor; [done|]. by apply IH.
    + inversion 1 as [|? y ? ys Hy Hys]; subst. exists y. split; [done|].
      apply bind_Ok. exists ys. split; [by apply IH | done].
Qed.

Lemma mapM_length (f : A → result B) l k : mapM f l = Ok k → length k = length l.
Proof. rewrite mapM_Ok. intros HF. symmetry. by eapply Forall2_length. Qed.

Lemma mapM_ext (f g : A → result B) (l : list A) :
  (∀ x, x ∈ l → f x = g x) → mapM f l = mapM g l.
Proof.
  induction l as [|x l IH]; intros Hfg; [done|].
  rewrite !mapM_cons.
  rewrite Hfg by apply list_elem_of_here.
  rewrite IH; [done|]. intros y Hy. by apply Hfg, list_elem_of_further.
Qed.

End ResultFacts.

Lemma mapM_compose {A B C : Type} (f : A → result B) (g : B → result C)
    (l : list A) (ts : list B) (ds : list C) :
  mapM f l = Ok ts → mapM g ts = Ok ds →
  Forall2 (λ c d, f c ≫= g = Ok d) l ds.
Proof.
  rewrite !mapM_Ok. intros H1. revert ds.
  induction H1 as [|c t cs ts' Hc _ IH]; intros ds H2;
    inversion H2 as [|? d ? ds' Hd Hds]; subst; constructor.
  - by rewrite Hc.
  - by apply IH.
Qed.

(** Take a chain of binds that returned apart, step by step. *)
Ltac bind_inv H :=
  lazymatch type of H with
  | _ ≫= _ = Ok _ =>
      let a := fresh "df" in
      let Ha := fresh "E" in
      apply bind_Ok in H as (a & Ha & H); bind_inv Ha; bind_inv H
  | _ => idtac
  end.

Lemma NoDup_fst_agree {A B : Type} (l : list (A * B)) x y1 y2 :
  NoDup l.*1 → (x, y1) ∈ l → (x, y2) ∈ l → y1 = y2.
Proof.
  induction l as [|[a b] l IH]; simpl.
  - intros _ Hin. by apply elem_of_nil in Hin.
  - intros [Ha Hnd]%NoDup_cons [[= -> ->]|H1]%elem_of_cons
      [[= ?]|H2]%elem_of_cons; subst; try done.
    + exfalso. apply Ha. apply list_elem_of_fmap. by exists (a, y2).
    + exfalso. apply Ha. apply list_elem_of_fmap. by exists (a, y1).
    + by apply IH.
Qed.

Section FrameFacts.

Context `{Library}.

Lemma get_column_elem name (df : Frame) cells :
  get_column name df = Ok cells → (name, cells) ∈ df.
Proof.
  induction df as [|[n c] df IH]; simpl; [done|].
  case_bool_decide as E.
  - intros [= <-]. subst. apply list_elem_of_here.
  - intros Hc. by apply list_elem_of_further, IH.
Qed.

Lemma get_column_NoDup name (df : Frame) cells :
  NoDup (columns df) → (name, cells) ∈ df → get_column name df = Ok cells.
Proof.
  unfold columns. induction df as [|[n c] df IH]; simpl.
  - intros _ Hin. by apply elem_of_nil in Hin.
  - intros [Hn Hnd]%NoDup_cons [[= <- <-]|Hin]%elem_of_cons.
    + by rewrite bool_decide_eq_true_2.
    + rewrite bool_decide_eq_false_2; [by apply IH|].
      intros ->. apply Hn. apply list_elem_of_fmap. by exists (name, cells).
Qed.

Lemma get_column_is_ok name (df : Frame) :
  name ∈ columns df → is_ok (get_column name df).
Proof.
  unfold columns. induction df as [|[n c] df IH]; simpl.
  - intros Hin. by apply elem_of_nil in Hin.
  - intros [->|Hin]%elem_of_cons.
    + rewrite bool_decide_eq_true_2 by done. by eexists.
    + case_bool_decide; [by eexists | by apply IH].
Qed.

Lemma get_column_fmap (g : list value → list value) name (df : Frame) :
  get_column name ((λ col, (col.1, g col.2)) <$> df) =
    g <$> get_column name df.
Proof.
  induction df as [|[n c] df IH]; simpl; [done|].
  by case_bool_decide.
Qed.

Lemma get_column_replaced (df : Frame) n c :
  n ∈ columns df →
  get_column n ((λ old, if bool_decide (old.1 = n) then (n, c) else old)
                  <$> df) = Ok c.
Proof.
  unfold columns. induction df as [|[n' c'] df IH]; intros Hin.
  - by apply elem_of_nil in Hin.
  - rewrite fmap_cons. cbn [fst]. destruct (decide (n' = n)) as [->|Hne].
    + rewrite bool_decide_eq_true_2 by done. simpl.
      by rewrite bool_decide_eq_true_2.
    + rewrite bool_decide_eq_false_2 by done. simpl.
      rewrite bool_decide_eq_false_2 by done.
      apply IH. rewrite fmap_cons in Hin.
      by apply elem_of_cons in Hin as [?|?].
Qed.

Lemma get_column_not_replaced (df : Frame) name n c :
  name ≠ n →
  get_column name ((λ old, if bool_decide (old.1 = n) then (n, c) else old)
                     <$> df) = get_column name df.
Proof.
  intros Hne. induction df as [|[n' c'] df IH]; [done|].
  rewrite fmap_cons. cbn [fst]. destruct (decide (n' = n)) as [->|Hne'].
  - rewrite bool_decide_eq_true_2 by done. simpl.
    by rewrite bool_decide_eq_false_2.
  - rewrite bool_decide_eq_false_2 by done. simpl.
    by case_bool_decide.
Qed.

Lemma get_column_appended (df : Frame) name n c :
  n ∉ columns df →
  get_column name (df ++ [(n, c)]) =
    if bool_decide (n = name) then Ok c else get_column name df.
Proof.
  unfold columns. intros Hin. destruct (decide (n = name)) as [<-|Hname].
  - rewrite bool_decide_eq_true_2 by done.
    induction df as [|[n' c'] df IH]; simpl.
    + by rewrite bool_decide_eq_true_2.
    + rewrite fmap_cons in Hin. apply not_elem_of_cons in Hin as [Hne Hin].
      simpl in Hne. rewrite bool_decide_eq_false_2 by done. by apply IH.
  - rewrite bool_decide_eq_false_2 by done. clear Hin.
    induction df as [|[n' c'] df IH]; simpl.
    + by rewrite bool_decide_eq_false_2.
    + by rewrite IH.
Qed.

Lemma get_column_upsert name (df : Frame) col :
  get_column name (upsert df col) =
    if bool_decide (col.1 = name) then Ok col.2 else get_column name df.
Proof.
  unfold upsert. destruct col as [n c]. cbn [fst snd].
  case_bool_decide as Hin.
  - case_bool_decide as E.
    + subst. by apply get_column_replaced.
    + apply get_column_not_replaced. congruence.
  - by apply get_column_appended.
Qed.

Lemma get_column_foldl_upsert cols : ∀ (df : Frame) name,
  get_column name (foldl upsert df cols) =
    match list_find (λ col, col.1 = name) (reverse cols) with
    | Some (_, col) => Ok col.2
    | None => get_column name df
    end.
Proof.
  induction cols as [|col cols IH] using rev_ind; intros df name.
  - done.
  - rewrite foldl_app, reverse_app. simpl.
    rewrite get_column_upsert. case_decide as E.
    + by rewrite bool_decide_eq_true_2.
    + rewrite bool_decide_eq_false_2 by done. rewrite IH.
      by destruct (list_find _ (reverse cols)) as [[i c]|].
Qed.

(** After [with_columns], a computed column is found under its name. *)
Lemma with_columns_computed exprs (df df' : Frame) e name cells :
  with_columns exprs df = Ok df' →
  e ∈ exprs → eval df e = Ok (name, cells) →
  get_column name df' = Ok cells.
Proof.
  unfold with_columns. intros Hw He Heval.
  apply bind_Ok in Hw as (cols & Hcols & Hw).
  case_bool_decide as Hnd; [|done]. injection Hw as <-.
  rewrite get_column_foldl_upsert.
  apply mapM_Ok in Hcols.
  assert ((name, cells) ∈ cols) as Hin.
  { apply list_elem_of_lookup in He as [i Hi].
    destruct (Forall2_lookup_l _ _ _ _ _ Hcols Hi) as (col & Hcol & Hev).
    rewrite Heval in Hev. injection Hev as <-.
    by eapply list_elem_of_lookup_2. }
  destruct (list_find _ (reverse cols)) as [[i col]|] eqn:Hfind.
  - apply list_find_Some in Hfind as (Hi & Hname & _).
    apply list_elem_of_lookup_2 in Hi. rewrite elem_of_reverse in Hi.
    f_equal. destruct col as [n c]. simpl in *. subst n.
    by eapply (NoDup_fst_agree cols name).
  - apply list_find_None in Hfind. rewrite Forall_forall in Hfind.
    exfalso. apply (Hfind (name, cells)); [by apply elem_of_reverse|done].
Qed.

(** A column that [with_columns] does not compute stays as it is. *)
Lemma with_columns_untouched exprs (df df' : Frame) name :
  with_columns exprs df = Ok df' →
  (∀ e col, e ∈ exprs → eval df e = Ok col → col.1 ≠ name) →
  get_column name df' = get_column name df.
Proof.
  unfold with_columns. intros Hw Hother.
  apply bind_Ok in Hw as (cols & Hcols & Hw).
  case_bool_decide as Hnd; [|done]. injection Hw as <-.
  rewrite get_column_foldl_upsert.
  apply mapM_Ok in Hcols.
  destruct (list_find _ (reverse cols)) as [[i col]|] eqn:Hfind; [|done].
  apply list_find_Some in Hfind as (Hi & Hname & _).
  apply list_elem_of_lookup_2 in Hi. rewrite elem_of_reverse in Hi.
  apply list_elem_of_lookup in Hi as [j Hj].
  destruct (Forall2_lookup_r _ _ _ _ _ Hcols Hj) as (e & He & Hev).
  exfalso. eapply Hother; [by eapply list_elem_of_lookup_2|exact Hev|done].
Qed.

(** [select] returns the named columns, in the order asked. *)
Lemma select_spec names (df df' : Frame) :
  select names df = Ok df' →
  columns df' = names ∧
  ∀ name, name ∈ names → get_column name df' = get_column name df.
Proof.
  unfold select. intros Hs.
  apply bind_Ok in Hs as (cols & Hcols & Hs).
  case_bool_decide as Hnd; [|done]. injection Hs as <-.
  apply mapM_Ok in Hcols.
  assert (columns cols = names) as Hnames.
  { unfold columns. clear Hnd.
    induction Hcols as [|n col names cols Hcol _ IH]; [done|].
    apply bind_Ok in Hcol as (cells & _ & [= <-]). by rewrite fmap_cons, IH. }
  split; [done|]. intros name Hname.
  apply list_elem_of_lookup in Hname as [i Hi].
  destruct (Forall2_lookup_l _ _ _ _ _ Hcols Hi) as (col & Hcol & Hget).
  apply bind_Ok in Hget as (cells & Hcells & [= <-]).
  rewrite Hcells. apply get_column_NoDup.
  - by rewrite Hnames.
  - by eapply list_elem_of_lookup_2.
Qed.

(** The rows of a sorted frame: every column is read in one and the same
    order, for which the keys ascend. *)
Lemma sort_spec by_ (df df' : Frame) :
  sort by_ df = Ok df' →
  ∃ cells keys (order : list nat),
    get_column by_ df = Ok cells ∧
    mapM date_key cells = Ok keys ∧
    order ≡ₚ seq 0 (length cells) ∧
    Sorted key_le ((λ i, default None (keys !! i)) <$> order) ∧
    columns df' = columns df ∧
    ∀ name,
      get_column name df' =
        (λ col, (λ i, default VNull (col !! i)) <$> order) <$>
          get_column name df.
Proof.
  unfold sort. intros Hs.
  apply bind_Ok in Hs as (cells & Hcells & Hs).
  apply bind_Ok in Hs as (keys & Hkeys & [= <-]).
  pose proof (mapM_length _ _ _ Hkeys) as Hlen.
  set (rows := zip keys (seq 0 (length keys))).
  exists cells, keys, (merge_sort row_le rows).*2.
  split; [done|]. split; [done|].
  assert (∀ p, p ∈ merge_sort row_le rows → keys !! p.2 = Some p.1) as Hrows.
  { intros [k i]. rewrite merge_sort_Permutation. unfold rows.
    intros Hin. apply list_elem_of_lookup in Hin as [j Hj].
    apply lookup_zip_with_Some in Hj as (k' & i' & [= <- <-] & Hk & Hi).
    apply lookup_seq in Hi as [-> _]. done. }
  split; [|split; [|split]].
  - rewrite merge_sort_Permutation. unfold rows.
    rewrite snd_zip by (rewrite length_seq; lia). by rewrite Hlen.
  - assert ((λ i, default None (keys !! i)) <$> (merge_sort row_le rows).*2
            = (merge_sort row_le rows).*1) as ->.
    { rewrite <- list_fmap_compose. apply list_fmap_ext.
      intros i p Hp. simpl. rewrite (Hrows p); [done|].
      by eapply list_elem_of_lookup_2. }
    apply (Sorted_fmap fst row_le key_le); [done|].
    apply Sorted_merge_sort.
    intros [[a|] ?] [[b|] ?]; unfold row_le; simpl; try tauto. lia.
  - unfold columns. rewrite <- list_fmap_compose. by apply list_fmap_ext.
  - intros name.
    apply (get_column_fmap
             (λ col, (λ i, default VNull (col !! i)) <$>
                       (merge_sort row_le rows).*2)).
Qed.

End FrameFacts.

(** ** The normalizers *)

Section NormalizerFacts.

Context `{Library}.

Lemma eval_Ok_cast (df : Frame) n dt col :
  eval df (Cast (Col n) dt) = Ok col →
  ∃ cells, get_column n df = Ok cells ∧ col.1 = n ∧
           mapM (eval_cell (Cast (Col n) dt)) cells = Ok col.2.
Proof.
  intros He. cbn [eval] in He. bind_inv He. simplify_eq. by eexists.
Qed.

Lemma eval_Ok_alias (df : Frame) e n col :
  eval df (Alias e n) = Ok col →
  ∃ col', eval df e = Ok col' ∧ col = (n, col'.2).
Proof.
  intros He. cbn [eval] in He. bind_inv He. simplify_eq. by eexists.
Qed.

Lemma eval_alias_name (df : Frame) e n col :
  eval df (Alias e n) = Ok col → col.1 = n.
Proof. intros (col' & _ & ->)%eval_Ok_alias. done. Qed.

Lemma eval_op_name (df : Frame) n col :
  eval df (StrToDate (Col n)) = Ok col → col.1 = n.
Proof. intros He. cbn [eval] in He. bind_inv He. by simplify_eq. Qed.

Lemma eval_cast_name (df : Frame) n dt col :
  eval df (Cast (Col n) dt) = Ok col → col.1 = n.
Proof. intros (cells & _ & ? & _)%eval_Ok_cast. done. Qed.

(** Every expression of a [with_columns] that returned has a value, found
    in the result under its name. *)
Lemma with_columns_evals exprs (df df' : Frame) e :
  with_columns exprs df = Ok df' → e ∈ exprs →
  ∃ col, eval df e = Ok col ∧ get_column col.1 df' = Ok col.2.
Proof.
  intros Hw He. pose proof Hw as Hw'. unfold with_columns in Hw'.
  apply bind_Ok in Hw' as (cols & Hcols & _).
  apply mapM_Ok in Hcols.
  apply list_elem_of_lookup in He as [i Hi].
  destruct (Forall2_lookup_l _ _ _ _ _ Hcols Hi) as ([n c] & _ & Hev).
  exists (n, c). split; [done|].
  eapply with_columns_computed; [done| |done]. by eapply list_elem_of_lookup_2.
Qed.

Lemma rename_Ok mapping (df df' : Frame) :
  rename mapping df = Ok df' →
  df' = (λ col, (default col.1 (mapping !! col.1), col.2)) <$> df ∧
  NoDup (columns df') ∧ NoDup (columns df) ∧
  ∀ old, old ∈ dom mapping → old ∈ columns df.
Proof.
  unfold rename.
  destruct (bool_decide (dom mapping ⊆ _)) eqn:Hdom; [|done].
  destruct (bool_decide (NoDup _)) eqn:Hnd; [|done].
  apply bool_decide_eq_true_1 in Hdom, Hnd. intros [= <-].
  split; [done|]. split; [done|]. split.
  - unfold columns in *.
    assert (((λ col : string * list value,
                (default col.1 (mapping !! col.1), col.2)) <$> df).*1 =
            (λ n, default n (mapping !! n)) <$> df.*1) as Heq
      by (by rewrite <- !list_fmap_compose).
    rewrite Heq in Hnd. by apply NoDup_fmap_1 in Hnd.
  - intros old Hold. apply Hdom in Hold. by apply elem_of_list_to_set in Hold.
Qed.

(** A renamed column is found under its new name. *)
Lemma get_column_renamed mapping (df df' : Frame) old new :
  rename mapping df = Ok df' → mapping !! old = Some new →
  ∃ cells, get_column old df = Ok cells ∧ get_column new df' = Ok cells.
Proof.
  intros (-> & Hnd & _ & Hdom)%rename_Ok Hold.
  destruct (get_column_is_ok old df) as [cells Hcells].
  { apply Hdom. by apply elem_of_dom. }
  exists cells. split; [done|].
  apply get_column_NoDup; [done|].
  apply get_column_elem in Hcells. apply list_elem_of_fmap.
  exists (old, cells). simpl. by rewrite Hold.
Qed.

(** A column that is not renamed keeps its name. *)
Lemma get_column_not_renamed mapping (df df' : Frame) name cells :
  rename mapping df = Ok df' → mapping !! name = None →
  get_column name df = Ok cells → get_column name df' = Ok cells.
Proof.
  intros (-> & Hnd & _ & _)%rename_Ok Hname Hcells.
  apply get_column_NoDup; [done|].
  apply get_column_elem in Hcells. apply list_elem_of_fmap.
  exists (name, cells). simpl. by rewrite Hname.
Qed.

(** The names of a renamed frame: old names outside the mapping, and new
    names. *)
Lemma columns_renamed mapping (df df' : Frame) name :
  rename mapping df = Ok df' → name ∈ columns df' →
  (name ∈ columns df ∧ mapping !! name = None) ∨
  (∃ old, mapping !! old = Some name).
Proof.
  intros (-> & _)%rename_Ok Hin. unfold columns in Hin.
  rewrite <- list_fmap_compose in Hin.
  apply list_elem_of_fmap in Hin as ([n c] & -> & Hin). simpl.
  destruct (mapping !! n) as [new|] eqn:E; simpl.
  - right. by exists n.
  - left. split; [|done]. apply list_elem_of_fmap. by exists (n, c).
Qed.

(** Sorting reads two equal columns in the same order. *)
Lemma sort_keeps_equal by_ (df df' : Frame) a b cells :
  sort by_ df = Ok df' →
  get_column a df = Ok cells → get_column b df = Ok cells →
  ∃ cells', get_column a df' = Ok cells' ∧ get_column b df' = Ok cells'.
Proof.
  intros (_ & _ & order & _ & _ & _ & _ & _ & Hget)%sort_spec Ha Hb.
  eexists. rewrite !Hget, Ha, Hb. by split.
Qed.

Lemma sort_ascending (df df' : Frame) :
  sort "date" df = Ok df' → ascending_by_date df'.
Proof.
  intros (cells & keys & order & Hcells & Hkeys & Hperm & Hsorted & _ & Hget)
    %sort_spec.
  exists ((λ i, default VNull (cells !! i)) <$> order),
         ((λ i, default None (keys !! i)) <$> order).
  split; [by rewrite Hget, Hcells|]. split; [|done].
  apply mapM_Ok. apply mapM_Ok in Hkeys.
  apply Forall2_fmap, Forall_Forall2_diag, Forall_forall.
  intros i Hi. rewrite Hperm in Hi. apply elem_of_seq in Hi as [_ Hi].
  destruct (lookup_lt_is_Some_2 cells i) as [cell Hcell]; [lia|].
  destruct (Forall2_lookup_l _ _ _ _ _ Hkeys Hcell) as (key & Hkey & Hk).
  by rewrite Hcell, Hkey.
Qed.

Lemma select_ascending names (df df' : Frame) :
  select names df = Ok df' → "date" ∈ names →
  ascending_by_date df → ascending_by_date df'.
Proof.
  intros [_ Hget]%select_spec Hdate (cells & keys & Hc & Hk & Hs).
  exists cells, keys. by rewrite Hget.
Qed.

Lemma select_keeps_equal names (df df' : Frame) a b cells :
  select names df = Ok df' → a ∈ names → b ∈ names →
  get_column a df = Ok cells → get_column b df = Ok cells →
  get_column a df' = Ok cells ∧ get_column b df' = Ok cells.
Proof. intros [_ Hget]%select_spec Ha Hb ? ?. by rewrite !Hget. Qed.

Lemma OUTPUT_COLUMNS_elem name :
  name ∈ OUTPUT_COLUMNS ↔
  In name ["date"; "open"; "high"; "low"; "close"; "adjusted_close";
           "volume"; "source"; "ingested_at"; "symbol"].
Proof. by rewrite list_elem_of_In. Qed.

Variable now_utc : Z.

Lemma normalize_stooq_daily_spec raw symbol df :
  normalize_stooq_daily now_utc raw symbol = Ok df →
  columns df = OUTPUT_COLUMNS ∧ adjusted_close_is_close df ∧
  ascending_by_date df.
Proof.
  unfold normalize_stooq_daily. intros Hn. bind_inv Hn.
  rename E into Hread, E0 into Hrename, E1 into Hwith, E2 into Hsort.
  pose proof (select_spec _ _ _ Hn) as [Hcols _].
  split; [done|]. split.
  - destruct (with_columns_evals _ _ _ (Cast (Col "close") Float64) Hwith)
      as (col1 & Hev1 & Hget1); [apply list_elem_of_In; simpl; tauto|].
    destruct (with_columns_evals _ _ _
                (Alias (Cast (Col "close") Float64) "adjusted_close") Hwith)
      as (col2 & Hev2 & Hget2); [apply list_elem_of_In; simpl; tauto|].
    apply eval_Ok_alias in Hev2 as (col' & Hev2 & ->).
    rewrite Hev1 in Hev2. injection Hev2 as <-.
    rewrite (eval_cast_name _ _ _ _ Hev1) in Hget1. simpl in Hget2.
    destruct (sort_keeps_equal _ _ _ _ _ _ Hsort Hget1 Hget2)
      as (cells & Hc1 & Hc2).
    exists cells.
    apply (select_keeps_equal _ _ _ _ _ _ Hn); try done;
      apply OUTPUT_COLUMNS_elem; simpl; tauto.
  - eapply select_ascending; [done| |by eapply sort_ascending].
    apply OUTPUT_COLUMNS_elem; simpl; tauto.
Qed.

Lemma eval_lit_name (df : Frame) v n col :
  eval df (Alias (Lit v) n) = Ok col → col.1 = n.
Proof. apply eval_alias_name. Qed.

(** An Alpha Vantage day without "5. adjusted close" gets its close as
    adjusted close. *)
Lemma alpha_vantage_row_fallback date_str values row :
  dict_get "5. adjusted close" values = None →
  alpha_vantage_row date_str values = Ok row →
  row !! 4%nat = row !! 6%nat.
Proof.
  intros Hnone Hrow. unfold alpha_vantage_row in Hrow.
  rewrite Hnone in Hrow. bind_inv Hrow.
  apply of_option_Ok in E6, E10. simpl in E10. simplify_eq.
  simpl. congruence.
Qed.

Lemma alpha_vantage_frame_columns rows :
  get_column "close" (alpha_vantage_frame rows) =
    Ok ((λ row, default VNull (row !! 4%nat)) <$> rows) ∧
  get_column "adjusted_close" (alpha_vantage_frame rows) =
    Ok ((λ row, default VNull (row !! 6%nat)) <$> rows).
Proof. split; reflexivity. Qed.

Lemma normalize_alpha_vantage_daily_spec raw symbol df :
  normalize_alpha_vantage_daily now_utc raw symbol = Ok df →
  columns df = OUTPUT_COLUMNS ∧ ascending_by_date df ∧
  (∀ data entries,
     raw = Json data →
     dict_get "Time Series (Daily)" data = Some (Series entries) →
     Forall (λ entry, dict_get "5. adjusted close" entry.2 = None) entries →
     adjusted_close_is_close df).
Proof.
  unfold normalize_alpha_vantage_daily. intros Hn.
  apply bind_Ok in Hn as (data & Hload & Hn).
  destruct (falsy _) eqn:Hfalsy; [done|].
  apply bind_Ok in Hn as (entries & Hentries & Hn).
  apply bind_Ok in Hn as (rows & Hrows & Hn).
  apply bind_Ok in Hn as (df1 & Hwith & Hn).
  apply bind_Ok in Hn as (df2 & Hsort & Hn).
  pose proof (select_spec _ _ _ Hn) as [Hcols _].
  split; [done|]. split.
  { eapply select_ascending; [done| |by eapply sort_ascending].
    apply OUTPUT_COLUMNS_elem; simpl; tauto. }
  intros data' entries' -> Hseries Hlack.
  injection Hload as <-. rewrite Hseries in Hentries. simpl in Hentries.
  injection Hentries as <-.
  destruct (alpha_vantage_frame_columns rows) as [Hclose Hadj].
  assert ((λ row : list value, default VNull (row !! 6%nat)) <$> rows =
          (λ row, default VNull (row !! 4%nat)) <$> rows) as Heq.
  { apply list_fmap_ext. intros i row Hrow. apply mapM_Ok in Hrows.
    destruct (Forall2_lookup_r _ _ _ _ _ Hrows Hrow) as (entry & He & Hr).
    rewrite Forall_forall in Hlack.
    by rewrite (alpha_vantage_row_fallback _ _ _
                  (Hlack _ (list_elem_of_lookup_2 _ _ _ He)) Hr). }
  rewrite Heq in Hadj.
  assert (∀ name, name = "close" ∨ name = "adjusted_close" →
            get_column name df1 = get_column name (alpha_vantage_frame rows))
    as Hsame.
  { intros name Hname. eapply with_columns_untouched; [exact Hwith|].
    intros e col He Hev.
    repeat (apply elem_of_cons in He as [->|He]);
      [apply eval_op_name in Hev | apply eval_alias_name in Hev..
      | by apply elem_of_nil in He]; destruct Hname; congruence. }
  rewrite <- (Hsame "close") in Hclose by tauto.
  rewrite <- (Hsame "adjusted_close") in Hadj by tauto.
  destruct (sort_keeps_equal _ _ _ _ _ _ Hsort Hclose Hadj)
    as (cells & Hc1 & Hc2).
  exists cells.
  apply (select_keeps_equal _ _ _ _ _ _ Hn); try done;
    apply OUTPUT_COLUMNS_elem; simpl; tauto.
Qed.

(** The first renaming of the yfinance and stooq normalizers gives no
    column one of the adjusted-close names. *)
Lemma rename_no_adjusted date_col old c :
  (<[date_col := "date"]> (<["Open" := "open"]> (<["High" := "high"]>
     (<["Low" := "low"]> (<["Close" := "close"]>
        ({["Volume" := "volume"]} : gmap string string)))))) !! old = Some c →
  c ∉ ["Adj Close"; "Adj. Close"; "Adjusted Close"].
Proof.
  intros Hold Hc.
  assert (c ≠ "Adj Close" ∧ c ≠ "Adj. Close" ∧ c ≠ "Adjusted Close")
    as (H1 & H2 & H3).
  { repeat (rewrite lookup_insert in Hold; case_decide;
            [by simplify_eq|]).
    rewrite lookup_singleton in Hold. case_decide; by simplify_eq. }
  repeat (apply elem_of_cons in Hc as [?|Hc]; [done|]).
  by apply elem_of_nil in Hc.
Qed.

Lemma yfinance_date_parsed (df : Frame) cells (zoned : bool) col :
  get_column "date" df = Ok cells →
  eval df (Alias (if zoned then DtDate (StrToDatetime (Col "date"))
                  else StrToDate (Col "date")) "date") = Ok col →
  col.1 = "date" ∧ Forall2 (λ cell d, yfinance_date zoned cell = Ok d) cells col.2.
Proof.
  intros Hcells (col' & Hev & ->)%eval_Ok_alias. split; [done|]. simpl.
  destruct zoned; cbn [eval] in Hev; rewrite Hcells in Hev; bind_inv Hev;
    simplify_eq; cbn [fst snd] in *.
  - match goal with
    | H1 : mapM _ ?cs = Ok ?ts, H2 : mapM _ ?ts = Ok _ |- _ =>
        exact (mapM_compose _ _ _ _ _ H1 H2)
    end.
  - match goal with
    | H1 : mapM (eval_cell (StrToDate _)) _ = Ok _ |- _ =>
        by apply mapM_Ok in H1
    end.
Qed.

Lemma normalize_yfinance_daily_spec raw symbol df :
  normalize_yfinance_daily now_utc raw symbol = Ok df →
  columns df = OUTPUT_COLUMNS ∧ in_payload_order raw df ∧
  (∀ payload,
     raw = Csv payload →
     (∀ c, c ∈ ["Adj Close"; "Adj. Close"; "Adjusted Close"] →
           c ∉ columns payload) →
     adjusted_close_is_close df).
Proof.
  unfold normalize_yfinance_daily. intros Hn.
  apply bind_Ok in Hn as (df0 & Hread & Hn).
  apply bind_Ok in Hn as (df1 & Hrename & Hn).
  apply bind_Ok in Hn as (df2 & Hadj & Hn).
  apply bind_Ok in Hn as (dates & Hdates & Hn).
  apply bind_Ok in Hn as (date_sample & Hsample & Hn).
  apply bind_Ok in Hn as (df3 & Hwith & Hn).
  apply bind_Ok in Hn as (df4 & Hsymbol & Hn).
  apply of_option_Ok in Hsample.
  pose proof (select_spec _ _ _ Hn) as [Hcols Hsel].
  destruct raw as [payload|]; [|done]. injection Hread as <-.
  set (date_col := if bool_decide ("Date" ∈ columns payload)
                   then "Date" else "Datetime") in *.
  assert (∀ name, name ≠ "symbol" →
            get_column name df4 = get_column name df3) as Hsym.
  { intros name Hname. eapply with_columns_untouched; [exact Hsymbol|].
    intros e col He Hev. apply list_elem_of_singleton in He as ->.
    apply eval_alias_name in Hev. congruence. }
  split; [done|]. split.
  - destruct (get_column_renamed _ _ _ date_col "date" Hrename)
      as (cells & Hcells & Hdate1); [by rewrite lookup_insert_eq|].
    assert (get_column "date" df2 = Ok cells) as Hdate2.
    { destruct (list_find _ _) as [[i adj]|] eqn:Hfind.
      - apply list_find_Some in Hfind as (Hi & _ & _).
        apply list_elem_of_lookup_2 in Hi.
        eapply get_column_not_renamed; [exact Hadj| |done].
        apply lookup_singleton_ne.
        repeat (apply elem_of_cons in Hi as [->|Hi]; [done|]).
        by apply elem_of_nil in Hi.
      - erewrite with_columns_untouched; [exact Hdate1|exact Hadj|].
        intros e col He Hev. apply list_elem_of_singleton in He as ->.
        apply eval_alias_name in Hev. congruence. }
    rewrite Hdate2 in Hdates. injection Hdates as <-.
    destruct (with_columns_evals _ _ _
                (Alias (if str_has_colon date_sample
                        then DtDate (StrToDatetime (Col "date"))
                        else StrToDate (Col "date")) "date") Hwith)
      as ([n parsed] & Hev & Hget); [apply list_elem_of_here|].
    destruct (yfinance_date_parsed _ _ _ _ Hdate2 Hev) as [Hname Hparsed].
    simpl in Hname, Hparsed, Hget. subst n.
    exists payload, date_col, cells, parsed.
    split; [done|]. split; [done|]. split; [done|]. split.
    + rewrite Hsel by (apply OUTPUT_COLUMNS_elem; simpl; tauto).
      by rewrite Hsym.
    + by rewrite Hsample.
  - intros payload' [= <-] Hnone.
    assert (list_find (λ candidate, candidate ∈ columns df1)
              ["Adj Close"; "Adj. Close"; "Adjusted Close"] = None) as Hfind.
    { apply list_find_None, Forall_forall. intros c Hc Hin.
      destruct (columns_renamed _ _ _ _ Hrename Hin) as [[Hin' _]|[old Hold]].
      - by apply (Hnone c).
      - by apply (rename_no_adjusted _ _ _ Hold). }
    rewrite Hfind in Hadj.
    destruct (with_columns_evals _ _ _ (Alias (Col "close") "adjusted_close")
                Hadj) as (col & Hev & Hget); [apply list_elem_of_here|].
    apply eval_Ok_alias in Hev as (col' & Hev & ->). simpl in Hget.
    cbn [eval] in Hev. apply bind_Ok in Hev as (cc & Hcc & [= <-]).
    simpl in Hget.
    assert (get_column "close" df2 = Ok cc) as Hclose2.
    { erewrite with_columns_untouched; [exact Hcc|exact Hadj|].
      intros e col He Hev. apply list_elem_of_singleton in He as ->.
      apply eval_alias_name in Hev. congruence. }
    destruct (with_columns_evals _ _ _ (Cast (Col "close") Float64) Hwith)
      as (col1 & Hev1 & Hget1); [apply list_elem_of_In; simpl; tauto|].
    destruct (with_columns_evals _ _ _ (Cast (Col "adjusted_close") Float64)
                Hwith)
      as (col2 & Hev2 & Hget2); [apply list_elem_of_In; simpl; tauto|].
    apply eval_Ok_cast in Hev1 as (c1 & Hc1 & Hn1 & Hm1).
    apply eval_Ok_cast in Hev2 as (c2 & Hc2 & Hn2 & Hm2).
    rewrite Hn1 in Hget1. rewrite Hn2 in Hget2.
    assert (c1 = cc) as -> by congruence.
    assert (c2 = cc) as -> by congruence.
    change (eval_cell (Cast (Col "adjusted_close") Float64))
      with (eval_cell (Cast (Col "close") Float64)) in Hm2.
    assert (col2.2 = col1.2) as Heq by congruence. rewrite Heq in Hget2.
    exists col1.2.
    rewrite !Hsel by (apply OUTPUT_COLUMNS_elem; simpl; tauto).
    by rewrite !Hsym.
Qed.

End NormalizerFacts.

Section Dispatch.

Context `{Library}.

Lemma normalize_dispatch now_utc source raw symbol df :
  normalize now_utc source raw symbol = Ok df →
  (source = "yfinance" ∧
   normalize_yfinance_daily now_utc raw symbol = Ok df) ∨
  (source = "alpha_vantage" ∧
   normalize_alpha_vantage_daily now_utc raw symbol = Ok df) ∨
  (source = "stooq" ∧ normalize_stooq_daily now_utc raw symbol = Ok df).
Proof.
  unfold normalize, NORMALIZERS.
  rewrite lookup_insert. case_decide as E1; [subst; tauto|].
  rewrite lookup_insert. case_decide as E2; [subst; tauto|].
  rewrite lookup_singleton. case_decide as E3; [subst; tauto|done].
Qed.

End Dispatch.

(** C6, with the partitioning column. For every supported source and
    every payload the normalizer accepts, the columns of the returned
    frame are those of the canonical schema followed by [symbol], and the
    adjusted close equals the close in every row when the payload carries
    no adjusted close of its own: for stooq always, for yfinance without
    an adjusted-close column, for alpha_vantage when no day has the member
    "5. adjusted close". *)
Theorem normalize_columns `{Library} (now_utc : Z) (source : string)
    (raw : Payload) (symbol : string) (df : Frame) :
  normalize now_utc source raw symbol = Ok df →
  source ∈ SUPPORTED_SOURCES ∧
  columns df = DAILY_OHLCV_COLUMNS ++ ["symbol"] ∧
  (no_adjusted_close source raw → adjusted_close_is_close df).
Proof.
  intros [[-> Hn]|[[-> Hn]|[-> Hn]]]%normalize_dispatch.
  - destruct (normalize_yfinance_daily_spec _ _ _ _ Hn) as (Hc & _ & Hadj).
    split; [apply list_elem_of_In; simpl; tauto|]. split; [done|].
    intros [?|[(_ & payload & -> & Hnone)|(? & _)]]; [done| |done].
    by eapply Hadj.
  - destruct (normalize_alpha_vantage_daily_spec _ _ _ _ Hn)
      as (Hc & _ & Hadj).
    split; [apply list_elem_of_In; simpl; tauto|]. split; [done|].
    intros [?|[(? & _)|(_ & data & entries & -> & Hs & Hlack)]];
      [done|done|].
    by eapply Hadj.
  - destruct (normalize_stooq_daily_spec _ _ _ _ Hn) as (Hc & Hadj & _).
    split; [apply list_elem_of_In; simpl; tauto|]. by split.
Qed.

Lemma normalize_columns_witness :
  ∃ df1 df2 df3,
    normalize (H := Samples.library) 0 "yfinance"
      PayloadFixtures.sample_yfinance_csv "AAPL" = Ok df1 ∧
    normalize (H := Samples.library) 0 "stooq"
      PayloadFixtures.sample_stooq_csv "AAPL" = Ok df2 ∧
    normalize (H := Samples.library) 0 "alpha_vantage"
      PayloadFixtures.sample_alpha_vantage_json "MSFT" = Ok df3 ∧
    columns df1 = DAILY_OHLCV_COLUMNS ++ ["symbol"] ∧
    columns df2 = DAILY_OHLCV_COLUMNS ++ ["symbol"] ∧
    columns df3 = DAILY_OHLCV_COLUMNS ++ ["symbol"] ∧
    adjusted_close_is_close df2.
Proof.
  destruct (normalize (H := Samples.library) 0 "yfinance"
              PayloadFixtures.sample_yfinance_csv "AAPL") as [df1|] eqn:E1;
    [|vm_compute in E1; discriminate E1].
  destruct (normalize (H := Samples.library) 0 "stooq"
              PayloadFixtures.sample_stooq_csv "AAPL") as [df2|] eqn:E2;
    [|vm_compute in E2; discriminate E2].
  destruct (normalize (H := Samples.library) 0 "alpha_vantage"
              PayloadFixtures.sample_alpha_vantage_json "MSFT")
    as [df3|] eqn:E3; [|vm_compute in E3; discriminate E3].
  exists df1, df2, df3.
  destruct (normalize_columns _ _ _ _ _ E1) as (_ & H1 & _).
  destruct (normalize_columns _ _ _ _ _ E2) as (_ & H2 & Hadj).
  destruct (normalize_columns _ _ _ _ _ E3) as (_ & H3 & _).
  repeat (split; [first [reflexivity | assumption]|]).
  apply Hadj. left. reflexivity.
Defined.

(** The frame a normalizer returns has ten columns: [symbol] comes with
    the nine of the canonical schema. *)
Lemma normalize_returns_symbol :
  ∃ df,
    normalize (H := Samples.library) 0 "yfinance"
      PayloadFixtures.sample_yfinance_csv "AAPL" = Ok df ∧
    "symbol" ∈ columns df ∧ ("symbol" ∉ DAILY_OHLCV_COLUMNS) ∧
    ¬ (∀ c, c ∈ columns df ↔ c ∈ DAILY_OHLCV_COLUMNS).
Proof.
  eexists. split; [vm_compute; reflexivity|].
  assert ("symbol" ∉ DAILY_OHLCV_COLUMNS) as Hnot
    by (apply (bool_decide_unpack _); vm_compute; reflexivity).
  assert ("symbol" ∈ columns
            [("date", [VDate 738887; VDate 738888; VDate 738889;
                       VDate 738890; VDate 738893]);
             ("open", PayloadFixtures.opens); ("high", PayloadFixtures.highs);
             ("low", PayloadFixtures.lows); ("close", PayloadFixtures.closes);
             ("adjusted_close", PayloadFixtures.closes);
             ("volume", PayloadFixtures.volumes);
             ("source", replicate 5 (VStr "yfinance"));
             ("ingested_at", replicate 5 (VDatetime 0));
             ("symbol", replicate 5 (VStr "AAPL"))]) as Hin
    by (apply (bool_decide_unpack _); vm_compute; reflexivity).
  split; [exact Hin|]. split; [exact Hnot|].
  intros Hall. apply Hnot. apply Hall. exact Hin.
Qed.

(** C7, source by source. The alpha_vantage and stooq normalizers return
    their rows in ascending order of date whatever the order of the
    payload; the yfinance normalizer returns its rows in the order of the
    payload. *)
Theorem normalize_order `{Library} (now_utc : Z) (source : string)
    (raw : Payload) (symbol : string) (df : Frame) :
  normalize now_utc source raw symbol = Ok df →
  (source = "alpha_vantage" ∨ source = "stooq" → ascending_by_date df) ∧
  (source = "yfinance" → in_payload_order raw df).
Proof.
  intros [[-> Hn]|[[-> Hn]|[-> Hn]]]%normalize_dispatch.
  - destruct (normalize_yfinance_daily_spec _ _ _ _ Hn) as (_ & Hord & _).
    split; [by intros [?|?]|done].
  - destruct (normalize_alpha_vantage_daily_spec _ _ _ _ Hn) as (_ & Hasc & _).
    by split.
  - destruct (normalize_stooq_daily_spec _ _ _ _ Hn) as (_ & _ & Hasc).
    by split.
Qed.

Lemma normalize_order_witness :
  ∃ df1 df2,
    normalize (H := Samples.library) 0 "alpha_vantage"
      PayloadFixtures.sample_alpha_vantage_json "MSFT" = Ok df1 ∧
    normalize (H := Samples.library) 0 "yfinance"
      PayloadFixtures.zoned_yfinance_csv "AAPL" = Ok df2 ∧
    ascending_by_date df1 ∧
    in_payload_order (H := Samples.library)
      PayloadFixtures.zoned_yfinance_csv df2.
Proof.
  destruct (normalize (H := Samples.library) 0 "alpha_vantage"
              PayloadFixtures.sample_alpha_vantage_json "MSFT")
    as [df1|] eqn:E1; [|vm_compute in E1; discriminate E1].
  destruct (normalize (H := Samples.library) 0 "yfinance"
              PayloadFixtures.zoned_yfinance_csv "AAPL")
    as [df2|] eqn:E2; [|vm_compute in E2; discriminate E2].
  exists df1, df2.
  destruct (normalize_order _ _ _ _ _ E1) as [Hasc _].
  destruct (normalize_order _ _ _ _ _ E2) as [_ Hord].
  split; [reflexivity|]. split; [reflexivity|].
  split; [apply Hasc; left; reflexivity | apply Hord; reflexivity].
Defined.

(** A yfinance payload with its days in descending order comes back in
    descending order. *)
Lemma normalize_yfinance_keeps_order :
  ∃ df,
    normalize (H := Samples.library) 0 "yfinance"
      PayloadFixtures.descending_yfinance_csv "AAPL" = Ok df ∧
    get_column "date" df =
      Ok [VDate 738893; VDate 738890; VDate 738889; VDate 738888;
          VDate 738887] ∧
    ¬ ascending_by_date df.
Proof.
  eexists. split; [vm_compute; reflexivity|].
  split; [vm_compute; reflexivity|].
  intros (cells & keys & Hc & Hk & Hs).
  vm_compute in Hc. injection Hc as <-.
  vm_compute in Hk. injection Hk as <-.
  apply Sorted_inv in Hs as [_ Hhd]. apply HdRel_inv in Hhd.
  simpl in Hhd. lia.
Qed.

(** * Further properties of the code *)

(** ** [utils/dates.py] *)

(** X1. Between a first date and a last date before [date.max],
    [trading_days_between] returns the weekdays of the range, both ends
    included, each once and in ascending order. *)
Theorem trading_days_between_weekdays (start end_ : Z) :
  MINORDINAL ≤ start → end_ < MAXORDINAL →
  ∃ days, trading_days_between start end_ = Ok days ∧
          StronglySorted Z.lt days ∧
          ∀ d, d ∈ days ↔ start ≤ d ≤ end_ ∧ weekday d < 5.
Proof.
  intros Hs He. exists (weekdays_between start end_).
  split; [by apply trading_days_between_ok|].
  split; [apply weekdays_between_sorted|].
  intros d. apply elem_of_weekdays_between.
Qed.

Lemma trading_days_between_weekdays_witness :
  MINORDINAL ≤ ymd2ord 2024 1 2 ∧ ymd2ord 2024 1 8 < MAXORDINAL ∧
  ∃ days, trading_days_between (ymd2ord 2024 1 2) (ymd2ord 2024 1 8) = Ok days ∧
          length days = 5%nat.
Proof.
  assert (MINORDINAL ≤ ymd2ord 2024 1 2) as H1 by (vm_compute; congruence).
  assert (ymd2ord 2024 1 8 < MAXORDINAL) as H2 by (vm_compute; congruence).
  split; [exact H1|]. split; [exact H2|].
  destruct (trading_days_between_weekdays _ _ H1 H2) as (days & Hd & _).
  exists days. split; [exact Hd|].
  vm_compute in Hd. injection Hd as <-. reflexivity.
Defined.

(** X2. A range that starts at a date and reaches [date.max] makes
    [trading_days_between] raise OverflowError: after the last day it
    steps one day on before it tests the end of the range. *)
Theorem trading_days_between_date_max (start end_ : Z) :
  MINORDINAL ≤ start → start ≤ end_ → MAXORDINAL ≤ end_ →
  trading_days_between start end_ = Raise OverflowError.
Proof. apply trading_days_between_overflow. Qed.

Lemma trading_days_between_date_max_witness :
  MINORDINAL ≤ MAXORDINAL - 1 ∧ MAXORDINAL - 1 ≤ MAXORDINAL ∧
  MAXORDINAL ≤ MAXORDINAL ∧
  trading_days_between (MAXORDINAL - 1) MAXORDINAL = Raise OverflowError.
Proof.
  assert (MINORDINAL ≤ MAXORDINAL - 1) as H1 by (vm_compute; congruence).
  assert (MAXORDINAL - 1 ≤ MAXORDINAL) as H2 by lia.
  assert (MAXORDINAL ≤ MAXORDINAL) as H3 by lia.
  split; [exact H1|]. split; [exact H2|]. split; [exact H3|].
  exact (trading_days_between_date_max _ _ H1 H2 H3).
Defined.

Section LastTradingDay.

Lemma weekday_succ d : weekday (d + 1) = (weekday d + 1) `mod` 7.
Proof.
  unfold weekday. rewrite Zplus_mod_idemp_l. f_equal. lia.
Qed.

Lemma most_recent_weekday_near d r : most_recent_weekday d r → d - 2 ≤ r.
Proof.
  intros (Hle & Hw & Hnone).
  destruct (decide (d - 2 ≤ r)) as [|Hfar]; [done|]. exfalso.
  pose proof (Hnone (d - 2) ltac:(lia)) as H2.
  pose proof (Hnone (d - 1) ltac:(lia)) as H1.
  pose proof (Hnone d ltac:(lia)) as H0.
  pose proof (weekday_range (d - 2)) as R2.
  pose proof (weekday_succ (d - 2)) as S1.
  pose proof (weekday_succ (d - 1)) as S0.
  replace (d - 2 + 1) with (d - 1) in S1 by lia.
  replace (d - 1 + 1) with d in S0 by lia.
  assert (weekday (d - 2) = 5 ∨ weekday (d - 2) = 6) as [E|E] by lia;
    rewrite E in S1.
  - change ((5 + 1) `mod` 7) with 6 in S1. rewrite S1 in S0.
    change ((6 + 1) `mod` 7) with 0 in S0. lia.
  - change ((6 + 1) `mod` 7) with 0 in S1. lia.
Qed.

End LastTradingDay.

(** X3. For a reference date, [last_trading_day] returns the most recent
    weekday on or before it, at most two days back; it never steps below
    [date.min], and applied to its own result it returns that result. *)
Theorem last_trading_day_weekday (today ref_date : Z) :
  valid_date ref_date →
  ∃ r, last_trading_day today (Some ref_date) = Ok r ∧
       most_recent_weekday ref_date r ∧
       ref_date - 2 ≤ r ∧ valid_date r ∧
       last_trading_day today (Some r) = Ok r.
Proof.
  intros Hv.
  destruct (last_trading_day_spec today (Some ref_date) Hv)
    as (r & Hr & Hmr & Hlo).
  simpl in Hmr. exists r. split; [done|]. split; [done|].
  split; [by apply most_recent_weekday_near|].
  destruct Hmr as (Hle & Hw & _). destruct Hv as [_ Hhi].
  split; [unfold valid_date; lia|].
  unfold last_trading_day. simpl.
  by rewrite bool_decide_eq_false_2 by lia.
Qed.

Lemma last_trading_day_weekday_witness :
  valid_date (ymd2ord 2024 1 7) ∧
  last_trading_day 0 (Some (ymd2ord 2024 1 7)) = Ok (ymd2ord 2024 1 5).
Proof.
  assert (valid_date (ymd2ord 2024 1 7)) as Hv
    by (vm_compute; split; congruence).
  split; [exact Hv|].
  destruct (last_trading_day_weekday 0 _ Hv) as (r & Hr & _).
  rewrite Hr. vm_compute in Hr. injection Hr as <-. reflexivity.
Defined.

(** ** [validation/checks.py], [validation/models.py], [validation/runner.py] *)

Lemma check_ohlc_consistency_result (df : DataFrame) (symbol : string) :
  ∃ r, check_ohlc_consistency df symbol = Ok r ∧
       check_name r = "ohlc_consistency" ∧
       status r ≠ FAIL ∧ details r = None ∧
       (status r = WARN ↔
          (∃ x, x ∈ df ∧ is_flat_bar x) ∨
          (∃ x, x ∈ df ∧ moves_without_volume x)).
Proof.
  unfold check_ohlc_consistency. rewrite !report_issue_spec. simpl.
  set (flat := List.filter _ df).
  set (zvm := List.filter _ df).
  assert ((0 < length flat)%nat ↔ ∃ x, x ∈ df ∧ is_flat_bar x) as Hflat.
  { unfold flat. rewrite filter_nonempty. f_equiv; intros x.
    unfold is_flat_bar. rewrite !andb_True. tauto. }
  assert ((0 < length zvm)%nat ↔ ∃ x, x ∈ df ∧ moves_without_volume x) as Hz.
  { unfold zvm. rewrite filter_nonempty. f_equiv; intros x.
    unfold moves_without_volume. rewrite andb_True, bool_decide_spec. tauto. }
  destruct (decide (0 < length flat)%nat) as [Hf|Hf];
    destruct (decide (0 < length zvm)%nat) as [Hv|Hv];
    rewrite ?(bool_decide_eq_true_2 _ Hf), ?(bool_decide_eq_false_2 _ Hf),
            ?(bool_decide_eq_true_2 _ Hv), ?(bool_decide_eq_false_2 _ Hv);
    cbn [app];
    (rewrite bool_decide_eq_false_2 by discriminate) ||
    (rewrite bool_decide_eq_true_2 by reflexivity);
    eexists; (split; [reflexivity|]); cbn [check_name status details];
    (split; [reflexivity|]); (split; [discriminate|]); (split; [reflexivity|]);
    rewrite <- Hflat, <- Hz; split; intros; try tauto; try discriminate.
Qed.

(** X4. [check_ohlc_consistency] never fails a frame and never raises: it
    warns exactly when some bar is flat or some bar without volume moved
    by more than the threshold, it passes otherwise, and it attaches no
    details. *)
Theorem check_ohlc_consistency_warns (df : DataFrame) (symbol : string) :
  ∃ r, check_ohlc_consistency df symbol = Ok r ∧
       check_name r = "ohlc_consistency" ∧
       status r ≠ FAIL ∧ details r = None ∧
       (status r = WARN ↔
          (∃ x, x ∈ df ∧ is_flat_bar x) ∨
          (∃ x, x ∈ df ∧ moves_without_volume x)).
Proof. apply check_ohlc_consistency_result. Qed.

(** X5. Data dated after today is current: when the latest date of the
    frame lies after today, [check_stale_data] passes with
    [days_behind = -1]. *)
Theorem check_stale_data_future (today : Z) (df : DataFrame)
    (symbol : string) (max_date : Z) :
  valid_date today →
  is_maximum max_date (date <$> df) →
  today < max_date →
  ∃ r, check_stale_data today df symbol = Ok r ∧
       status r = PASS ∧
       details r = Some [("latest_date", DString (isoformat max_date));
                         ("days_behind", DInt (-1))].
Proof.
  intros Hv Hmax Hlt. unfold check_stale_data.
  assert (df ≠ []) as Hne.
  { intros ->. destruct Hmax as [Hin _]. by apply elem_of_nil in Hin. }
  rewrite bool_decide_eq_false_2 by done.
  destruct (series_max_spec (date <$> df)) as (m & Hm & Hmax').
  { by destruct df. }
  assert (m = max_date) as -> by (eapply is_maximum_unique; eauto; done).
  rewrite Hm. cbn [of_option].
  destruct (last_trading_day_spec today None Hv) as (ref & Href & Hmr & _).
  rewrite Href. destruct Hmr as (Hle & _). simpl in Hle.
  change (Ok max_date ≫= ?k) with (k max_date). cbv beta.
  change (Ok ref ≫= ?k) with (k ref). cbv beta.
  rewrite trading_days_between_after by lia.
  eexists. split; [reflexivity|]. split; reflexivity.
Qed.

Lemma check_stale_data_future_witness :
  let today := ymd2ord 2024 1 5 in
  valid_date today ∧
  is_maximum (ymd2ord 2024 1 8) (date <$> Fixtures.sample_ohlcv_df) ∧
  today < ymd2ord 2024 1 8 ∧
  ∃ r, check_stale_data today Fixtures.sample_ohlcv_df "AAPL" = Ok r ∧
       status r = PASS ∧
       details r = Some [("latest_date", DString "2024-01-08");
                         ("days_behind", DInt (-1))].
Proof.
  intros today.
  assert (valid_date today) as Hv by (vm_compute; split; congruence).
  assert (is_maximum (ymd2ord 2024 1 8) (date <$> Fixtures.sample_ohlcv_df))
    as Hmax.
  { split; [do 4 right; by left|]. intros x Hx.
    repeat (apply elem_of_cons in Hx as [->|Hx]); [vm_compute; congruence..|].
    by apply elem_of_nil in Hx. }
  assert (today < ymd2ord 2024 1 8) as Hlt by (vm_compute; congruence).
  repeat (split; [assumption|]).
  destruct (check_stale_data_future today _ "AAPL" _ Hv Hmax Hlt)
    as (r & Er & Hs & Hd).
  exists r. split; [exact Er|]. rewrite Hs, Hd. vm_compute. split; reflexivity.
Defined.

(** X6. [check_trading_day_gaps] looks at the set of dates only: two
    frames with the same dates, in whatever order and however often each
    occurs, get the same result, or the same exception. *)
Theorem check_trading_day_gaps_date_set (df1 df2 : DataFrame)
    (symbol : string) :
  (∀ d, d ∈ date <$> df1 ↔ d ∈ date <$> df2) →
  check_trading_day_gaps df1 symbol = check_trading_day_gaps df2 symbol.
Proof.
  intros Hset. unfold check_trading_day_gaps.
  destruct df1 as [|r1 df1], df2 as [|r2 df2].
  - reflexivity.
  - exfalso. specialize (Hset (date r2)).
    eapply elem_of_nil, Hset. simpl. apply list_elem_of_here.
  - exfalso. specialize (Hset (date r1)).
    eapply elem_of_nil, Hset. simpl. apply list_elem_of_here.
  - rewrite !bool_decide_eq_false_2 by discriminate.
    set (l1 := merge_sort Z.le (date <$> r1 :: df1)).
    set (l2 := merge_sort Z.le (date <$> r2 :: df2)).
    assert (∀ x, x ∈ l1 ↔ x ∈ l2) as Hl.
    { intros x. unfold l1, l2. rewrite !elem_of_merge_sort. apply Hset. }
    assert (l1 ≠ []) as Hne1.
    { intros E. apply (elem_of_nil (date r1)). rewrite <- E.
      apply elem_of_merge_sort. simpl. apply list_elem_of_here. }
    assert (l2 ≠ []) as Hne2.
    { intros E. apply (elem_of_nil (date r2)). rewrite <- E.
      apply elem_of_merge_sort. simpl. apply list_elem_of_here. }
    destruct (series_min_spec l1 Hne1) as (a1 & Ea1 & Ha1).
    destruct (series_min_spec l2 Hne2) as (a2 & Ea2 & Ha2).
    destruct (series_max_spec l1 Hne1) as (b1 & Eb1 & Hb1).
    destruct (series_max_spec l2 Hne2) as (b2 & Eb2 & Hb2).
    assert (a1 = a2) as -> by (eapply is_minimum_unique; eauto).
    assert (b1 = b2) as -> by (eapply is_maximum_unique; eauto).
    rewrite Ea1, Ea2, Eb1, Eb2.
    assert (list_to_set l1 =@{gset Z} list_to_set l2) as ->.
    { apply set_eq. intros x. rewrite !elem_of_list_to_set. apply Hl. }
    reflexivity.
Qed.

Lemma check_trading_day_gaps_date_set_witness :
  let df1 := Fixtures.gap_df in
  let df2 := reverse Fixtures.gap_df ++ Fixtures.gap_df in
  (∀ d, d ∈ date <$> df1 ↔ d ∈ date <$> df2) ∧
  check_trading_day_gaps df1 "AAPL" = check_trading_day_gaps df2 "AAPL".
Proof.
  assert (∀ d, d ∈ date <$> Fixtures.gap_df ↔
               d ∈ date <$> (reverse Fixtures.gap_df ++ Fixtures.gap_df))
    as Hset.
  { intros d. rewrite fmap_app, elem_of_app, fmap_reverse, elem_of_reverse.
    tauto. }
  split; [exact Hset|].
  exact (check_trading_day_gaps_date_set _ _ "AAPL" Hset).
Defined.

Lemma check_trading_day_gaps_name df symbol r :
  check_trading_day_gaps df symbol = Ok r → check_name r = "trading_day_gaps".
Proof.
  unfold check_trading_day_gaps. intros H.
  case_bool_decide; [by injection H as <-|].
  bind_inv H. case_bool_decide; by injection H as <-.
Qed.

Lemma check_stale_data_name today df symbol r :
  check_stale_data today df symbol = Ok r → check_name r = "stale_data".
Proof.
  unfold check_stale_data. intros H.
  case_bool_decide; [by injection H as <-|].
  bind_inv H. repeat case_bool_decide; by injection H as <-.
Qed.

Lemma check_trading_day_gaps_nonempty df symbol r :
  check_trading_day_gaps df symbol = Ok r → status r ≠ FAIL → df ≠ [].
Proof. intros H Hs ->. injection H as <-. by apply Hs. Qed.

Lemma overall_status_cases (report : CheckReport) (s : CheckStatus) :
  (overall_status report = PASS →
   Forall (λ r, status r = PASS) (results report)) ∧
  (s = FAIL → (∃ r, r ∈ results report ∧ status r = s) →
   overall_status report = FAIL).
Proof.
  unfold overall_status. split.
  - intros H. apply Forall_forall. intros r Hr.
    repeat case_bool_decide; try discriminate.
    destruct (status r) eqn:E; [done| |];
      exfalso; [apply H1 | apply H0]; rewrite <- E;
      by apply list_elem_of_fmap_2.
  - intros -> (r & Hr & E). rewrite bool_decide_eq_true_2; [done|].
    rewrite <- E. by apply list_elem_of_fmap_2.
Qed.

(** X7. A report of [run_all_checks] carries the symbol, the time it was
    given and the four results in the order of [ALL_CHECKS]. Its overall
    status is FAIL whenever a row has a price issue, and it is PASS only
    for a frame with rows, none of them with a price issue, flat, or
    moving without volume. *)
Theorem run_all_checks_overall (now_utc today : Z) (df : DataFrame)
    (symbol : string) (report : CheckReport) :
  run_all_checks now_utc today df symbol = Ok report →
  report_symbol report = symbol ∧ timestamp report = now_utc ∧
  check_name <$> results report = CHECK_NAMES ∧
  (price_issue df → overall_status report = FAIL) ∧
  (overall_status report = PASS →
     df ≠ [] ∧ ¬ price_issue df ∧
     ¬ (∃ x, x ∈ df ∧ is_flat_bar x) ∧
     ¬ (∃ x, x ∈ df ∧ moves_without_volume x)).
Proof.
  unfold run_all_checks, ALL_CHECKS. intros H.
  apply bind_Ok in H as (rs & Hrs & [= <-]).
  apply mapM_Ok in Hrs.
  inversion Hrs as [|? g ? rs1 Hg H1]; subst; clear Hrs.
  inversion H1 as [|? p ? rs2 Hp H2]; subst; clear H1.
  inversion H2 as [|? s ? rs3 Hs H3]; subst; clear H2.
  inversion H3 as [|? o ? rs4 Ho H4]; subst; clear H3.
  inversion H4; subst; clear H4.
  cbn [report_symbol timestamp results].
  split; [done|]. split; [done|]. split.
  { cbn [fmap list_fmap]. unfold CHECK_NAMES.
    rewrite (check_trading_day_gaps_name _ _ _ Hg),
            (check_stale_data_name _ _ _ _ Hs).
    rewrite check_price_sanity_issues in Hp.
    destruct (check_ohlc_consistency_result df symbol)
      as (o' & Ho' & Hn & _).
    rewrite Ho in Ho'. injection Ho' as <-. rewrite Hn.
    cbv zeta in Hp. by case_bool_decide; injection Hp as <-. }
  assert (status p = FAIL ↔ price_issue df) as Hprice.
  { rewrite check_price_sanity_issues in Hp. cbv zeta in Hp.
    destruct (triggered_descriptions_nil df) as [Hnil Hcons].
    case_bool_decide; injection Hp as <-; cbn [status]; split; try done.
    - intros Hi. by apply Hnil in Hi.
    - intros _. by apply Hcons. }
  split.
  { intros Hi.
    apply (proj2 (overall_status_cases _ FAIL) eq_refl).
    exists p. split; [|by apply Hprice].
    cbn [results]. apply list_elem_of_further, list_elem_of_here. }
  intros Hpass.
  apply (proj1 (overall_status_cases _ PASS)) in Hpass.
  cbn [results] in Hpass.
  inversion Hpass as [|? ? Pg Hpass1]; subst.
  inversion Hpass1 as [|? ? Pp Hpass2]; subst.
  inversion Hpass2 as [|? ? Ps Hpass3]; subst.
  inversion Hpass3 as [|? ? Po _]; subst.
  split.
  { eapply check_trading_day_gaps_nonempty; [exact Hg|]. by rewrite Pg. }
  split.
  { intros Hi. apply Hprice in Hi. by rewrite Pp in Hi. }
  destruct (check_ohlc_consistency_result df symbol)
    as (o' & Ho' & _ & _ & _ & Hw).
  rewrite Ho in Ho'. injection Ho' as <-.
  split; intros Hx;
    (assert (status o = WARN) as E by (apply Hw; tauto));
    by rewrite Po in E.
Qed.

Lemma run_all_checks_overall_witness :
  let today := ymd2ord 2024 1 9 in
  ∃ report,
    run_all_checks 0 today Fixtures.sample_ohlcv_df "AAPL" = Ok report ∧
    check_name <$> results report = CHECK_NAMES ∧
    overall_status report = PASS ∧
    ¬ price_issue Fixtures.sample_ohlcv_df.
Proof.
  eexists. split; [vm_compute; reflexivity|].
  match goal with
  | |- ?names = _ ∧ ?st = PASS ∧ _ =>
      assert (st = PASS) as Hpass by (vm_compute; reflexivity)
  end.
  split; [vm_compute; reflexivity|]. split; [exact Hpass|].
  refine (proj1 (proj2 (proj2 (proj2 (proj2 (proj2
    (run_all_checks_overall 0 (ymd2ord 2024 1 9) Fixtures.sample_ohlcv_df
       "AAPL" _ _)))) Hpass))).
  vm_compute. reflexivity.
Defined.

(** X8. An empty frame gets a report whatever the clock shows, and the
    report fails: the gap check and the stale-data check fail for want
    of data, the price and OHLC checks pass. *)
Theorem run_all_checks_empty (now_utc today : Z) (symbol : string) :
  ∃ report, run_all_checks now_utc today [] symbol = Ok report ∧
            status <$> results report = [FAIL; PASS; FAIL; PASS] ∧
            overall_status report = FAIL.
Proof.
  eexists. split; [reflexivity|]. split; reflexivity.
Qed.

(** X9. The overall status of a report with no results is PASS, and the
    overall status of the results of two reports put together is the
    worse of the two overall statuses, whatever symbol and time the
    reports carry. *)
Theorem overall_status_app (s s1 s2 : string) (t t1 t2 : Z)
    (l1 l2 : list CheckResult) :
  overall_status (mkCheckReport s t []) = PASS ∧
  overall_status (mkCheckReport s t (l1 ++ l2)) =
    worse (overall_status (mkCheckReport s1 t1 l1))
          (overall_status (mkCheckReport s2 t2 l2)).
Proof.
  split; [reflexivity|].
  unfold overall_status. cbn [results]. rewrite fmap_app.
  repeat case_bool_decide; try reflexivity;
    repeat match goal with
    | H : _ ∈ _ ++ _ |- _ => apply elem_of_app in H
    | H : ¬ _ ∈ _ ++ _ |- _ => rewrite elem_of_app in H
    end; tauto.
Qed.

Lemma existsb_filter_nonempty (kind : Row → bool) (df : DataFrame) :
  existsb kind df = bool_decide (0 < length (List.filter kind df))%nat.
Proof.
  induction df as [|r df IH]; [done|].
  cbn [existsb List.filter]. destruct (kind r); cbn [orb length]; [|exact IH].
  symmetry. apply bool_decide_eq_true_2. lia.
Qed.

Lemma triggered_descriptions_length df :
  length (triggered_descriptions df) = kinds_triggered df.
Proof.
  unfold triggered_descriptions, kinds_triggered, issue_kinds.
  cbn [omap list_omap List.filter fst].
  rewrite !existsb_filter_nonempty.
  repeat case_bool_decide; reflexivity.
Qed.

(** X10. [check_price_sanity] counts kinds of issue, not rows: a failing
    result carries as [issue_count] the number of issue kinds that some
    row triggers, between 1 and 4, and a passing result carries no
    details. *)
Theorem check_price_sanity_issue_count (df : DataFrame) (symbol : string) :
  ∃ r, check_price_sanity df symbol = Ok r ∧
       check_name r = "price_sanity" ∧
       (status r = PASS ∨ status r = FAIL) ∧
       (status r = PASS → kinds_triggered df = 0%nat ∧ details r = None) ∧
       (status r = FAIL →
          (1 ≤ kinds_triggered df ≤ 4)%nat ∧
          details r =
            Some [("issue_count", DInt (Z.of_nat (kinds_triggered df)))]).
Proof.
  rewrite check_price_sanity_issues. cbv zeta.
  rewrite <- triggered_descriptions_length.
  assert (length (triggered_descriptions df) ≤ 4)%nat as Hle.
  { unfold triggered_descriptions, issue_kinds. cbn [omap list_omap].
    repeat case_bool_decide; cbn [length]; lia. }
  case_bool_decide as Hnil; eexists; (split; [reflexivity|]);
    cbn [check_name status details]; (split; [reflexivity|]).
  - split; [by left|]. split; [|discriminate].
    intros _. by rewrite Hnil.
  - split; [by right|]. split; [discriminate|].
    intros _. split; [|reflexivity].
    destruct (triggered_descriptions df); [done|]. cbn [length] in *. lia.
Qed.

(** ** [processing/partitioner.py] *)

Section PartitionerRows.

Import Partitioner.

Lemma put_files_other (writes : list (string * ParquetFile)) fs p :
  p ∉ writes.*1 → put_files fs writes !! p = fs !! p.
Proof.
  intros Hp. rewrite put_files_union. apply lookup_union_r.
  apply not_elem_of_list_to_map_1.
  by rewrite fmap_reverse, elem_of_reverse.
Qed.

Lemma put_files_overwrite (writes : list (string * ParquetFile)) fs fs' p :
  p ∈ writes.*1 → put_files fs writes !! p = put_files fs' writes !! p.
Proof.
  intros Hp. rewrite !put_files_union, !lookup_union.
  assert (is_Some ((list_to_map (reverse writes) : gmap _ _) !! p)) as [f ->].
  { apply elem_of_dom. rewrite dom_list_to_map_L, fmap_reverse.
    apply elem_of_list_to_set. by rewrite reverse_Permutation. }
  by destruct (fs !! p), (fs' !! p).
Qed.

Lemma group_writes_columns df processed_dir dataset p f :
  (p, f) ∈ group_writes df processed_dir dataset →
  file_columns f = _PARQUET_COLUMNS.
Proof.
  unfold group_writes. intros H.
  apply list_elem_of_fmap in H as (g & [= -> ->] & _). reflexivity.
Qed.

Lemma put_files_from_writes (writes : list (string * ParquetFile)) fs p f :
  p ∈ writes.*1 → put_files fs writes !! p = Some f → (p, f) ∈ writes.
Proof.
  intros Hp. rewrite put_files_union, lookup_union.
  assert (is_Some ((list_to_map (reverse writes) : gmap _ _) !! p)) as [f' E].
  { apply elem_of_dom. rewrite dom_list_to_map_L, fmap_reverse.
    apply elem_of_list_to_set. by rewrite reverse_Permutation. }
  rewrite E. intros Hf.
  assert (f' = f) as -> by (destruct (fs !! p); by injection Hf).
  apply elem_of_list_to_map_2 in E. by rewrite elem_of_reverse in E.
Qed.

Lemma sum_list_fmap_add {A : Type} (g h : A → nat) (l : list A) :
  sum_list ((λ k, g k + h k)%nat <$> l) =
    (sum_list (g <$> l) + sum_list (h <$> l))%nat.
Proof. induction l as [|x l IH]; [done|]. cbn. rewrite IH. lia. Qed.

Lemma sum_list_indicator (keys : list (string * string * Z)) k :
  NoDup keys → k ∈ keys →
  sum_list ((λ k', if decide (k = k') then 1 else 0)%nat <$> keys) = 1%nat.
Proof.
  induction 1 as [|k0 keys Hnin Hnd IH]; intros Hin.
  - by apply elem_of_nil in Hin.
  - cbn. destruct (decide (k = k0)) as [->|Hne].
    + assert (sum_list ((λ k', if decide (k0 = k') then 1 else 0)%nat
                          <$> keys) = 0%nat) as ->; [|done].
      clear IH Hnd Hin. induction keys as [|k1 keys IH]; [done|].
      cbn. rewrite decide_False.
      * apply IH. intros H. apply Hnin. by apply list_elem_of_further.
      * intros ->. apply Hnin. apply list_elem_of_here.
    + apply elem_of_cons in Hin as [?|Hin]; [done|]. by rewrite IH.
Qed.

Lemma sum_group_rows (keys : list (string * string * Z)) (df : DataFrame) :
  NoDup keys → (∀ r, r ∈ df → partition_key r ∈ keys) →
  sum_list ((λ k, length (group_rows df k)) <$> keys) = length df.
Proof.
  intros Hnd. induction df as [|r df IH]; intros Hkeys.
  - clear. induction keys as [|k keys IH]; [done|]. cbn in *. exact IH.
  - assert ((λ k, length (group_rows (r :: df) k)) <$> keys =
            (λ k, (if decide (partition_key r = k) then 1 else 0) +
                  length (group_rows df k))%nat <$> keys) as ->.
    { apply list_fmap_ext. intros _ k _. unfold group_rows.
      rewrite filter_cons. by destruct (decide (partition_key r = k)). }
    rewrite sum_list_fmap_add, IH, sum_list_indicator; [done|done| |].
    + apply Hkeys, list_elem_of_here.
    + intros r' Hr'. by apply Hkeys, list_elem_of_further.
Qed.

End PartitionerRows.

(** X11. [write_partitioned] replaces, it does not merge: the file at
    every path it returns holds the Parquet columns and whatever the
    batch put there, the same for any earlier content of the storage, and
    every file at another path is left as it was. *)
Theorem write_partitioned_replaces (df : DataFrame)
    (processed_dir dataset : string)
    (fs : gmap string Partitioner.ParquetFile) :
  let out := Partitioner.write_partitioned df processed_dir dataset fs in
  (∀ p, p ∉ out.2 → out.1 !! p = fs !! p) ∧
  (∀ p, p ∈ out.2 →
     ∃ f, out.1 !! p = Some f ∧
          Partitioner.file_columns f = Partitioner._PARQUET_COLUMNS ∧
          ∀ fs', (Partitioner.write_partitioned df processed_dir dataset
                    fs').1 !! p = Some f).
Proof.
  cbv zeta. rewrite write_partitioned_unfold. cbn [fst snd]. split.
  - intros p Hp. by apply put_files_other.
  - intros p Hp.
    destruct (put_files_written _ fs p Hp) as [f Hf].
    exists f. split; [done|]. split.
    + eapply group_writes_columns. by eapply put_files_from_writes.
    + intros fs'. rewrite write_partitioned_unfold. cbn [fst].
      rewrite <- Hf. by apply put_files_overwrite.
Qed.

(** X12. With symbols and sources that are each one path part, no row is
    lost and none is written twice: every row of the batch is a row of
    the file of its own partition, and the files written hold as many
    rows together as the batch has. *)
Theorem write_partitioned_rows (df : DataFrame)
    (processed_dir dataset : string)
    (fs : gmap string Partitioner.ParquetFile) :
  Forall (λ r, Partitioner.one_part (symbol r) ∧
               Partitioner.one_part (source r)) df →
  let out := Partitioner.write_partitioned df processed_dir dataset fs in
  let rows_at p :=
    from_option (λ f, length (Partitioner.file_rows f)) 0%nat (out.1 !! p) in
  sum_list (rows_at <$> out.2) = length df ∧
  ∀ r, r ∈ df →
    let p := Partitioner.out_path processed_dir dataset
               (Partitioner.partition_key r) in
    p ∈ out.2 ∧
    ∃ f, out.1 !! p = Some f ∧
         Partitioner.select_parquet r ∈ Partitioner.file_rows f.
Proof.
  intros Hclean. cbv zeta. rewrite write_partitioned_unfold. cbn [fst snd].
  rewrite group_writes_paths.
  pose proof (out_path_NoDup df processed_dir dataset Hclean) as Hnd.
  assert (∀ key, key ∈ partition_keys df →
            put_files fs (group_writes df processed_dir dataset)
              !! Partitioner.out_path processed_dir dataset key =
            Some (Partitioner.mkParquetFile Partitioner._PARQUET_COLUMNS
                    (Partitioner.select_parquet <$> group_rows df key)))
    as Hfile.
  { intros key Hkey. apply put_files_lookup.
    - by rewrite group_writes_paths.
    - by apply elem_of_group_writes. }
  split.
  - rewrite <- list_fmap_compose.
    etransitivity; [|apply (sum_group_rows (partition_keys df) df)].
    + f_equal. apply list_fmap_ext. intros i key Hi. cbn. rewrite Hfile.
      * cbn. by rewrite length_fmap.
      * by eapply list_elem_of_lookup_2.
    + apply partition_keys_NoDup.
    + intros r Hr. apply elem_of_partition_keys. by exists r.
  - intros r Hr.
    assert (Partitioner.partition_key r ∈ partition_keys df) as Hkey
      by (apply elem_of_partition_keys; by exists r).
    split; [by apply list_elem_of_fmap_2|].
    eexists. split; [by apply Hfile|]. cbn.
    apply list_elem_of_fmap_2. unfold group_rows.
    by apply list_elem_of_filter.
Qed.

Lemma write_partitioned_rows_witness :
  let df :=
    Fixtures.bar (ymd2ord 2023 12 29) 148 149 147 148.5 900000
      :: Fixtures.sample_ohlcv_df in
  let out :=
    Partitioner.write_partitioned df "processed" Partitioner.default_dataset ∅ in
  Forall (λ r, Partitioner.one_part (symbol r) ∧
               Partitioner.one_part (source r)) df ∧
  sum_list ((λ p, from_option (λ f, length (Partitioner.file_rows f)) 0%nat
                    (out.1 !! p)) <$> out.2) = 6%nat.
Proof.
  intros df out.
  assert (Forall (λ r, Partitioner.one_part (symbol r) ∧
                       Partitioner.one_part (source r)) df) as Hclean
    by (repeat constructor).
  split; [exact Hclean|].
  exact (proj1 (write_partitioned_rows df "processed"
                  Partitioner.default_dataset ∅ Hclean)).
Defined.

(** X13. Partitions whose symbols and sources are each one path part
    have a file of their own: two partition keys get the same path only
    when they are the same key. *)
Theorem out_path_one_to_one (processed_dir dataset : string)
    (sym1 src1 sym2 src2 : string) (y1 y2 : Z) :
  Partitioner.one_part sym1 → Partitioner.one_part src1 →
  Partitioner.one_part sym2 → Partitioner.one_part src2 →
  Partitioner.out_path processed_dir dataset (sym1, src1, y1) =
    Partitioner.out_path processed_dir dataset (sym2, src2, y2) ↔
  (sym1, src1, y1) = (sym2, src2, y2).
Proof.
  intros H1 H2 H3 H4. split.
  - by apply out_path_inj.
  - by intros [= -> -> ->].
Qed.

Lemma out_path_one_to_one_witness :
  Partitioner.out_path "processed" "daily_ohlcv" ("AAPL", "yfinance", 2024) ≠
  Partitioner.out_path "processed" "daily_ohlcv" ("AAPL", "stooq", 2024).
Proof.
  intros E.
  apply (out_path_one_to_one "processed" "daily_ohlcv"
           "AAPL" "yfinance" "AAPL" "stooq" 2024 2024) in E;
    [discriminate E|reflexivity..].
Defined.

(** X14. A symbol or source that holds a "/" can share its file with
    another partition: the key of symbol [a/source=b] and source [c] and
    the key of symbol [a] and source [b/source=c] differ and get the same
    path. *)
Theorem out_path_collision (processed_dir dataset a b c : string) (y : Z) :
  let key1 := (a +:+ "/source=" +:+ b, c, y) in
  let key2 := (a, b +:+ "/source=" +:+ c, y) in
  key1 ≠ key2 ∧
  Partitioner.out_path processed_dir dataset key1 =
    Partitioner.out_path processed_dir dataset key2.
Proof.
  cbv zeta. split.
  - intros [= E _]. apply (f_equal String.length) in E.
    rewrite !string_app_length in E. cbn in E. lia.
  - unfold Partitioner.out_path.
    repeat rewrite string_app_assoc. reflexivity.
Qed.

(** ** [cli/crossvalidate.py] *)

Section ComparisonFacts.

Import CrossValidate.

Lemma diff_cols_eq src_a df_a src_b df_b tolerance :
  diff_cols (_print_pairwise_comparison src_a df_a src_b df_b tolerance) =
  let joined := join_on_date df_a df_b in
  [("open", (λ p, pct_diff (open p.1) (open p.2)) <$> joined);
   ("high", (λ p, pct_diff (high p.1) (high p.2)) <$> joined);
   ("low", (λ p, pct_diff (low p.1) (low p.2)) <$> joined);
   ("close", (λ p, pct_diff (close p.1) (close p.2)) <$> joined)].
Proof.
  unfold _print_pairwise_comparison. cbv zeta.
  cbn [diff_cols]. rewrite join_columns_query.
  assert (∀ col, col ∈ ["open"; "high"; "low"; "close"] →
    bool_decide
      (col ∈ QUERY_COLUMNS ++
         ["open" +:+ "_" +:+ src_b; "high" +:+ "_" +:+ src_b;
          "low" +:+ "_" +:+ src_b; "close" +:+ "_" +:+ src_b;
          "adjusted_close" +:+ "_" +:+ src_b; "volume" +:+ "_" +:+ src_b] ∧
       col +:+ "_" +:+ src_b ∈ QUERY_COLUMNS ++
         ["open" +:+ "_" +:+ src_b; "high" +:+ "_" +:+ src_b;
          "low" +:+ "_" +:+ src_b; "close" +:+ "_" +:+ src_b;
          "adjusted_close" +:+ "_" +:+ src_b; "volume" +:+ "_" +:+ src_b])
    = true) as Hin.
  { intros col Hcol. apply bool_decide_eq_true_2.
    rewrite !elem_of_app.
    repeat (apply elem_of_cons in Hcol as [->|Hcol]);
      [| | | |by apply elem_of_nil in Hcol];
      (split; [left | right]; apply list_elem_of_In; simpl; tauto). }
  cbn [omap list_omap].
  rewrite !Hin by (apply list_elem_of_In; simpl; tauto). reflexivity.
Qed.

Lemma zip_with_orb_fmap {A : Type} (f g : A → bool) (l : list A) :
  zip_with orb (f <$> l) (g <$> l) = (λ x, f x || g x) <$> l.
Proof. induction l as [|x l IH]; [done|]. cbn. by rewrite IH. Qed.

Lemma filter_id_fmap {A : Type} (f : A → bool) (l : list A) :
  length (List.filter id (f <$> l)) = length (List.filter f l).
Proof.
  induction l as [|x l IH]; [done|].
  simpl in *. unfold id in *.
  destruct (f x); simpl; [f_equal|]; exact IH.
Qed.

Lemma exceed_count_eq src_a df_a src_b df_b tolerance :
  exceed_count (_print_pairwise_comparison src_a df_a src_b df_b tolerance) =
  Some (length (List.filter (row_exceeds tolerance)
                  (join_on_date df_a df_b))).
Proof.
  pose proof (diff_cols_eq src_a df_a src_b df_b tolerance) as Hd.
  unfold _print_pairwise_comparison in *. cbv zeta in *.
  cbn [diff_cols exceed_count] in *. rewrite Hd.
  rewrite bool_decide_eq_false_2 by discriminate.
  cbn [fmap list_fmap foldl snd option_fmap option_map].
  change (list_fmap ?A ?B ?f ?l) with (f <$> l).
  rewrite <- !list_fmap_compose, !zip_with_orb_fmap, filter_id_fmap.
  reflexivity.
Qed.

Lemma size_date_set_cons (r : Row) (df : DataFrame) (B : gset Z) :
  date r ∉ date <$> df →
  size (date_set (r :: df) ∩ B) =
    ((if bool_decide (date r ∈ B) then 1 else 0) + size (date_set df ∩ B))%nat.
Proof.
  intros Hnew. unfold date_set. cbn [fmap list_fmap list_to_set].
  change (list_fmap ?A ?B ?f ?l) with (f <$> l).
  case_bool_decide as HB.
  - assert (({[date r]} ∪ list_to_set (date <$> df)) ∩ B =@{gset Z}
            {[date r]} ∪ (list_to_set (date <$> df) ∩ B)) as ->.
    { apply set_eq. intros x.
      rewrite !elem_of_intersection, !elem_of_union, elem_of_intersection,
        elem_of_singleton.
      split; [tauto|]. intros [->|?]; tauto. }
    rewrite size_union, size_singleton; [done|].
    apply disjoint_singleton_l. rewrite elem_of_intersection.
    rewrite elem_of_list_to_set. tauto.
  - assert (({[date r]} ∪ list_to_set (date <$> df)) ∩ B =@{gset Z}
            list_to_set (date <$> df) ∩ B) as ->; [|done].
    apply set_eq. intros x.
    rewrite !elem_of_intersection, !elem_of_union, elem_of_singleton.
    split; [|tauto]. intros [[->|?] ?]; tauto.
Qed.

Lemma matches_unique (d : Z) (df : DataFrame) :
  NoDup (date <$> df) →
  length (filter (λ rb, date rb = d) df) =
    if bool_decide (d ∈ date <$> df) then 1%nat else 0%nat.
Proof.
  induction df as [|r df IH]; [done|].
  cbn [fmap list_fmap]. change (list_fmap ?A ?B ?f ?l) with (f <$> l).
  intros Hnd. apply NoDup_cons in Hnd as [Hnew Hnd].
  rewrite filter_cons. destruct (decide (date r = d)) as [<-|Hne].
  - cbn [length]. rewrite IH by done.
    rewrite (bool_decide_eq_false_2 _ Hnew).
    rewrite bool_decide_eq_true_2; [done|]. apply list_elem_of_here.
  - rewrite IH by done.
    rewrite (bool_decide_ext (d ∈ date r :: (date <$> df))
                             (d ∈ date <$> df)); [done|].
    rewrite elem_of_cons. split; [|tauto]. intros [->|?]; [done|tauto].
Qed.

Lemma join_on_date_length (df_a df_b : DataFrame) :
  NoDup (date <$> df_a) → NoDup (date <$> df_b) →
  length (join_on_date df_a df_b) = size (date_set df_a ∩ date_set df_b).
Proof.
  intros Ha Hb. induction df_a as [|ra df_a IH].
  - unfold date_set. cbn. by rewrite intersection_empty_l_L, size_empty.
  - cbn [fmap list_fmap] in Ha.
    change (list_fmap ?A ?B ?f ?l) with (f <$> l) in Ha.
    apply NoDup_cons in Ha as [Hnew Ha].
    rewrite size_date_set_cons by done. rewrite <- IH by done.
    unfold join_on_date. cbn [mbind list_bind].
    change (list_bind ?A ?B ?f ?l) with (l ≫= f).
    rewrite length_app. f_equal.
    transitivity (length (filter (λ rb, date rb = date ra) df_b)).
    + generalize (filter (λ rb, date rb = date ra) df_b). intros l.
      induction l as [|x l IHl]; [done|]. cbn in *. by rewrite IHl.
    + rewrite (matches_unique (date ra) df_b Hb).
      rewrite (bool_decide_ext (date ra ∈ date <$> df_b)
                               (date ra ∈ date_set df_b)); [done|].
      unfold date_set. by rewrite elem_of_list_to_set.
Qed.

End ComparisonFacts.

(** X15. The coverage counts of a pairwise comparison split the dates of
    each frame: the common dates and the dates only in the first frame
    are the distinct dates of the first frame, the common dates and the
    dates only in the second frame those of the second; exchanging the
    frames exchanges the two "only" counts and keeps the common count. *)
Theorem pairwise_comparison_coverage (src_a src_b : string)
    (df_a df_b : DataFrame) (tolerance : float) :
  let c :=
    CrossValidate._print_pairwise_comparison src_a df_a src_b df_b tolerance in
  let c' :=
    CrossValidate._print_pairwise_comparison src_b df_b src_a df_a tolerance in
  (CrossValidate.common c + CrossValidate.only_a c)%nat = size (date_set df_a) ∧
  (CrossValidate.common c + CrossValidate.only_b c)%nat = size (date_set df_b) ∧
  CrossValidate.common c' = CrossValidate.common c ∧
  CrossValidate.only_a c' = CrossValidate.only_b c ∧
  CrossValidate.only_b c' = CrossValidate.only_a c.
Proof.
  cbv zeta. unfold CrossValidate._print_pairwise_comparison. cbv zeta.
  cbn [CrossValidate.common CrossValidate.only_a CrossValidate.only_b].
  fold (date_set df_a). fold (date_set df_b).
  set (A := date_set df_a). set (B := date_set df_b).
  split; [|split; [|split; [|done]]].
  - rewrite <- size_union.
    + f_equal. apply set_eq. intros x.
      rewrite elem_of_union, elem_of_intersection, elem_of_difference.
      destruct (decide (x ∈ B)); tauto.
    + intros x. rewrite elem_of_intersection, elem_of_difference. tauto.
  - rewrite <- size_union.
    + f_equal. apply set_eq. intros x.
      rewrite elem_of_union, elem_of_intersection, elem_of_difference.
      destruct (decide (x ∈ A)); tauto.
    + intros x. rewrite elem_of_intersection, elem_of_difference. tauto.
  - f_equal. apply set_eq. intros x. rewrite !elem_of_intersection. tauto.
Qed.

(** X16. The count of discrepancies of a pairwise comparison is always
    given, and it is the number of joined rows in which the open, the
    high, the low or the close differs by more than the tolerance; the
    adjusted close and the volume have no part in it. *)
Theorem pairwise_comparison_exceed_count (src_a src_b : string)
    (df_a df_b : DataFrame) (tolerance : float) :
  CrossValidate.exceed_count
    (CrossValidate._print_pairwise_comparison src_a df_a src_b df_b tolerance)
  = Some (length (List.filter (row_exceeds tolerance)
                    (CrossValidate.join_on_date df_a df_b))).
Proof. apply exceed_count_eq. Qed.

(** X17. When each frame has one row per date, the join has one row per
    common date: every series of differences has as many entries as
    there are common dates, and the count of discrepancies is at most
    that number. *)
Theorem pairwise_comparison_unique_dates (src_a src_b : string)
    (df_a df_b : DataFrame) (tolerance : float) :
  NoDup (date <$> df_a) → NoDup (date <$> df_b) →
  let c :=
    CrossValidate._print_pairwise_comparison src_a df_a src_b df_b tolerance in
  length (CrossValidate.join_on_date df_a df_b) = CrossValidate.common c ∧
  Forall (λ d : string * list float, length d.2 = CrossValidate.common c)
         (CrossValidate.diff_cols c) ∧
  ∃ n, CrossValidate.exceed_count c = Some n ∧
       (n ≤ CrossValidate.common c)%nat.
Proof.
  intros Ha Hb. cbv zeta.
  assert (length (CrossValidate.join_on_date df_a df_b) =
          CrossValidate.common
            (CrossValidate._print_pairwise_comparison src_a df_a src_b df_b
               tolerance)) as Hlen.
  { rewrite join_on_date_length by done. reflexivity. }
  split; [exact Hlen|]. split.
  - rewrite diff_cols_eq. cbv zeta. rewrite <- Hlen.
    repeat constructor; cbn [snd]; by rewrite length_fmap.
  - rewrite exceed_count_eq. eexists. split; [reflexivity|].
    rewrite <- Hlen. apply List.filter_length_le.
Qed.

Lemma pairwise_comparison_unique_dates_witness :
  let df := Fixtures.sample_ohlcv_df in
  NoDup (date <$> df) ∧
  CrossValidate.common
    (CrossValidate._print_pairwise_comparison "yfinance" df "stooq" (take 3 df)
       1) = 3%nat ∧
  length (CrossValidate.join_on_date df (take 3 df)) = 3%nat.
Proof.
  intros df.
  assert (NoDup (date <$> df)) as Ha.
  { apply (bool_decide_unpack _). vm_compute. reflexivity. }
  assert (NoDup (date <$> take 3 df)) as Hb.
  { apply (bool_decide_unpack _). vm_compute. reflexivity. }
  split; [exact Ha|].
  destruct (pairwise_comparison_unique_dates "yfinance" "stooq" df (take 3 df)
              1%float Ha Hb) as (Hlen & _).
  split; [|vm_compute; reflexivity].
  rewrite <- Hlen. vm_compute. reflexivity.
Defined.

(** ** [processing/normalizer.py] *)

Section NormalizerErrors.

Context `{Library}.

Variable now_utc : Z.

Lemma NORMALIZERS_lookup source :
  NORMALIZERS now_utc !! source =
    if bool_decide (source = "yfinance")
    then Some (normalize_yfinance_daily now_utc)
    else if bool_decide (source = "alpha_vantage")
    then Some (normalize_alpha_vantage_daily now_utc)
    else if bool_decide (source = "stooq")
    then Some (normalize_stooq_daily now_utc)
    else None.
Proof.
  unfold NORMALIZERS.
  repeat case_bool_decide; subst;
    repeat first [ rewrite lookup_insert_eq | rewrite lookup_insert_ne by done
                 | rewrite lookup_singleton_eq
                 | rewrite lookup_singleton_ne by done ];
    reflexivity.
Qed.

End NormalizerErrors.

(** X18. [normalize] knows three sources. For any other name it raises
    ValueError without looking at the payload; for each of the three it
    is the normalizer of that source. *)
Theorem normalize_dispatches `{Library} (now_utc : Z) (source : string)
    (raw : Payload) (symbol : string) :
  (source ∉ SUPPORTED_SOURCES →
     normalize now_utc source raw symbol = Raise ValueError) ∧
  normalize now_utc "yfinance" raw symbol =
    normalize_yfinance_daily now_utc raw symbol ∧
  normalize now_utc "alpha_vantage" raw symbol =
    normalize_alpha_vantage_daily now_utc raw symbol ∧
  normalize now_utc "stooq" raw symbol =
    normalize_stooq_daily now_utc raw symbol.
Proof.
  unfold normalize. rewrite !NORMALIZERS_lookup.
  split; [|by repeat split].
  intros Hsrc. unfold SUPPORTED_SOURCES in Hsrc.
  rewrite !not_elem_of_cons in Hsrc. destruct Hsrc as (H1 & H2 & H3 & _).
  by rewrite !bool_decide_eq_false_2.
Qed.

Lemma normalize_dispatches_witness :
  ("polygon" ∉ SUPPORTED_SOURCES) ∧
  normalize (H := Samples.library) 0 "polygon"
    PayloadFixtures.sample_yfinance_csv "AAPL" = Raise ValueError.
Proof.
  assert ("polygon" ∉ SUPPORTED_SOURCES) as Hsrc.
  { unfold SUPPORTED_SOURCES. rewrite !not_elem_of_cons.
    repeat split; try discriminate. apply not_elem_of_nil. }
  split; [exact Hsrc|].
  exact (proj1 (normalize_dispatches (H := Samples.library) 0 "polygon"
                  PayloadFixtures.sample_yfinance_csv "AAPL") Hsrc).
Defined.

(** X19. The Alpha Vantage normalizer raises ValueError for a JSON
    payload that has no member "Time Series (Daily)", or has it empty:
    an empty object, an empty text. *)
Theorem normalize_alpha_vantage_no_series `{Library} (now_utc : Z)
    (data : list (string * member)) (symbol : string) :
  from_option falsy true (dict_get "Time Series (Daily)" data) →
  normalize_alpha_vantage_daily now_utc (Json data) symbol = Raise ValueError ∧
  normalize now_utc "alpha_vantage" (Json data) symbol = Raise ValueError.
Proof.
  intros Hfalsy.
  assert (normalize_alpha_vantage_daily now_utc (Json data) symbol =
          Raise ValueError) as Hav.
  { unfold normalize_alpha_vantage_daily. cbn [json_load].
    change (Ok data ≫= ?k) with (k data). cbv beta zeta.
    destruct (dict_get "Time Series (Daily)" data) as [m|]; cbn in *.
    - by destruct (falsy m).
    - reflexivity. }
  split; [exact Hav|].
  unfold normalize. rewrite NORMALIZERS_lookup. exact Hav.
Qed.

Lemma normalize_alpha_vantage_no_series_witness :
  from_option falsy true
    (dict_get "Time Series (Daily)"
       [("Note", Text "Thank you for using Alpha Vantage!")]) ∧
  normalize (H := Samples.library) 0 "alpha_vantage"
    (Json [("Note", Text "Thank you for using Alpha Vantage!")]) "MSFT"
    = Raise ValueError.
Proof.
  assert (from_option falsy true
            (dict_get "Time Series (Daily)"
               [("Note", Text "Thank you for using Alpha Vantage!")])) as Hf
    by exact I.
  split; [exact Hf|].
  exact (proj2 (normalize_alpha_vantage_no_series (H := Samples.library) 0
                  _ "MSFT" Hf)).
Defined.

Section Provenance.

Context `{Library}.

Variable now_utc : Z.

Lemma eval_name (df : Frame) e : ∀ col,
  eval df e = Ok col → col.1 = expr_name e.
Proof.
  induction e as [n|v|e IH n|e IH dt|e IH|e IH|e IH]; intros col Hev;
    cbn [eval expr_name] in *.
  - apply bind_Ok in Hev as (cells & _ & [= <-]). reflexivity.
  - by injection Hev as <-.
  - apply bind_Ok in Hev as (col' & _ & [= <-]). reflexivity.
  - apply bind_Ok in Hev as (col' & Hcol' & Hev).
    apply bind_Ok in Hev as (cells & _ & [= <-]). cbn [fst]. by apply IH.
  - apply bind_Ok in Hev as (col' & Hcol' & Hev).
    apply bind_Ok in Hev as (cells & _ & [= <-]). cbn [fst]. by apply IH.
  - apply bind_Ok in Hev as (col' & Hcol' & Hev).
    apply bind_Ok in Hev as (cells & _ & [= <-]). cbn [fst]. by apply IH.
  - apply bind_Ok in Hev as (col' & Hcol' & Hev).
    apply bind_Ok in Hev as (cells & _ & [= <-]). cbn [fst]. by apply IH.
Qed.

Lemma eval_cell_has_type op v w ty :
  eval_cell op v = Ok w → expr_type op = Some ty → has_type ty w.
Proof.
  destruct op as [n|l|e n|e [|]|e|e|e]; cbn [eval_cell expr_type];
    try (destruct v; discriminate).
  - intros Hc [= <-]. apply bind_Ok in Hc as ([c|] & _ & [= <-]); exact I.
  - intros Hc [= <-]. apply bind_Ok in Hc as ([c|] & _ & [= <-]); exact I.
  - intros Hc [= <-]. destruct v; try discriminate.
    + by injection Hc as <-.
    + apply fmap_Ok in Hc as (d & _ & ->). exact I.
  - intros Hc [= <-]. destruct v; try discriminate.
    + by injection Hc as <-.
    + apply fmap_Ok in Hc as (d & _ & ->). exact I.
  - intros Hc [= <-]. destruct v; try discriminate.
    + by injection Hc as <-.
    + by injection Hc as <-.
Qed.

Lemma mapM_eval_cell_has_type op cells out ty :
  mapM (eval_cell op) cells = Ok out → expr_type op = Some ty →
  Forall (has_type ty) out.
Proof.
  intros Hm Hty. apply mapM_Ok in Hm.
  induction Hm as [|v w cells out Hv _ IH]; constructor; [|done].
  by eapply eval_cell_has_type.
Qed.

(** The cells of a computed column have the type of its expression. *)
Lemma eval_has_type (df : Frame) e : ∀ col ty,
  eval df e = Ok col → expr_type e = Some ty → Forall (has_type ty) col.2.
Proof.
  induction e as [n|v|e IH n|e IH dt|e IH|e IH|e IH]; intros col ty Hev Hty;
    cbn [eval] in Hev.
  - discriminate.
  - injection Hev as <-. cbn [snd expr_type] in *.
    apply Forall_replicate.
    destruct v; cbn in Hty; try discriminate; injection Hty as <-; exact I.
  - apply bind_Ok in Hev as (col' & Hcol' & [= <-]).
    cbn [snd expr_type] in *. by eapply IH.
  - apply bind_Ok in Hev as (col' & Hcol' & Hev).
    apply bind_Ok in Hev as (cells & Hcells & [= <-]).
    cbn [snd]. by eapply mapM_eval_cell_has_type.
  - apply bind_Ok in Hev as (col' & Hcol' & Hev).
    apply bind_Ok in Hev as (cells & Hcells & [= <-]).
    cbn [snd]. by eapply mapM_eval_cell_has_type.
  - apply bind_Ok in Hev as (col' & Hcol' & Hev).
    apply bind_Ok in Hev as (cells & Hcells & [= <-]).
    cbn [snd]. by eapply mapM_eval_cell_has_type.
  - apply bind_Ok in Hev as (col' & Hcol' & Hev).
    apply bind_Ok in Hev as (cells & Hcells & [= <-]).
    cbn [snd]. by eapply mapM_eval_cell_has_type.
Qed.


Lemma reordered_replicate (order : list nat) n v :
  (∀ i, i ∈ order → (i < n)%nat) →
  reordered order (replicate n v) = replicate (length order) v.
Proof.
  intros Hlt. unfold reordered.
  induction order as [|i order IH]; [done|].
  cbn. rewrite IH by (intros j Hj; by apply Hlt, list_elem_of_further).
  rewrite lookup_replicate_2; [done|]. apply Hlt, list_elem_of_here.
Qed.

Lemma order_in_range (order : list nat) n i :
  order ≡ₚ seq 0 n → i ∈ order → (i < n)%nat.
Proof.
  intros Hp Hi. rewrite Hp in Hi. apply elem_of_seq in Hi. lia.
Qed.

Lemma height_renamed (f : string * list value → string) (df : Frame) :
  height ((λ col, (f col, col.2)) <$> df) = height df.
Proof. by destruct df as [|[n c] df]. Qed.

(** Where the columns of a stooq frame come from: each is a column
    computed on the renamed payload, read in the sorted order. *)
Lemma normalize_stooq_daily_columns raw symbol df :
  normalize_stooq_daily now_utc raw symbol = Ok df →
  ∃ payload df1 dates (order : list nat),
    raw = Csv payload ∧
    height df1 = height payload ∧
    get_column "Date" payload = Ok dates ∧
    order ≡ₚ seq 0 (length dates) ∧
    ∀ e, e ∈ stooq_exprs now_utc symbol →
      ∃ col, eval df1 e = Ok col ∧
             get_column (expr_name e) df = Ok (reordered order col.2).
Proof.
  unfold normalize_stooq_daily. intros Hn.
  apply bind_Ok in Hn as (df0 & Hread & Hn).
  apply bind_Ok in Hn as (df1 & Hrename & Hn).
  apply bind_Ok in Hn as (df2 & Hwith & Hn).
  apply bind_Ok in Hn as (df3 & Hsort & Hn).
  destruct raw as [payload|]; [|done]. injection Hread as <-.
  pose proof (select_spec _ _ _ Hn) as [_ Hsel].
  destruct (sort_spec _ _ _ Hsort)
    as (cells & keys & order & Hcells & _ & Hperm & _ & _ & Hget).
  destruct (get_column_renamed _ _ _ "Date" "date" Hrename)
    as (dates & Hdates & Hdate1); [by rewrite lookup_insert_eq|].
  destruct (with_columns_evals _ _ _ (StrToDate (Col "date")) Hwith)
    as (dcol & Hdev & Hdget); [apply list_elem_of_here|].
  rewrite (eval_name _ _ _ Hdev) in Hdget. cbn [expr_name] in Hdget.
  cbn [eval] in Hdev. rewrite Hdate1 in Hdev.
  apply bind_Ok in Hdev as (c & [= <-] & Hdev).
  apply bind_Ok in Hdev as (parsed & Hparsed & [= <-]).
  cbn [fst snd] in *. apply mapM_length in Hparsed.
  assert (cells = parsed) as -> by congruence.
  exists payload, df1, dates, order.
  split; [done|]. split.
  { apply rename_Ok in Hrename as (-> & _). apply height_renamed. }
  split; [done|]. split; [by rewrite <- Hparsed|].
  intros e He.
  destruct (with_columns_evals _ _ _ e Hwith He) as (col & Hev & Hg).
  exists col. split; [done|].
  rewrite (eval_name _ _ _ Hev) in Hg.
  rewrite Hsel, Hget, Hg; [done|].
  unfold stooq_exprs in He.
  repeat (apply elem_of_cons in He as [->|He];
          [apply OUTPUT_COLUMNS_elem; simpl; tauto|]).
  by apply elem_of_nil in He.
Qed.

(** Where the columns of a yfinance frame come from: each but [symbol] is
    a column computed on the renamed payload, rows in place. *)
Lemma normalize_yfinance_daily_columns raw symbol df :
  normalize_yfinance_daily now_utc raw symbol = Ok df →
  ∃ payload df2 dates sample,
    raw = Csv payload ∧
    get_column "date" df2 = Ok dates ∧ head dates = Some sample ∧
    (∀ e, e ∈ yfinance_exprs now_utc (str_has_colon sample) →
       ∃ col, eval df2 e = Ok col ∧ get_column (expr_name e) df = Ok col.2) ∧
    ∃ n, get_column "symbol" df = Ok (replicate n (VStr symbol)).
Proof.
  unfold normalize_yfinance_daily. intros Hn.
  apply bind_Ok in Hn as (df0 & Hread & Hn).
  apply bind_Ok in Hn as (df1 & Hrename & Hn).
  apply bind_Ok in Hn as (df2 & Hadj & Hn).
  apply bind_Ok in Hn as (dates & Hdates & Hn).
  apply bind_Ok in Hn as (date_sample & Hsample & Hn).
  apply bind_Ok in Hn as (df3 & Hwith & Hn).
  apply bind_Ok in Hn as (df4 & Hsymbol & Hn).
  apply of_option_Ok in Hsample.
  pose proof (select_spec _ _ _ Hn) as [_ Hsel].
  destruct raw as [payload|]; [|done]. injection Hread as <-.
  exists payload, df2, dates, date_sample.
  split; [done|]. split; [done|]. split; [done|]. split.
  - intros e He.
    destruct (with_columns_evals _ _ _ e Hwith He) as (col & Hev & Hg).
    exists col. split; [done|].
    rewrite (eval_name _ _ _ Hev) in Hg.
    assert (expr_name e ∈ OUTPUT_COLUMNS ∧ expr_name e ≠ "symbol")
      as [Hout Hnsym].
    { unfold yfinance_exprs in He.
      repeat (apply elem_of_cons in He as [->|He];
              [split; [apply OUTPUT_COLUMNS_elem; simpl; tauto|discriminate]|]).
      by apply elem_of_nil in He. }
    rewrite Hsel by done. rewrite <- Hg.
    eapply with_columns_untouched; [exact Hsymbol|].
    intros e' col' He' Hev'. apply list_elem_of_singleton in He' as ->.
    apply eval_alias_name in Hev'. congruence.
  - exists (height df3).
    rewrite Hsel by (apply OUTPUT_COLUMNS_elem; simpl; tauto).
    eapply with_columns_computed; [exact Hsymbol|apply list_elem_of_here|].
    reflexivity.
Qed.


(** Where the columns of an Alpha Vantage frame come from. *)
Lemma normalize_alpha_vantage_daily_columns raw symbol df :
  normalize_alpha_vantage_daily now_utc raw symbol = Ok df →
  ∃ data entries rows (order : list nat),
    raw = Json data ∧
    dict_get "Time Series (Daily)" data = Some (Series entries) ∧
    entries ≠ [] ∧
    mapM (λ entry : string * list (string * string),
            alpha_vantage_row entry.1 entry.2) entries = Ok rows ∧
    order ≡ₚ seq 0 (length rows) ∧
    (∀ e, e ∈ alpha_vantage_exprs now_utc symbol →
       ∃ col, eval (alpha_vantage_frame rows) e = Ok col ∧
              get_column (expr_name e) df = Ok (reordered order col.2)) ∧
    (∀ name cells,
       name ∈ ["open"; "high"; "low"; "close"; "volume"; "adjusted_close"] →
       get_column name (alpha_vantage_frame rows) = Ok cells →
       get_column name df = Ok (reordered order cells)).
Proof.
  unfold normalize_alpha_vantage_daily. intros Hn.
  apply bind_Ok in Hn as (data & Hload & Hn).
  destruct (falsy _) eqn:Hfalsy; [done|].
  apply bind_Ok in Hn as (entries & Hentries & Hn).
  apply bind_Ok in Hn as (rows & Hrows & Hn).
  apply bind_Ok in Hn as (df1 & Hwith & Hn).
  apply bind_Ok in Hn as (df2 & Hsort & Hn).
  pose proof (select_spec _ _ _ Hn) as [_ Hsel].
  destruct raw as [|data']; [done|]. injection Hload as <-.
  destruct (dict_get "Time Series (Daily)" data') as [[t|fs|es]|] eqn:Hts;
    cbn in Hentries, Hfalsy; try discriminate.
  injection Hentries as <-.
  destruct (sort_spec _ _ _ Hsort)
    as (cells & keys & order & Hcells & _ & Hperm & _ & _ & Hget).
  destruct (with_columns_evals _ _ _ (StrToDate (Col "date")) Hwith)
    as (dcol & Hdev & Hdget); [apply list_elem_of_here|].
  rewrite (eval_name _ _ _ Hdev) in Hdget. cbn [expr_name] in Hdget.
  cbn [eval] in Hdev.
  apply bind_Ok in Hdev as (c & Hc & Hdev).
  apply bind_Ok in Hc as (c0 & Hc0 & [= <-]).
  injection Hc0 as <-.
  apply bind_Ok in Hdev as (parsed & Hparsed & [= <-]).
  cbn [fst snd] in *. apply mapM_length in Hparsed.
  rewrite length_fmap in Hparsed.
  assert (cells = parsed) as -> by congruence.
  exists data', es, rows, order.
  split; [done|]. split; [done|]. split; [by destruct es|].
  split; [done|]. split; [by rewrite <- Hparsed|]. split.
  - intros e He.
    destruct (with_columns_evals _ _ _ e Hwith He) as (col & Hev & Hg).
    exists col. split; [done|].
    rewrite (eval_name _ _ _ Hev) in Hg.
    rewrite Hsel, Hget, Hg; [done|].
    unfold alpha_vantage_exprs in He.
    repeat (apply elem_of_cons in He as [->|He];
            [apply OUTPUT_COLUMNS_elem; simpl; tauto|]).
    by apply elem_of_nil in He.
  - intros name cs Hname Hcs.
    rewrite Hsel, Hget.
    + erewrite with_columns_untouched; [by rewrite Hcs|exact Hwith|].
      intros e col He Hev. apply eval_name in Hev. rewrite Hev.
      intros <-.
      repeat (apply elem_of_cons in He as [->|He];
              [repeat (apply elem_of_cons in Hname as [Hname|Hname];
                       [discriminate Hname|]);
               by apply elem_of_nil in Hname|]).
      by apply elem_of_nil in He.
    + repeat (apply elem_of_cons in Hname as [->|Hname];
              [apply OUTPUT_COLUMNS_elem; simpl; tauto|]).
      by apply elem_of_nil in Hname.
Qed.






End Provenance.



Section Rectangular.

Context `{Library}.

Lemma rectangular_column (df : Frame) name cells :
  rectangular df → (name, cells) ∈ df → length cells = height df.
Proof.
  unfold rectangular. rewrite Forall_forall. intros Hr Hin.
  exact (Hr _ Hin).
Qed.

Lemma get_column_rectangular (df : Frame) name cells :
  rectangular df → get_column name df = Ok cells → length cells = height df.
Proof.
  intros Hr Hget. eapply rectangular_column; [done|].
  by apply get_column_elem.
Qed.

Lemma rectangular_fmap (df : Frame) (f : string * list value → string)
    (g : list value → list value) (n : nat) :
  df ≠ [] → (∀ col, col ∈ df → length (g col.2) = n) →
  rectangular ((λ col, (f col, g col.2)) <$> df) ∧
  height ((λ col, (f col, g col.2)) <$> df) = n.
Proof.
  intros Hne Hlen.
  assert (height ((λ col, (f col, g col.2)) <$> df) = n) as Hh.
  { destruct df as [|col df]; [done|]. cbn. apply Hlen, list_elem_of_here. }
  split; [|done]. unfold rectangular. rewrite Hh.
  apply Forall_fmap, Forall_forall. intros col Hcol. cbn. by apply Hlen.
Qed.

Lemma rename_rectangular mapping (df df' : Frame) :
  rename mapping df = Ok df' → rectangular df →
  rectangular df' ∧ height df' = height df.
Proof.
  intros (-> & _)%rename_Ok Hr.
  destruct df as [|col0 df]; [by split|].
  apply (rectangular_fmap _ (λ col, default col.1 (mapping !! col.1))
           (λ cells, cells)); [done|].
  intros [n c] Hcol. by eapply rectangular_column.
Qed.

Lemma eval_length (df : Frame) e : ∀ col,
  rectangular df → eval df e = Ok col → length col.2 = height df.
Proof.
  induction e as [n|v|e IH n|e IH dt|e IH|e IH|e IH]; intros col Hr Hev;
    cbn [eval] in Hev.
  - apply bind_Ok in Hev as (cells & Hcells & [= <-]).
    by eapply get_column_rectangular.
  - injection Hev as <-. apply length_replicate.
  - apply bind_Ok in Hev as (col' & Hcol' & [= <-]). cbn [snd]. by apply IH.
  - apply bind_Ok in Hev as (col' & Hcol' & Hev).
    apply bind_Ok in Hev as (cells & Hcells & [= <-]).
    cbn [snd]. rewrite (mapM_length _ _ _ Hcells). by apply IH.
  - apply bind_Ok in Hev as (col' & Hcol' & Hev).
    apply bind_Ok in Hev as (cells & Hcells & [= <-]).
    cbn [snd]. rewrite (mapM_length _ _ _ Hcells). by apply IH.
  - apply bind_Ok in Hev as (col' & Hcol' & Hev).
    apply bind_Ok in Hev as (cells & Hcells & [= <-]).
    cbn [snd]. rewrite (mapM_length _ _ _ Hcells). by apply IH.
  - apply bind_Ok in Hev as (col' & Hcol' & Hev).
    apply bind_Ok in Hev as (cells & Hcells & [= <-]).
    cbn [snd]. rewrite (mapM_length _ _ _ Hcells). by apply IH.
Qed.

Lemma upsert_rectangular (df : Frame) col :
  rectangular df → length col.2 = height df →
  rectangular (upsert df col) ∧ height (upsert df col) = height df.
Proof.
  destruct col as [n' c']. cbn [snd].
  intros Hr Hlen. unfold upsert. cbn [fst]. case_bool_decide as Hin.
  - assert (height ((λ old : string * list value,
                       if bool_decide (old.1 = n') then (n', c') else old)
                      <$> df) = height df) as Hh.
    { destruct df as [|[n c] df]; [done|].
      cbn in *. case_bool_decide; [exact Hlen|reflexivity]. }
    split; [|done]. unfold rectangular. rewrite Hh.
    apply Forall_fmap, Forall_forall. intros [n c] Hold. cbn.
    case_bool_decide; [done|]. by eapply rectangular_column.
  - destruct df as [|[n0 c0] df].
    + cbn in *. split; [|done]. by repeat constructor.
    + split; [|done]. unfold rectangular in *. cbn [app height] in *.
      change ((n0, c0) :: df ++ [(n', c')])
        with (((n0, c0) :: df) ++ [(n', c')]).
      apply Forall_app. split; [done|]. by repeat constructor.
Qed.

Lemma foldl_upsert_rectangular cols : ∀ (df : Frame) n,
  rectangular df → height df = n →
  Forall (λ col : string * list value, length col.2 = n) cols →
  rectangular (foldl upsert df cols) ∧ height (foldl upsert df cols) = n.
Proof.
  induction cols as [|col cols IH]; intros df n Hr Hh Hcols; [done|].
  apply Forall_cons in Hcols as [Hcol Hcols]. cbn [foldl].
  destruct (upsert_rectangular df col Hr) as [Hr' Hh']; [congruence|].
  apply IH; [done|congruence|done].
Qed.

Lemma with_columns_rectangular exprs (df df' : Frame) :
  with_columns exprs df = Ok df' → rectangular df →
  rectangular df' ∧ height df' = height df.
Proof.
  unfold with_columns. intros Hw Hr.
  apply bind_Ok in Hw as (cols & Hcols & Hw).
  case_bool_decide; [|done]. injection Hw as <-.
  apply foldl_upsert_rectangular; [done..|].
  apply mapM_Ok in Hcols. clear -Hcols Hr.
  induction Hcols as [|e col exprs cols He _ IH]; constructor; [|done].
  by eapply eval_length.
Qed.

Lemma select_rectangular names (df df' : Frame) :
  select names df = Ok df' → rectangular df → names ≠ [] →
  rectangular df' ∧ height df' = height df.
Proof.
  unfold select. intros Hs Hr Hne.
  apply bind_Ok in Hs as (cols & Hcols & Hs).
  case_bool_decide; [|done]. injection Hs as <-.
  apply mapM_Ok in Hcols.
  assert (Forall (λ col : string * list value, length col.2 = height df) cols)
    as Hlen.
  { clear -Hcols Hr.
    induction Hcols as [|name col names cols Hcol _ IH]; constructor; [|done].
    apply bind_Ok in Hcol as (cells & Hcells & [= <-]).
    by eapply get_column_rectangular. }
  assert (height cols = height df) as Hh.
  { destruct Hcols as [|name [n c] names cols Hcol _]; [done|].
    by apply Forall_cons in Hlen as [Hc _]. }
  split; [|done]. unfold rectangular. by rewrite Hh.
Qed.

Lemma sort_rectangular by_ (df df' : Frame) :
  sort by_ df = Ok df' → rectangular df →
  rectangular df' ∧ height df' = height df.
Proof.
  unfold sort. intros Hs Hr.
  apply bind_Ok in Hs as (cells & Hcells & Hs).
  apply bind_Ok in Hs as (keys & Hkeys & [= <-]).
  apply mapM_length in Hkeys.
  apply (rectangular_fmap df fst
           (λ cells, (λ i, default VNull (cells !! i)) <$>
              (merge_sort row_le (zip keys (seq 0 (length keys)))).*2)).
  - intros ->. discriminate Hcells.
  - intros col _. rewrite !length_fmap, merge_sort_Permutation.
    rewrite length_zip, length_seq, Nat.min_id, Hkeys.
    by eapply get_column_rectangular.
Qed.

Variable now_utc : Z.

Lemma alpha_vantage_frame_rectangular rows :
  rectangular (alpha_vantage_frame rows) ∧
  height (alpha_vantage_frame rows) = length rows.
Proof.
  split; [|apply length_fmap].
  unfold rectangular, alpha_vantage_frame. cbn.
  repeat constructor; cbn; by rewrite !length_fmap.
Qed.

Lemma OUTPUT_COLUMNS_nonempty : OUTPUT_COLUMNS ≠ [].
Proof. discriminate. Qed.

Lemma normalize_stooq_daily_height payload symbol df :
  normalize_stooq_daily now_utc (Csv payload) symbol = Ok df →
  rectangular payload →
  rectangular df ∧ height df = height payload.
Proof.
  unfold normalize_stooq_daily. intros Hn Hr.
  apply bind_Ok in Hn as (df0 & [= <-] & Hn).
  apply bind_Ok in Hn as (df1 & Hrename & Hn).
  apply bind_Ok in Hn as (df2 & Hwith & Hn).
  apply bind_Ok in Hn as (df3 & Hsort & Hn).
  destruct (rename_rectangular _ _ _ Hrename Hr) as [Hr1 Hh1].
  destruct (with_columns_rectangular _ _ _ Hwith Hr1) as [Hr2 Hh2].
  destruct (sort_rectangular _ _ _ Hsort Hr2) as [Hr3 Hh3].
  destruct (select_rectangular _ _ _ Hn Hr3 OUTPUT_COLUMNS_nonempty)
    as [Hr4 Hh4].
  split; [done|]. congruence.
Qed.

Lemma normalize_yfinance_daily_height payload symbol df :
  normalize_yfinance_daily now_utc (Csv payload) symbol = Ok df →
  rectangular payload →
  rectangular df ∧ height df = height payload ∧ (0 < height df)%nat.
Proof.
  unfold normalize_yfinance_daily. intros Hn Hr.
  apply bind_Ok in Hn as (df0 & [= <-] & Hn).
  apply bind_Ok in Hn as (df1 & Hrename & Hn).
  apply bind_Ok in Hn as (df2 & Hadj & Hn).
  apply bind_Ok in Hn as (dates & Hdates & Hn).
  apply bind_Ok in Hn as (date_sample & Hsample & Hn).
  apply bind_Ok in Hn as (df3 & Hwith & Hn).
  apply bind_Ok in Hn as (df4 & Hsymbol & Hn).
  apply of_option_Ok in Hsample.
  destruct (rename_rectangular _ _ _ Hrename Hr) as [Hr1 Hh1].
  assert (rectangular df2 ∧ height df2 = height df1) as [Hr2 Hh2].
  { destruct (list_find _ _) as [[i adj]|].
    - by eapply rename_rectangular.
    - by eapply with_columns_rectangular. }
  destruct (with_columns_rectangular _ _ _ Hwith Hr2) as [Hr3 Hh3].
  destruct (with_columns_rectangular _ _ _ Hsymbol Hr3) as [Hr4 Hh4].
  destruct (select_rectangular _ _ _ Hn Hr4 OUTPUT_COLUMNS_nonempty)
    as [Hr5 Hh5].
  split; [done|]. split; [congruence|].
  pose proof (get_column_rectangular _ _ _ Hr2 Hdates) as Hlen.
  destruct dates; [discriminate Hsample|]. cbn in Hlen. lia.
Qed.

Lemma normalize_alpha_vantage_daily_height data symbol df :
  normalize_alpha_vantage_daily now_utc (Json data) symbol = Ok df →
  ∃ entries,
    dict_get "Time Series (Daily)" data = Some (Series entries) ∧
    rectangular df ∧ height df = length entries ∧ (0 < height df)%nat.
Proof.
  unfold normalize_alpha_vantage_daily. intros Hn.
  apply bind_Ok in Hn as (data' & [= <-] & Hn).
  destruct (falsy _) eqn:Hfalsy; [done|].
  apply bind_Ok in Hn as (entries & Hentries & Hn).
  apply bind_Ok in Hn as (rows & Hrows & Hn).
  apply bind_Ok in Hn as (df1 & Hwith & Hn).
  apply bind_Ok in Hn as (df2 & Hsort & Hn).
  destruct (dict_get "Time Series (Daily)" data) as [[t|fs|es]|] eqn:Hts;
    cbn in Hentries, Hfalsy; try discriminate.
  injection Hentries as <-. exists es. split; [done|].
  destruct (alpha_vantage_frame_rectangular rows) as [Hr0 Hh0].
  destruct (with_columns_rectangular _ _ _ Hwith Hr0) as [Hr1 Hh1].
  destruct (sort_rectangular _ _ _ Hsort Hr1) as [Hr2 Hh2].
  destruct (select_rectangular _ _ _ Hn Hr2 OUTPUT_COLUMNS_nonempty)
    as [Hr3 Hh3].
  apply mapM_length in Hrows.
  split; [done|]. split; [congruence|].
  destruct es; [discriminate Hfalsy|]. cbn in Hrows. lia.
Qed.

End Rectangular.

Section Stamps.

Context `{Library}.

Variable now_utc : Z.

Lemma lit_column (df1 df : Frame) (exprs : list Expr)
    (f : list value → list value) name v :
  (∀ e, e ∈ exprs →
     ∃ col, eval df1 e = Ok col ∧ get_column (expr_name e) df = Ok (f col.2)) →
  Alias (Lit v) name ∈ exprs →
  get_column name df = Ok (f (replicate (height df1) v)).
Proof.
  intros Hcols He. destruct (Hcols _ He) as (col & Hev & Hget).
  cbn in Hev. injection Hev as <-. exact Hget.
Qed.

Lemma stamped_height (df : Frame) name n v :
  rectangular df → get_column name df = Ok (replicate n v) →
  get_column name df = Ok (replicate (height df) v).
Proof.
  intros Hr Hget. pose proof (get_column_rectangular _ _ _ Hr Hget) as Hlen.
  rewrite length_replicate in Hlen. by rewrite <- Hlen.
Qed.

Lemma normalize_stooq_daily_stamps raw symbol df name v :
  normalize_stooq_daily now_utc raw symbol = Ok df →
  (∀ payload, raw = Csv payload → rectangular payload) →
  Alias (Lit v) name ∈ stooq_exprs now_utc symbol →
  get_column name df = Ok (replicate (height df) v).
Proof.
  intros Hn Hrect He.
  destruct (normalize_stooq_daily_columns _ _ _ _ Hn)
    as (payload & df1 & dates & order & -> & Hh1 & Hdates & Hperm & Hcols).
  specialize (Hrect payload eq_refl).
  destruct (normalize_stooq_daily_height _ _ _ _ Hn Hrect) as [Hr _].
  apply (stamped_height df name (length order) v Hr).
  rewrite (lit_column _ _ _ _ _ _ Hcols He). f_equal.
  apply reordered_replicate. intros i Hi.
  rewrite Hh1, <- (get_column_rectangular _ _ _ Hrect Hdates).
  by eapply order_in_range.
Qed.

Lemma normalize_alpha_vantage_daily_stamps raw symbol df name v :
  normalize_alpha_vantage_daily now_utc raw symbol = Ok df →
  Alias (Lit v) name ∈ alpha_vantage_exprs now_utc symbol →
  get_column name df = Ok (replicate (height df) v).
Proof.
  intros Hn He.
  destruct (normalize_alpha_vantage_daily_columns _ _ _ _ Hn)
    as (data & entries & rows & order & -> & _ & _ & _ & Hperm & Hcols & _).
  destruct (normalize_alpha_vantage_daily_height _ _ _ _ Hn)
    as (entries' & _ & Hr & _).
  apply (stamped_height df name (length order) v Hr).
  rewrite (lit_column _ _ _ _ _ _ Hcols He). f_equal.
  apply reordered_replicate. intros i Hi.
  rewrite (proj2 (alpha_vantage_frame_rectangular rows)).
  by eapply order_in_range.
Qed.

Lemma normalize_yfinance_daily_stamps raw symbol df name v :
  normalize_yfinance_daily now_utc raw symbol = Ok df →
  (∀ payload, raw = Csv payload → rectangular payload) →
  (name, v) ∈ [("source", VStr "yfinance"); ("symbol", VStr symbol);
               ("ingested_at", VDatetime now_utc)] →
  get_column name df = Ok (replicate (height df) v).
Proof.
  intros Hn Hrect Hin.
  destruct (normalize_yfinance_daily_columns _ _ _ _ Hn)
    as (payload & df2 & dates & sample & -> & _ & _ & Hcols & n & Hsym).
  specialize (Hrect payload eq_refl).
  destruct (normalize_yfinance_daily_height _ _ _ _ Hn Hrect) as [Hr _].
  repeat (apply elem_of_cons in Hin as [[= -> ->]|Hin]).
  - apply (stamped_height df _ (height df2) _ Hr).
    apply (lit_column df2 df _ (λ cells, cells) _ _ Hcols).
    apply list_elem_of_In. simpl. tauto.
  - by eapply stamped_height.
  - apply (stamped_height df _ (height df2) _ Hr).
    apply (lit_column df2 df _ (λ cells, cells) _ _ Hcols).
    apply list_elem_of_In. simpl. tauto.
  - by apply elem_of_nil in Hin.
Qed.

End Stamps.

(** X21. Normalizing keeps the rows of the payload, one for one: the
    frame returned has as many rows as the CSV payload, or as the
    payload's "Time Series (Daily)" has days, in each of its columns.
    The yfinance and Alpha Vantage normalizers never return a frame
    without rows. *)
Theorem normalize_rows `{Library} (now_utc : Z) (source : string)
    (raw : Payload) (symbol : string) (df : Frame) :
  normalize now_utc source raw symbol = Ok df →
  (∀ payload, raw = Csv payload → rectangular payload) →
  rectangular df ∧
  (∀ payload, raw = Csv payload → height df = height payload) ∧
  (∀ data, raw = Json data →
     ∃ entries,
       dict_get "Time Series (Daily)" data = Some (Series entries) ∧
       height df = length entries) ∧
  (source ≠ "stooq" → (0 < height df)%nat).
Proof.
  intros Hn Hrect.
  destruct (normalize_dispatch _ _ _ _ _ Hn) as [[-> Hy]|[[-> Ha]|[-> Hs]]].
  - destruct (normalize_yfinance_daily_columns _ _ _ _ Hy)
      as (payload & _ & _ & _ & -> & _).
    destruct (normalize_yfinance_daily_height _ _ _ _ Hy
                (Hrect payload eq_refl)) as (Hr & Hh & Hpos).
    split; [done|]. split; [by intros ? [= <-]|].
    split; [by intros ? [=]|done].
  - destruct (normalize_alpha_vantage_daily_columns _ _ _ _ Ha)
      as (data & _ & _ & _ & -> & _).
    destruct (normalize_alpha_vantage_daily_height _ _ _ _ Ha)
      as (entries & Hts & Hr & Hh & Hpos).
    split; [done|]. split; [by intros ? [=]|].
    split; [|done]. intros ? [= <-]. by exists entries.
  - destruct (normalize_stooq_daily_columns _ _ _ _ Hs)
      as (payload & _ & _ & _ & -> & _).
    destruct (normalize_stooq_daily_height _ _ _ _ Hs
                (Hrect payload eq_refl)) as (Hr & Hh).
    split; [done|]. split; [by intros ? [= <-]|].
    split; [by intros ? [=]|done].
Qed.

(** X22. Every row that [normalize] returns is stamped: its [source] is
    the name of the source, its [symbol] the symbol asked for, and its
    [ingested_at] the one time of the call. *)
Theorem normalize_stamps `{Library} (now_utc : Z) (source : string)
    (raw : Payload) (symbol : string) (df : Frame) :
  normalize now_utc source raw symbol = Ok df →
  (∀ payload, raw = Csv payload → rectangular payload) →
  get_column "source" df = Ok (replicate (height df) (VStr source)) ∧
  get_column "symbol" df = Ok (replicate (height df) (VStr symbol)) ∧
  get_column "ingested_at" df =
    Ok (replicate (height df) (VDatetime now_utc)).
Proof.
  intros Hn Hrect.
  destruct (normalize_dispatch _ _ _ _ _ Hn) as [[-> Hy]|[[-> Ha]|[-> Hs]]].
  - repeat split;
      (eapply normalize_yfinance_daily_stamps; [exact Hy|exact Hrect|]);
      apply list_elem_of_In; simpl; tauto.
  - repeat split;
      (eapply normalize_alpha_vantage_daily_stamps; [exact Ha|]);
      apply list_elem_of_In; simpl; tauto.
  - repeat split;
      (eapply normalize_stooq_daily_stamps; [exact Hs|exact Hrect|]);
      apply list_elem_of_In; simpl; tauto.
Qed.

Lemma sample_stooq_csv_rectangular :
  ∀ payload, PayloadFixtures.sample_stooq_csv = Csv payload →
             rectangular payload.
Proof.
  intros payload [= <-]. unfold rectangular. repeat constructor.
Qed.

Lemma normalize_rows_witness :
  ∃ df,
    normalize (H := Samples.library) 0 "stooq"
      PayloadFixtures.sample_stooq_csv "AAPL" = Ok df ∧
    rectangular df ∧ height df = 5%nat.
Proof.
  assert (∃ df, normalize (H := Samples.library) 0 "stooq"
                  PayloadFixtures.sample_stooq_csv "AAPL" = Ok df)
    as [df Hdf] by (eexists; vm_compute; reflexivity).
  destruct (normalize_rows (H := Samples.library) 0 "stooq"
              PayloadFixtures.sample_stooq_csv "AAPL" df Hdf
              sample_stooq_csv_rectangular) as (Hr & Hcsv & _).
  exists df. split; [exact Hdf|]. split; [exact Hr|].
  exact (Hcsv _ eq_refl).
Defined.

Lemma normalize_stamps_witness :
  ∃ df,
    normalize (H := Samples.library) 7 "stooq"
      PayloadFixtures.sample_stooq_csv "AAPL" = Ok df ∧
    get_column "source" df = Ok (replicate (height df) (VStr "stooq")) ∧
    get_column "ingested_at" df = Ok (replicate (height df) (VDatetime 7)).
Proof.
  assert (∃ df, normalize (H := Samples.library) 7 "stooq"
                  PayloadFixtures.sample_stooq_csv "AAPL" = Ok df)
    as [df Hdf] by (eexists; vm_compute; reflexivity).
  destruct (normalize_stamps (H := Samples.library) 7 "stooq"
              PayloadFixtures.sample_stooq_csv "AAPL" df Hdf
              sample_stooq_csv_rectangular) as (Hsrc & _ & Hing).
  exists df. split; [exact Hdf|]. split; [exact Hsrc|exact Hing].
Defined.

(** ** [cli/validate.py] and [cli/crossvalidate.py] *)

Section SummaryFacts.

Lemma overall_status_PASS (report : CheckReport) :
  overall_status report = PASS ↔
  Forall (λ r, status r = PASS) (results report).
Proof.
  split; [apply (overall_status_cases report PASS)|].
  intros Hall. unfold overall_status.
  assert (∀ s, s ∈ status <$> results report → s = PASS) as Hs.
  { intros s (r & -> & Hr)%list_elem_of_fmap.
    rewrite Forall_forall in Hall. by apply Hall. }
  rewrite !bool_decide_eq_false_2; [done|..];
    intros Hin; by apply Hs in Hin.
Qed.

Lemma passed_issues_length (l : list CheckResult) :
  (length (filter (λ r, status r = PASS) l) +
   length (filter (λ r, status r ≠ PASS) l) = length l)%nat.
Proof.
  induction l as [|r l IH]; [done|].
  rewrite !filter_cons.
  destruct (decide (status r = PASS)), (decide (status r ≠ PASS));
    cbn [length]; try done; lia.
Qed.

Lemma issues_nil_Forall (l : list CheckResult) :
  filter (λ r, status r ≠ PASS) l = [] ↔ Forall (λ r, status r = PASS) l.
Proof.
  induction l as [|r l IH]; [by split; [constructor|]|].
  rewrite filter_cons, Forall_cons.
  destruct (decide (status r ≠ PASS)) as [Hn|Hp].
  - split; [discriminate|]. intros [Hp _]. by destruct Hn.
  - apply dec_stable in Hp. rewrite IH. tauto.
Qed.

End SummaryFacts.

(** X23. In the summary row of [validate_report] the checks passed and
    the issues listed add up to the checks run, and the row is clean
    exactly when the overall status is PASS: no issue is listed, all
    checks count as passed, and the row reads green PASS with "-" for
    the issues. *)
Theorem summary_row_counts (symbol : string) (report : CheckReport) :
  (Validate.passed report + length (Validate.issues report) =
     Validate.total report)%nat ∧
  (Validate.issues report = [] ↔ overall_status report = PASS) ∧
  (Validate.passed report = Validate.total report ↔
     overall_status report = PASS) ∧
  (overall_status report = PASS →
     Validate.summary_row symbol report =
       [ symbol; "[green]PASS[/green]";
         pretty (Validate.total report) +:+ "/" +:+
           pretty (Validate.total report);
         "-" ]).
Proof.
  unfold Validate.passed, Validate.issues, Validate.total.
  pose proof (passed_issues_length (results report)) as Hsum.
  assert (check_name <$> filter (λ r, status r ≠ PASS) (results report) = []
          ↔ overall_status report = PASS) as Hissues.
  { rewrite overall_status_PASS, <- issues_nil_Forall.
    split; [apply fmap_nil_inv | by intros ->]. }
  assert (length (filter (λ r, status r = PASS) (results report)) =
            length (results report) ↔ overall_status report = PASS) as Hall.
  { rewrite <- Hissues. split.
    - intros E. rewrite E in Hsum.
      destruct (filter (λ r, status r ≠ PASS) (results report)); [done|].
      cbn [length] in Hsum. lia.
    - intros E%fmap_nil_inv. rewrite E in Hsum. cbn [length] in Hsum. lia. }
  split; [by rewrite length_fmap|]. split; [done|]. split; [done|].
  intros Hpass. unfold Validate.summary_row.
  unfold Validate.passed, Validate.issues, Validate.total.
  rewrite (proj2 Hall Hpass), (proj2 Hissues Hpass), Hpass.
  reflexivity.
Qed.

Section CompareFacts.

Import Compare.

Lemma fetch_all_lookup (query : string → DataFrame) source_list :
  ∀ (dfs : gmap string DataFrame) src,
    foldl (λ dfs source, <[source := query source]> dfs) dfs source_list
      !! src =
    if bool_decide (src ∈ source_list) then Some (query src) else dfs !! src.
Proof.
  induction source_list as [|x l IH]; intros dfs src; [done|].
  cbn [foldl]. rewrite IH.
  destruct (decide (src ∈ l)) as [Hin|Hnin].
  - rewrite !bool_decide_eq_true_2; [done| |done].
    by apply list_elem_of_further.
  - rewrite (bool_decide_eq_false_2 _ Hnin).
    destruct (decide (src = x)) as [->|Hne].
    + rewrite lookup_insert_eq.
      rewrite bool_decide_eq_true_2; [done|]. apply list_elem_of_here.
    + rewrite lookup_insert_ne by done.
      rewrite bool_decide_eq_false_2; [done|].
      rewrite elem_of_cons. tauto.
Qed.

Lemma combinations2_length {A : Type} (l : list A) :
  (2 * length (combinations2 l) = length l * (length l - 1))%nat.
Proof.
  induction l as [|x l IH]; [done|].
  cbn [combinations2 length]. rewrite length_app, length_fmap. nia.
Qed.

Lemma elem_of_combinations2 {A : Type} (l : list A) a b :
  (a, b) ∈ combinations2 l ↔
  ∃ i j, (i < j)%nat ∧ l !! i = Some a ∧ l !! j = Some b.
Proof.
  induction l as [|x l IH].
  - split; [by intros ?%elem_of_nil|]. by intros (i & j & _ & ? & _).
  - cbn [combinations2]. rewrite elem_of_app, list_elem_of_fmap, IH. split.
    + intros [(y & [= -> ->] & Hy)|(i & j & Hlt & Hi & Hj)].
      * apply list_elem_of_lookup in Hy as [j Hj].
        exists 0%nat, (S j). by repeat split; [lia|..].
      * exists (S i), (S j). by repeat split; [lia|..].
    + intros (i & j & Hlt & Hi & Hj).
      destruct i as [|i], j as [|j]; try lia; cbn in Hi, Hj.
      * injection Hi as ->. left. exists b. split; [done|].
        by eapply list_elem_of_lookup_2.
      * right. exists i, j. by repeat split; [lia|..].
Qed.

End CompareFacts.

(** X24. [crossvalidate_compare] needs two sources; given them, it goes
    through every pair of positions of the source list once, in the
    order of [itertools.combinations], skips a pair when either source
    has no rows and compares the two frames otherwise; a comparison is
    flagged as lacking a real adjusted close exactly when one of its two
    sources is "stooq". *)
Theorem crossvalidate_compare_pairs (query : string → DataFrame)
    (source_list : list string) (tolerance : float) :
  ((length source_list < 2)%nat →
     Compare.crossvalidate_compare query source_list tolerance = None) ∧
  ((2 ≤ length source_list)%nat →
     ∃ outputs,
       Compare.crossvalidate_compare query source_list tolerance
         = Some outputs ∧
       (2 * length outputs =
          length source_list * (length source_list - 1))%nat ∧
       Forall2
         (λ (pair : string * string) out,
            out =
              if bool_decide (query pair.1 = []) ||
                 bool_decide (query pair.2 = [])
              then Compare.Skipped pair.1 pair.2
              else Compare.Compared pair.1 pair.2
                     (CrossValidate._print_pairwise_comparison
                        pair.1 (query pair.1) pair.2 (query pair.2)
                        tolerance))
         (Compare.combinations2 source_list) outputs ∧
       ∀ a b c, Compare.Compared a b c ∈ outputs →
         query a ≠ [] ∧ query b ≠ [] ∧
         (CrossValidate.adjusted_close_skipped c ↔
            a = "stooq" ∨ b = "stooq") ∧
         ∃ i j, (i < j)%nat ∧ source_list !! i = Some a ∧
                source_list !! j = Some b).
Proof.
  unfold Compare.crossvalidate_compare. split.
  - intros Hlt. by rewrite bool_decide_eq_true_2.
  - intros Hge. rewrite bool_decide_eq_false_2 by lia.
    eexists. split; [reflexivity|].
    assert (∀ pair, pair ∈ Compare.combinations2 source_list →
              default [] (Compare.fetch_all query source_list !! pair.1)
                = query pair.1 ∧
              default [] (Compare.fetch_all query source_list !! pair.2)
                = query pair.2) as Hdfs.
    { intros [a b] (i & j & _ & Hi & Hj)%elem_of_combinations2.
      unfold Compare.fetch_all. rewrite !fetch_all_lookup.
      rewrite !bool_decide_eq_true_2;
        [done|by eapply list_elem_of_lookup_2..]. }
    split; [by rewrite length_fmap, combinations2_length|].
    assert (Forall2
      (λ (pair : string * string) out,
         out =
           if bool_decide (query pair.1 = []) ||
              bool_decide (query pair.2 = [])
           then Compare.Skipped pair.1 pair.2
           else Compare.Compared pair.1 pair.2
                  (CrossValidate._print_pairwise_comparison
                     pair.1 (query pair.1) pair.2 (query pair.2)
                     tolerance))
      (Compare.combinations2 source_list)
      ((λ '(src_a, src_b),
          let df_a :=
            default [] (Compare.fetch_all query source_list !! src_a) in
          let df_b :=
            default [] (Compare.fetch_all query source_list !! src_b) in
          if bool_decide (df_a = []) || bool_decide (df_b = [])
          then Compare.Skipped src_a src_b
          else Compare.Compared src_a src_b
                 (CrossValidate._print_pairwise_comparison
                    src_a df_a src_b df_b tolerance))
         <$> Compare.combinations2 source_list)) as Hall.
    { apply Forall2_fmap_r, Forall_Forall2_diag, Forall_forall.
      intros [a b] Hpair. destruct (Hdfs _ Hpair) as [Ea Eb].
      cbn [fst snd] in *. unfold compose. cbv beta iota zeta.
      by rewrite Ea, Eb. }
    split; [exact Hall|].
    intros a b c Hin.
    apply list_elem_of_lookup in Hin as [k Hk].
    destruct (Forall2_lookup_r _ _ _ _ _ Hall Hk) as ([a' b'] & Hpair & Hout).
    cbn [fst snd] in Hout.
    destruct (bool_decide (query a' = [])) eqn:Ha;
      destruct (bool_decide (query b' = [])) eqn:Hb;
      cbn [orb] in Hout; try discriminate.
    injection Hout as -> -> ->.
    apply bool_decide_eq_false in Ha, Hb.
    split; [done|]. split; [done|]. split.
    + rewrite skip_note_flag. unfold CrossValidate._NO_ADJ_CLOSE_SOURCES.
      rewrite !elem_of_singleton. done.
    + apply elem_of_combinations2. by eapply list_elem_of_lookup_2.
Qed.

Lemma crossvalidate_compare_pairs_witness :
  let query := λ source : string,
    if bool_decide (source = "av") then [] else Fixtures.sample_ohlcv_df in
  (2 ≤ length ["yfinance"; "av"; "stooq"])%nat ∧
  ∃ c,
    Compare.crossvalidate_compare query ["yfinance"; "av"; "stooq"] 1 =
      Some [ Compare.Skipped "yfinance" "av";
             Compare.Compared "yfinance" "stooq" c;
             Compare.Skipped "av" "stooq" ] ∧
    CrossValidate.adjusted_close_skipped c.
Proof.
  intros query.
  assert (2 ≤ length ["yfinance"; "av"; "stooq"])%nat as Hge by (cbn; lia).
  split; [exact Hge|].
  destruct (proj2 (crossvalidate_compare_pairs query
                     ["yfinance"; "av"; "stooq"] 1%float) Hge)
    as (outputs & Hout & _ & Hall & Hflag).
  cbn [Compare.combinations2 fmap list_fmap app] in Hall.
  inversion Hall as [|? o1 ? l1 H1 Hall1]; subst.
  inversion Hall1 as [|? o2 ? l2 H2 Hall2]; subst.
  inversion Hall2 as [|? o3 ? l3 H3 Hall3]; subst.
  inversion Hall3; subst.
  eexists. split; [exact Hout|].
  apply (Hflag "yfinance" "stooq"); [|by right].
  apply list_elem_of_further, list_elem_of_here.
Defined.

(** ** [ingestors/registry.py] *)

Section RegistryFacts.

Import Registry.

Lemma sorted_keys_builtins : sorted_keys builtins = ["av"; "stooq"; "yf"].
Proof. vm_compute. reflexivity. Qed.

Lemma ensure_loaded_fresh :
  ensure_loaded all_imports ∅ = (builtins, None).
Proof.
  unfold ensure_loaded. rewrite bool_decide_eq_true_2 by done. reflexivity.
Qed.

Lemma ensure_loaded_registered imports key cls reg :
  ensure_loaded imports (register key cls reg) =
    (register key cls reg, None).
Proof.
  unfold ensure_loaded, register.
  rewrite bool_decide_eq_false_2; [done|]. apply insert_non_empty.
Qed.

Lemma builtins_lookup key :
  builtins !! key =
    if bool_decide (key = "av") then Some AlphaVantageIngestor
    else if bool_decide (key = "yf") then Some YFinanceIngestor
    else if bool_decide (key = "stooq") then Some StooqIngestor
    else None.
Proof.
  unfold builtins, register.
  repeat case_bool_decide; subst;
    repeat first [ rewrite lookup_insert_eq | rewrite lookup_insert_ne by done
                 | rewrite lookup_empty ];
    reflexivity.
Qed.

End RegistryFacts.

(** X25. In a fresh process, with all ingestor modules at hand, the first
    [get_ingestor] loads the three built-ins: the keys "yf", "av" and
    "stooq" get their own class, called with their own section of the
    settings; any other key raises IngestorError naming the sources "av,
    stooq, yf"; and [available_sources] lists the three keys in that
    order. *)
Theorem get_ingestor_builtins (key : string) :
  let fresh := Registry.get_ingestor Registry.all_imports key ∅ in
  fresh.1 = Registry.builtins ∧
  (key = "yf" →
     fresh.2 = Registry.Returned
                 (Registry.YFinanceIngestor, Registry.settings_yfinance)) ∧
  (key = "av" →
     fresh.2 = Registry.Returned
                 (Registry.AlphaVantageIngestor,
                  Registry.settings_alpha_vantage)) ∧
  (key = "stooq" →
     fresh.2 = Registry.Returned
                 (Registry.StooqIngestor, Registry.settings_stooq)) ∧
  (key ∉ ["yf"; "av"; "stooq"] →
     fresh.2 = Registry.Raised
                 (Registry.IngestorError
                    ("Unknown source '" +:+ key +:+
                     "'. Available sources: av, stooq, yf"))) ∧
  Registry.available_sources Registry.all_imports ∅ =
    (Registry.builtins, Registry.Returned ["av"; "stooq"; "yf"]).
Proof.
  cbv zeta. unfold Registry.get_ingestor, Registry.available_sources.
  rewrite ensure_loaded_fresh, builtins_lookup, sorted_keys_builtins.
  split; [by repeat case_bool_decide|].
  split; [by intros ->|]. split; [by intros ->|]. split; [by intros ->|].
  split; [|done].
  rewrite !not_elem_of_cons. intros (H1 & H2 & H3 & _).
  by rewrite !bool_decide_eq_false_2.
Qed.

Lemma get_ingestor_builtins_witness :
  ("polygon" ∉ ["yf"; "av"; "stooq"]) ∧
  (Registry.get_ingestor Registry.all_imports "polygon" ∅).2 =
    Registry.Raised
      (Registry.IngestorError
         "Unknown source 'polygon'. Available sources: av, stooq, yf").
Proof.
  assert ("polygon" ∉ ["yf"; "av"; "stooq"]) as Hkey.
  { rewrite !not_elem_of_cons. repeat split; try discriminate.
    apply not_elem_of_nil. }
  split; [exact Hkey|].
  exact (proj1 (proj2 (proj2 (proj2 (proj2
           (get_ingestor_builtins "polygon"))))) Hkey).
Defined.

(** X26. A class registered under a key is the class [get_ingestor]
    calls for that key, with the section of the settings that goes with
    the key, also when the key is one of the built-in keys. And once
    anything is registered the built-ins are not loaded any more: after
    a registration on the fresh registry every other key, "yf" among
    them, raises IngestorError, and the registry stays as it is. *)
Theorem get_ingestor_registered (imports : Registry.Imports)
    (key key' : string) (cls : Registry.IngestorClass)
    (reg : Registry.registry) :
  (∃ argument,
     Registry.get_ingestor imports key (Registry.register key cls reg) =
       (Registry.register key cls reg, Registry.Returned (cls, argument)) ∧
     (key = "yf" → argument = Registry.settings_yfinance) ∧
     (key = "av" → argument = Registry.settings_alpha_vantage) ∧
     (key = "stooq" → argument = Registry.settings_stooq) ∧
     (key ∉ ["yf"; "av"; "stooq"] → argument = Registry.settings)) ∧
  (key ≠ key' →
     Registry.get_ingestor imports key (Registry.register key' cls ∅) =
       (Registry.register key' cls ∅,
        Registry.Raised
          (Registry.IngestorError
             ("Unknown source '" +:+ key +:+
              "'. Available sources: " +:+ key')))).
Proof.
  unfold Registry.get_ingestor. rewrite !ensure_loaded_registered.
  cbv beta iota zeta. split.
  - unfold Registry.register. rewrite lookup_insert_eq.
    eexists. split; [reflexivity|].
    split; [by intros ->|]. split; [by intros ->|]. split; [by intros ->|].
    rewrite !not_elem_of_cons. intros (H1 & H2 & H3 & _).
    by rewrite !bool_decide_eq_false_2.
  - intros Hne. unfold Registry.register.
    rewrite lookup_insert_ne, lookup_empty by done.
    unfold Registry.sorted_keys.
    rewrite insert_empty, map_to_list_singleton. reflexivity.
Qed.

Lemma get_ingestor_registered_witness :
  "yf" ≠ "custom" ∧
  Registry.get_ingestor Registry.all_imports "yf"
    (Registry.register "custom" (Registry.OtherClass "Custom") ∅) =
    (Registry.register "custom" (Registry.OtherClass "Custom") ∅,
     Registry.Raised
       (Registry.IngestorError
          "Unknown source 'yf'. Available sources: custom")).
Proof.
  assert ("yf" ≠ "custom") as Hne by discriminate.
  split; [exact Hne|].
  exact (proj2 (get_ingestor_registered Registry.all_imports "yf" "custom"
                  (Registry.OtherClass "Custom") ∅) Hne).
Defined.

(** ** [utils/rate_limiter.py] and the loop of [cli/ingest.py] *)

Section IngestFacts.

Import RateLimiter Ingest.

Variable clock : Clock.
Variable fetch_daily : list string → string → outcome FetchResult.

Lemma exhausted_Some rl limit :
  exhausted rl = Some limit ↔
  _daily_limit rl = Some limit ∧ limit ≤ _daily_count rl.
Proof.
  unfold exhausted. destruct (_daily_limit rl) as [l|].
  - case_bool_decide; split.
    + by intros [= <-].
    + by intros [[= <-] _].
    + discriminate.
    + intros [[= <-] ?]. lia.
  - split; [discriminate|]. intros [? _]. discriminate.
Qed.

Lemma exhausted_None rl :
  exhausted rl = None ↔
  ∀ limit, _daily_limit rl = Some limit → _daily_count rl < limit.
Proof.
  unfold exhausted. destruct (_daily_limit rl) as [l|].
  - case_bool_decide; split; try done.
    + intros H'. specialize (H' l eq_refl). lia.
    + intros _ limit [= <-]. lia.
  - split; [by intros _ ? ?|done].
Qed.

(** A round fetches or leaves the limiter as it was; it fetches only
    below the limit. *)
Lemma ingest_step_inv st sym :
  let st' := ingest_step clock fetch_daily st sym in
  _daily_limit (limiter st') = _daily_limit (limiter st) ∧
  length (lines st') = S (length (lines st)) ∧
  ((calls st' = calls st ∧
    _daily_count (limiter st') = _daily_count (limiter st)) ∨
   (calls st' = calls st ++ [sym] ∧
    _daily_count (limiter st') = _daily_count (limiter st) + 1 ∧
    exhausted (limiter st) = None)).
Proof.
  cbv zeta. unfold ingest_step, wait.
  destruct (exhausted (limiter st)) as [limit|] eqn:Hex.
  - cbn. rewrite length_app. cbn. split; [done|]. split; [lia|]. by left.
  - cbv zeta.
    destruct (if PrimFloat.ltb _ _ then _ else _) as [e|].
    + cbn. rewrite length_app. cbn. split; [done|]. split; [lia|]. by left.
    + destruct (fetch_daily (calls st) sym) as [r|e];
        cbn; rewrite length_app; cbn;
        (split; [done|]); (split; [lia|]); by right.
Qed.

Lemma ingest_loop_inv symbols : ∀ st n,
  _daily_limit (limiter st) = Some n →
  let st' := foldl (ingest_step clock fetch_daily) st symbols in
  _daily_limit (limiter st') = Some n ∧
  (length (lines st') = length (lines st) + length symbols)%nat ∧
  _daily_count (limiter st') - _daily_count (limiter st) =
    Z.of_nat (length (calls st')) - Z.of_nat (length (calls st)) ∧
  (length (calls st) ≤ length (calls st'))%nat ∧
  _daily_count (limiter st') ≤ Z.max (_daily_count (limiter st)) n.
Proof.
  induction symbols as [|sym symbols IH]; intros st n Hlimit; cbv zeta.
  - cbn. repeat split; try done; lia.
  - cbn [foldl].
    destruct (ingest_step_inv st sym) as (Hl & Hlines & Hstep).
    destruct (IH (ingest_step clock fetch_daily st sym) n)
      as (Hl' & Hlines' & Hcount & Hcalls & Hmax); [congruence|].
    split; [done|]. split; [cbn [length]; lia|].
    destruct Hstep as [[Ec Ed]|(Ec & Ed & Hex)].
    + rewrite Ec, Ed in *. repeat split; try done.
    + rewrite Ec, Ed in *. rewrite length_app in *. cbn [length] in *.
      pose proof (proj1 (exhausted_None _) Hex n Hlimit).
      repeat split; lia.
Qed.

Hypothesis sleep_returns : ∀ d, sleep clock d = None.

Lemma ingest_step_fetches st sym :
  exhausted (limiter st) = None →
  let st' := ingest_step clock fetch_daily st sym in
  calls st' = calls st ++ [sym] ∧
  _daily_limit (limiter st') = _daily_limit (limiter st) ∧
  _daily_count (limiter st') = _daily_count (limiter st) + 1 ∧
  ∃ line, lines st' = lines st ++ [line].
Proof.
  intros Hex. cbv zeta. unfold ingest_step, wait. rewrite Hex. cbv zeta.
  rewrite sleep_returns.
  destruct (PrimFloat.ltb _ _);
    destruct (fetch_daily (calls st) sym) as [r|e]; cbn;
    repeat split; by eexists.
Qed.

Lemma ingest_step_refused st sym limit :
  exhausted (limiter st) = Some limit →
  ingest_step clock fetch_daily st sym =
    mkState (limiter st) (ticks st) (calls st)
      (lines st ++ [Failed sym (RuntimeError (limit_message limit))]).
Proof. intros Hex. unfold ingest_step, wait. by rewrite Hex. Qed.

Lemma ingest_loop_refused symbols : ∀ st limit,
  exhausted (limiter st) = Some limit →
  foldl (ingest_step clock fetch_daily) st symbols =
    mkState (limiter st) (ticks st) (calls st)
      (lines st ++
         ((λ sym, Failed sym (RuntimeError (limit_message limit)))
            <$> symbols)).
Proof.
  induction symbols as [|sym symbols IH]; intros st limit Hex.
  - cbn. rewrite app_nil_r. by destruct st.
  - cbn [foldl]. rewrite (ingest_step_refused _ _ _ Hex).
    rewrite (IH _ limit) by done. cbn. by rewrite <- app_assoc.
Qed.

Lemma ingest_loop_limited symbols : ∀ st n,
  _daily_limit (limiter st) = Some n →
  let k := Z.to_nat (n - _daily_count (limiter st)) in
  let st' := foldl (ingest_step clock fetch_daily) st symbols in
  calls st' = calls st ++ take k symbols ∧
  ∃ served,
    length served = (k `min` length symbols)%nat ∧
    lines st' =
      lines st ++ served ++
      ((λ sym, Failed sym (RuntimeError (limit_message n)))
         <$> drop k symbols).
Proof.
  induction symbols as [|sym symbols IH]; intros st n Hlimit; cbv zeta.
  - cbn. rewrite take_nil, drop_nil, !app_nil_r.
    split; [done|]. exists []. rewrite Nat.min_0_r. by rewrite app_nil_r.
  - destruct (decide (n ≤ _daily_count (limiter st))) as [Hfull|Hroom].
    + assert (exhausted (limiter st) = Some n) as Hex
        by (by apply exhausted_Some).
      rewrite (ingest_loop_refused _ _ _ Hex).
      replace (Z.to_nat (n - _daily_count (limiter st))) with 0%nat by lia.
      cbn. rewrite app_nil_r. split; [done|]. by exists [].
    + assert (exhausted (limiter st) = None) as Hex.
      { apply exhausted_None. intros l. rewrite Hlimit. intros [= <-]. lia. }
      cbn [foldl].
      destruct (ingest_step_fetches st sym Hex)
        as (Hcalls & Hl & Hcount & line & Hlines).
      destruct (IH (ingest_step clock fetch_daily st sym) n)
        as (Hcalls' & served & Hserved & Hlines'); [congruence|].
      rewrite Hcount in *.
      replace (Z.to_nat (n - _daily_count (limiter st)))
        with (S (Z.to_nat (n - (_daily_count (limiter st) + 1)))) by lia.
      cbn [take drop length]. split.
      * rewrite Hcalls', Hcalls. by rewrite <- app_assoc.
      * exists (line :: served). split; [cbn; lia|].
        rewrite Hlines', Hlines. by rewrite <- !app_assoc.
Qed.

Lemma ingest_loop_unlimited symbols : ∀ st,
  _daily_limit (limiter st) = None →
  calls (foldl (ingest_step clock fetch_daily) st symbols) =
    calls st ++ symbols.
Proof.
  induction symbols as [|sym symbols IH]; intros st Hlimit.
  - cbn. by rewrite app_nil_r.
  - assert (exhausted (limiter st) = None) as Hex.
    { apply exhausted_None. intros l. by rewrite Hlimit. }
    cbn [foldl].
    destruct (ingest_step_fetches st sym Hex) as (Hcalls & Hl & _).
    rewrite IH by congruence. rewrite Hcalls. by rewrite <- app_assoc.
Qed.

End IngestFacts.

Section LimiterFacts.

Import RateLimiter Ingest.

Lemma init_Returned limit rl :
  init limit = Returned rl →
  _daily_limit rl = calls_per_day limit ∧ _daily_count rl = 0.
Proof.
  unfold init. destruct (float_of_int _) as [f|]; [|done].
  destruct (PrimFloat.eqb f 0); [done|]. by intros [= <-].
Qed.

End LimiterFacts.

(** X27. [ingest_daily] keeps to the daily limit of its source. With a
    limit of [n] calls a day, [fetch_daily] is called for [n] symbols at
    most, whatever the clock and the fetches do; every symbol gets one
    line. When [time.sleep] returns, the symbols fetched are the first
    [n] of the list, and each symbol after them is reported with the
    RuntimeError of the limiter. *)
Theorem ingest_daily_limit (clock : RateLimiter.Clock)
    (fetch_daily :
       list string → string → RateLimiter.outcome Ingest.FetchResult)
    (rate_limit : RateLimiter.RateLimit) (n : Z)
    (symbol_list : list string) (st : Ingest.State) :
  RateLimiter.calls_per_day rate_limit = Some n →
  Ingest.ingest_daily clock fetch_daily rate_limit symbol_list
    = RateLimiter.Returned st →
  (length (Ingest.calls st) ≤ Z.to_nat n)%nat ∧
  RateLimiter._daily_count (Ingest.limiter st) =
    Z.of_nat (length (Ingest.calls st)) ∧
  length (Ingest.lines st) = length symbol_list ∧
  ((∀ d, RateLimiter.sleep clock d = None) →
     Ingest.calls st = take (Z.to_nat n) symbol_list ∧
     ∀ (i : nat) sym,
       symbol_list !! i = Some sym → (Z.to_nat n ≤ i)%nat →
       Ingest.lines st !! i =
         Some (Ingest.Failed sym
                 (RateLimiter.RuntimeError (RateLimiter.limit_message n)))).
Proof.
  intros Hday. unfold Ingest.ingest_daily.
  destruct (RateLimiter.init rate_limit) as [rl|e] eqn:Hinit; [|done].
  intros [= <-].
  apply init_Returned in Hinit as [Hlimit Hzero]. rewrite Hday in Hlimit.
  set (st0 := Ingest.mkState rl 0 [] []).
  destruct (ingest_loop_inv clock fetch_daily symbol_list st0 n Hlimit)
    as (_ & Hlines & Hcount & _ & Hmax).
  cbn [st0 Ingest.limiter Ingest.calls Ingest.lines length] in *.
  rewrite Hzero in *.
  split; [lia|]. split; [lia|]. split; [lia|].
  intros Hsleep.
  destruct (ingest_loop_limited clock fetch_daily Hsleep symbol_list st0 n
              Hlimit) as (Hcalls & served & Hserved & Hlines').
  cbn [st0 Ingest.limiter Ingest.calls Ingest.lines app] in *.
  rewrite Hzero, Z.sub_0_r in *.
  split; [exact Hcalls|].
  intros i sym Hi Hge. fold st0. rewrite Hlines'.
  assert (length served = Z.to_nat n) as Hk.
  { apply lookup_lt_Some in Hi. lia. }
  rewrite lookup_app_r by lia. rewrite list_lookup_fmap, lookup_drop, Hk.
  replace (Z.to_nat n + (i - Z.to_nat n))%nat with i by lia.
  by rewrite Hi.
Qed.

Lemma ingest_daily_limit_witness :
  let clock := RateLimiter.mkClock (λ k, 1000%float) (λ d, None) in
  let fetch_daily := λ (before : list string) (sym : string),
    RateLimiter.Returned (Ingest.mkFetchResult sym 250 "alpha_vantage") in
  let rate_limit := RateLimiter.mkRateLimit 5 (Some 2) in
  ∃ st,
    Ingest.ingest_daily clock fetch_daily rate_limit ["AAPL"; "MSFT"; "NVDA"]
      = RateLimiter.Returned st ∧
    Ingest.calls st = ["AAPL"; "MSFT"] ∧
    Ingest.lines st !! 2%nat =
      Some (Ingest.Failed "NVDA"
              (RateLimiter.RuntimeError
                 (RateLimiter.limit_message 2))).
Proof.
  intros clock fetch_daily rate_limit.
  assert (∃ st, Ingest.ingest_daily clock fetch_daily rate_limit
                  ["AAPL"; "MSFT"; "NVDA"] = RateLimiter.Returned st)
    as [st Hst] by (eexists; vm_compute; reflexivity).
  destruct (ingest_daily_limit clock fetch_daily rate_limit 2
              ["AAPL"; "MSFT"; "NVDA"] st eq_refl Hst)
    as (_ & _ & _ & Hexact).
  destruct (Hexact (λ d, eq_refl)) as [Hcalls Hlines].
  exists st. split; [exact Hst|]. split; [exact Hcalls|].
  apply Hlines; [reflexivity|]. cbn. lia.
Defined.

(** X28. Without a daily limit, and when [time.sleep] returns,
    [ingest_daily] calls [fetch_daily] for every symbol of the list, in
    order. With [calls_per_minute = 0] it raises ZeroDivisionError when
    it builds the limiter, before any symbol is fetched. *)
Theorem ingest_daily_unlimited (clock : RateLimiter.Clock)
    (fetch_daily :
       list string → string → RateLimiter.outcome Ingest.FetchResult)
    (rate_limit : RateLimiter.RateLimit) (per_day : option Z)
    (symbol_list : list string) :
  (RateLimiter.calls_per_day rate_limit = None →
   (∀ d, RateLimiter.sleep clock d = None) →
   ∀ st,
     Ingest.ingest_daily clock fetch_daily rate_limit symbol_list
       = RateLimiter.Returned st →
     Ingest.calls st = symbol_list) ∧
  Ingest.ingest_daily clock fetch_daily
    (RateLimiter.mkRateLimit 0 per_day) symbol_list
    = RateLimiter.Raised RateLimiter.ZeroDivisionError.
Proof.
  split; [|reflexivity].
  intros Hday Hsleep st. unfold Ingest.ingest_daily.
  destruct (RateLimiter.init rate_limit) as [rl|e] eqn:Hinit; [|done].
  intros [= <-].
  apply init_Returned in Hinit as [Hlimit _]. rewrite Hday in Hlimit.
  by rewrite (ingest_loop_unlimited clock fetch_daily Hsleep).
Qed.

Lemma ingest_daily_unlimited_witness :
  let clock := RateLimiter.mkClock (λ k, 1000%float) (λ d, None) in
  let fetch_daily := λ (before : list string) (sym : string),
    RateLimiter.Returned (Ingest.mkFetchResult sym 250 "yfinance") in
  ∃ st,
    Ingest.ingest_daily clock fetch_daily (RateLimiter.mkRateLimit 2 None)
      ["AAPL"; "MSFT"; "NVDA"] = RateLimiter.Returned st ∧
    Ingest.calls st = ["AAPL"; "MSFT"; "NVDA"].
Proof.
  intros clock fetch_daily.
  assert (∃ st, Ingest.ingest_daily clock fetch_daily
                  (RateLimiter.mkRateLimit 2 None)
                  ["AAPL"; "MSFT"; "NVDA"] = RateLimiter.Returned st)
    as [st Hst] by (eexists; vm_compute; reflexivity).
  exists st. split; [exact Hst|].
  exact (proj1 (ingest_daily_unlimited clock fetch_daily
                  (RateLimiter.mkRateLimit 2 None) None
                  ["AAPL"; "MSFT"; "NVDA"]) eq_refl (λ d, eq_refl) st Hst).
Defined.

(** ** When the Stooq normalizer returns *)

Section Returns.

Context `{Library}.

Variable now_utc : Z.

Lemma mapM_is_ok {A B : Type} (f : A → result B) (l : list A) :
  is_ok (mapM f l) ↔ Forall (λ x, is_ok (f x)) l.
Proof.
  induction l as [|x l IH].
  - split; [constructor | by exists []].
  - rewrite mapM_cons, Forall_cons, <- IH. split.
    + intros [ys Hys]. apply bind_Ok in Hys as (y & Hy & Hys).
      apply bind_Ok in Hys as (ys' & Hys' & _).
      split; by eexists.
    + intros [[y Hy] [ys Hys]]. exists (y :: ys).
      apply bind_Ok. exists y. split; [done|].
      apply bind_Ok. by exists ys.
Qed.

Lemma eval_cell_date_ok e v :
  is_ok (eval_cell (StrToDate e) v) ↔ date_text v.
Proof.
  unfold date_text. destruct v as [|s|n|f|d|t]; cbn [eval_cell].
  - split; [by left | by eexists].
  - split.
    + intros [d Hd]. apply fmap_Ok in Hd as (d' & Hd' & _).
      apply of_option_Ok in Hd'. right. exists s. by rewrite Hd'.
    + intros [[=]|(s' & [= <-] & [d Hd])]. rewrite Hd. by eexists.
  - split; [intros [? [=]] | intros [[=]|(? & [=] & _)]].
  - split; [intros [? [=]] | intros [[=]|(? & [=] & _)]].
  - split; [intros [? [=]] | intros [[=]|(? & [=] & _)]].
  - split; [intros [? [=]] | intros [[=]|(? & [=] & _)]].
Qed.

Lemma eval_cell_float_ok e v :
  is_ok (eval_cell (Cast e Float64) v) ↔ float_cell v.
Proof.
  unfold float_cell. cbn [eval_cell].
  destruct (cast_float64 v) as [c|]; cbn; split.
  - intros _. by eexists.
  - intros _. by eexists.
  - intros [? [=]].
  - intros [? [=]].
Qed.

Lemma eval_cell_int_ok e v :
  is_ok (eval_cell (Cast e Int64) v) ↔ int_cell v.
Proof.
  unfold int_cell. cbn [eval_cell].
  destruct (cast_int64 v) as [c|]; cbn; split.
  - intros _. by eexists.
  - intros _. by eexists.
  - intros [? [=]].
  - intros [? [=]].
Qed.

Lemma Forall_cells_ok (P : value → Prop) op cells :
  (∀ v, is_ok (eval_cell op v) ↔ P v) →
  is_ok (mapM (eval_cell op) cells) ↔ Forall P cells.
Proof.
  intros HP. rewrite mapM_is_ok. apply Forall_proper; [|done].
  intros v. apply HP.
Qed.

Lemma date_keys_ok cells :
  Forall (has_type PlDate) cells → is_ok (mapM date_key cells).
Proof.
  intros Hc. apply mapM_is_ok. eapply Forall_impl; [exact Hc|].
  intros v Hv. destruct v; try done; by eexists.
Qed.

Lemma stooq_rename dates opens highs lows closes volumes :
  rename (<["Date" := "date"]> (<["Open" := "open"]>
           (<["High" := "high"]> (<["Low" := "low"]>
           (<["Close" := "close"]> {["Volume" := "volume"]})))))
    [ ("Date", dates); ("Open", opens); ("High", highs); ("Low", lows);
      ("Close", closes); ("Volume", volumes) ] =
  Ok (stooq_renamed dates opens highs lows closes volumes).
Proof.
  unfold rename.
  rewrite bool_decide_eq_true_2
    by (apply (bool_decide_unpack _); vm_compute; reflexivity).
  rewrite bool_decide_eq_true_2
    by (apply (bool_decide_unpack _); vm_compute; reflexivity).
  vm_compute. reflexivity.
Qed.

(** The Stooq normalizer returns once the columns of the renamed frame
    can be computed. *)
Lemma normalize_stooq_daily_from_columns (df1 df2 : Frame) symbol :
  with_columns (stooq_exprs now_utc symbol) df1 = Ok df2 →
  ∃ df, (df3 ← sort "date" df2; select OUTPUT_COLUMNS df3) = Ok df.
Proof.
  intros Hwith.
  assert (∀ name ty, (name, ty) ∈ OUTPUT_SCHEMA →
            ∃ cells, get_column name df2 = Ok cells ∧
                     Forall (has_type ty) cells) as Hcols.
  { intros name ty Hin.
    assert (gives_type (stooq_exprs now_utc symbol) name ty) as Hgives.
    { unfold OUTPUT_SCHEMA, DAILY_OHLCV_SCHEMA in Hin. cbn [app] in Hin.
      repeat (apply elem_of_cons in Hin as [[= -> ->]|Hin];
              [apply (bool_decide_unpack _); vm_compute; reflexivity|]).
      by apply elem_of_nil in Hin. }
    apply Exists_exists in Hgives as (e & He & <- & Hty).
    destruct (with_columns_evals _ _ _ e Hwith He) as (col & Hev & Hget).
    rewrite (eval_name _ _ _ Hev) in Hget.
    exists col.2. split; [done|]. by eapply eval_has_type. }
  destruct (Hcols "date" PlDate) as (pd & Hpd & Htd).
  { apply list_elem_of_In. simpl. tauto. }
  destruct (date_keys_ok pd Htd) as [keys Hkeys].
  unfold sort. rewrite Hpd.
  change (Ok pd ≫= ?k) with (k pd). cbv beta. rewrite Hkeys.
  change (Ok keys ≫= ?k) with (k keys). cbv beta zeta.
  change (Ok ?x ≫= ?k) with (k x). cbv beta.
  set (order := (merge_sort row_le (zip keys (seq 0 (length keys)))).*2).
  unfold select.
  rewrite bool_decide_eq_true_2
    by (apply (bool_decide_unpack _); vm_compute; reflexivity).
  match goal with
  | |- ∃ df, ?m ≫= _ = Ok df =>
      assert (is_ok m) as [cols Hsel]
  end.
  { apply mapM_is_ok, Forall_forall. intros name Hname.
    assert (∃ ty, (name, ty) ∈ OUTPUT_SCHEMA) as [ty Hty].
    { apply OUTPUT_COLUMNS_elem in Hname. cbn in Hname.
      repeat (destruct Hname as [<-|Hname];
              [eexists; apply list_elem_of_In; simpl; tauto|]).
      done. }
    destruct (Hcols name ty Hty) as (cells & Hcells & _).
    cbv beta.
    rewrite (get_column_fmap
               (λ cells, (λ i, default VNull (cells !! i)) <$> order)).
    rewrite Hcells. by eexists. }
  rewrite Hsel. by eexists.
Qed.

Lemma eval_col_op (df : Frame) op n cells :
  get_column n df = Ok cells →
  (op = StrToDate (Col n) ∨ ∃ dt, op = Cast (Col n) dt) →
  is_ok (eval df op) ↔ is_ok (mapM (eval_cell op) cells).
Proof.
  intros Hget Hop.
  assert (eval df op =
          (cs ← mapM (eval_cell op) cells; Ok (n, cs))) as ->.
  { destruct Hop as [->|[dt ->]]; cbn [eval]; by rewrite Hget. }
  split.
  - intros [col Hcol]. apply bind_Ok in Hcol as (cs & Hcs & _). by eexists.
  - intros [cs Hcs]. rewrite Hcs. by eexists.
Qed.

Lemma eval_alias_ok (df : Frame) e n :
  is_ok (eval df (Alias e n)) ↔ is_ok (eval df e).
Proof.
  cbn [eval]. split.
  - intros [col Hcol]. apply bind_Ok in Hcol as (col' & Hcol' & _).
    by eexists.
  - intros [col Hcol]. rewrite Hcol. by eexists.
Qed.

Lemma with_columns_is_ok exprs (df : Frame) :
  NoDup (expr_name <$> exprs) →
  is_ok (with_columns exprs df) ↔ Forall (λ e, is_ok (eval df e)) exprs.
Proof.
  intros Hnd. rewrite <- mapM_is_ok. unfold with_columns. split.
  - intros [df' Hdf']. apply bind_Ok in Hdf' as (cols & Hcols & _).
    by eexists.
  - intros [cols Hcols]. rewrite Hcols.
    change (Ok cols ≫= ?k) with (k cols). cbv beta.
    assert (cols.*1 = expr_name <$> exprs) as ->.
    { apply mapM_Ok in Hcols. clear Hnd.
      induction Hcols as [|e col exprs cols He _ IH]; [done|].
      cbn. by rewrite IH, (eval_name _ _ _ He). }
    rewrite bool_decide_eq_true_2 by done. by eexists.
Qed.

Lemma stooq_columns_ok dates opens highs lows closes volumes symbol :
  is_ok (with_columns (stooq_exprs now_utc symbol)
           (stooq_renamed dates opens highs lows closes volumes)) ↔
  Forall date_text dates ∧ Forall float_cell opens ∧
  Forall float_cell highs ∧ Forall float_cell lows ∧
  Forall float_cell closes ∧ Forall int_cell volumes.
Proof.
  rewrite with_columns_is_ok
    by (apply (bool_decide_unpack _); vm_compute; reflexivity).
  unfold stooq_exprs. rewrite !Forall_cons, Forall_nil.
  rewrite !eval_alias_ok.
  set (df1 := stooq_renamed dates opens highs lows closes volumes).
  rewrite (eval_col_op df1 (StrToDate (Col "date")) "date" dates)
    by (reflexivity || by left).
  rewrite (eval_col_op df1 (Cast (Col "open") Float64) "open" opens)
    by (reflexivity || (right; by eexists)).
  rewrite (eval_col_op df1 (Cast (Col "high") Float64) "high" highs)
    by (reflexivity || (right; by eexists)).
  rewrite (eval_col_op df1 (Cast (Col "low") Float64) "low" lows)
    by (reflexivity || (right; by eexists)).
  rewrite (eval_col_op df1 (Cast (Col "close") Float64) "close" closes)
    by (reflexivity || (right; by eexists)).
  rewrite (eval_col_op df1 (Cast (Col "volume") Int64) "volume" volumes)
    by (reflexivity || (right; by eexists)).
  rewrite (Forall_cells_ok date_text) by apply eval_cell_date_ok.
  rewrite !(Forall_cells_ok float_cell) by apply eval_cell_float_ok.
  rewrite (Forall_cells_ok int_cell) by apply eval_cell_int_ok.
  assert (∀ v, is_ok (eval df1 (Lit v))) as Hlit by (intros v; by eexists).
  pose proof (Hlit (VStr "stooq")). pose proof (Hlit (VDatetime now_utc)).
  pose proof (Hlit (VStr symbol)). tauto.
Qed.

End Returns.

(** X29. For a CSV with the header of Stooq (Date, Open, High, Low,
    Close, Volume) [normalize] returns a frame exactly when every date
    cell is null or a text that parses as [%Y-%m-%d], every price cell
    casts to Float64 and every volume cell casts to Int64; one cell that
    does not makes the whole call raise. *)
Theorem normalize_stooq_returns `{Library} (now_utc : Z) (symbol : string)
    (dates opens highs lows closes volumes : list value) :
  is_ok (normalize now_utc "stooq"
           (stooq_payload dates opens highs lows closes volumes) symbol) ↔
  Forall date_text dates ∧ Forall float_cell opens ∧
  Forall float_cell highs ∧ Forall float_cell lows ∧
  Forall float_cell closes ∧ Forall int_cell volumes.
Proof.
  rewrite <- (stooq_columns_ok now_utc _ _ _ _ _ _ symbol).
  unfold normalize. rewrite NORMALIZERS_lookup.
  rewrite !bool_decide_eq_false_2 by discriminate.
  rewrite bool_decide_eq_true_2 by reflexivity.
  unfold normalize_stooq_daily, stooq_payload. cbn [read_csv].
  change (Ok ?x ≫= ?k) with (k x). cbv beta.
  rewrite stooq_rename. change (Ok ?x ≫= ?k) with (k x). cbv beta.
  fold (stooq_exprs now_utc symbol). split.
  - intros [df Hdf]. apply bind_Ok in Hdf as (df2 & Hwith & _). by eexists.
  - intros [df2 Hwith]. rewrite Hwith.
    change (Ok df2 ≫= ?k) with (k df2). cbv beta.
    by eapply normalize_stooq_daily_from_columns.
Qed.

(** ** When the Alpha Vantage normalizer returns *)

Section ReturnsAlphaVantage.

Context `{Library}.

Variable now_utc : Z.

Lemma float_item_ok key values :
  is_ok (s ← dict_item key values; of_option ValueError (py_float s)) ↔
  float_field key values.
Proof.
  unfold float_field, dict_item. split.
  - intros [f Hf]. apply bind_Ok in Hf as (s & Hs & Hf).
    apply of_option_Ok in Hs, Hf. exists s. by rewrite Hf.
  - intros (s & -> & [f Hf]). cbn. rewrite Hf. by eexists.
Qed.






End ReturnsAlphaVantage.

